(** * Result analytics dashboard: the table and chart pipeline of [App.jsx]

    A shallow embedding of the data transformations of
    [frontend/src/App.jsx]: the search filter, the comparator and sort, the
    competition ranker and the tier classifier of [AllStudentsTable], and the
    width computation of [DistributionChart]; then the cells of a table
    row, and the request handlers and views of [HealthPage] and
    [AnalyzeResultsPage].

    JavaScript values are modelled as follows.
    - A Number is an IEEE 754 binary64 value, taken from the Standard
      Library's specification of floating-point arithmetic ([spec_float] with
      a 53 bit mantissa and [emax = 1024]); [/] and [*] are its correctly
      rounded [SFdiv] and [SFmul], [<] and [===] its [SFltb] and [SFeqb].
    - A String is a [string] that holds the UTF-8 bytes of its text.
      [includes] and the order of two Strings work on the bytes;
      [toLowerCase] is the case mapping of the language on the code points
      of the text, with the case data of Unicode 14.0: it folds the letters
      of every script and writes a capital sigma at the end of a word as the
      final sigma. On ASCII text it is the map of [A] to [Z] onto [a] to
      [z].
    - A score and a bucket count arrive from JSON and are dynamically typed:
      [value] has the primitive values a field can hold ([undefined] for a
      missing field).
    - An array is a [list]; an index and a rank are in [Z], as [findIndex]
      answers [-1] when nothing is found. *)

From Stdlib Require Import ZArith List String Ascii Bool Lia SpecFloat.
From Stdlib Require Import DecimalString.
From stdpp Require Import base list sorting.

Open Scope Z_scope.

(** ** Numbers *)

Definition number : Type := spec_float.

Definition prec : Z := 53.
Definition emax : Z := 1024.

Definition NaN : number := S754_nan.
Definition pos_zero : number := S754_zero false.
Definition neg_infinity : number := S754_infinity true.

(** [x / y] and [x * y]. *)
Definition num_div (x y : number) : number := SFdiv prec emax x y.
Definition num_mul (x y : number) : number := SFmul prec emax x y.

(** [x < y], [x > y], [x >= y] and [x === y] on two Numbers; each is false
    as soon as one side is NaN. *)
Definition num_lt (x y : number) : bool := SFltb x y.
Definition num_gt (x y : number) : bool := SFltb y x.
Definition num_ge (x y : number) : bool := SFleb y x.
Definition num_eq (x y : number) : bool := SFeqb x y.

Definition isNaN (x : number) : bool :=
  match x with S754_nan => true | _ => false end.

(** The Number nearest to the rational [n / d] (ties to even), for
    [0 <= n] and [0 < d], with the sign [neg]: the quotient is taken with
    1200 extra binary digits, the remainder gives the rounding position. *)
Definition of_ratio (neg : bool) (n d : Z) : number :=
  if n =? 0 then S754_zero neg
  else
    let '(q, r) := Z.div_eucl (Z.shiftl n 1200) d in
    binary_round_aux prec emax neg q (-1200) (new_location d r).

(** The Number written as the decimal [m * 10 ^ e]. *)
Definition dec (m e : Z) : number :=
  if 0 <=? e then of_ratio (m <? 0) (Z.abs m * 10 ^ e) 1
  else of_ratio (m <? 0) (Z.abs m) (10 ^ (- e)).

(** ToBoolean on a Number: [+0], [-0] and NaN are falsy. *)
Definition truthy (x : number) : bool :=
  match x with
  | S754_zero _ | S754_nan => false
  | _ => true
  end.

(** [x || y] on Numbers. *)
Definition num_or (x y : number) : number := if truthy x then x else y.

(** [Math.max(...xs)]: [-Infinity] without arguments, NaN as soon as one
    argument is NaN, and [+0] above [-0]. *)
Fixpoint Math_max_from (highest : number) (xs : list number) : number :=
  match xs with
  | [] => highest
  | x :: xs' =>
      if isNaN x then NaN
      else
        let highest :=
          match x, highest with
          | S754_zero false, S754_zero true => x
          | _, _ => highest
          end in
        Math_max_from (if num_gt x highest then x else highest) xs'
  end.

Definition Math_max (xs : list number) : number :=
  Math_max_from neg_infinity xs.

(** ** Strings *)

Definition code (c : ascii) : Z := Z.of_N (N_of_ascii c).

(** *** Code points

    A String is held as the UTF-8 bytes of its text. A byte that is not part
    of a well-formed sequence stands for itself: it is read as a point above
    the Unicode range and written back as it was. *)

Definition stray (b : N) : N := (1114112 + b)%N.

Definition is_continuation (b : N) : bool := ((128 <=? b) && (b <? 192))%N.

(** The code point of a sequence of [2], [3] or [4] bytes, when the
    sequence is the shortest one for it and it is no surrogate. *)
Definition point_of (lead : N) (tail : list N) : option N :=
  (if forallb is_continuation tail then
     match tail with
     | [b2] =>
         let c := (lead - 192) * 64 + (b2 - 128) in
         if (192 <=? lead) && (lead <? 224) && (128 <=? c) then Some c
         else None
     | [b2; b3] =>
         let c := ((lead - 224) * 64 + (b2 - 128)) * 64 + (b3 - 128) in
         if (224 <=? lead) && (lead <? 240) && (2048 <=? c) &&
            negb ((55296 <=? c) && (c <=? 57343))
         then Some c else None
     | [b2; b3; b4] =>
         let c :=
           (((lead - 240) * 64 + (b2 - 128)) * 64 + (b3 - 128)) * 64 +
           (b4 - 128) in
         if (240 <=? lead) && (lead <? 248) && (65536 <=? c) &&
            (c <=? 1114111)
         then Some c else None
     | _ => None
     end
   else None)%N.

Fixpoint code_points (s : string) : list N :=
  match s with
  | EmptyString => []
  | String a s1 =>
      let b := N_of_ascii a in
      if (b <? 128)%N then b :: code_points s1
      else
        match s1 with
        | String a2 s2 =>
            match point_of b [N_of_ascii a2] with
            | Some c => c :: code_points s2
            | None =>
                match s2 with
                | String a3 s3 =>
                    match point_of b [N_of_ascii a2; N_of_ascii a3] with
                    | Some c => c :: code_points s3
                    | None =>
                        match s3 with
                        | String a4 s4 =>
                            match point_of b [N_of_ascii a2; N_of_ascii a3;
                                              N_of_ascii a4] with
                            | Some c => c :: code_points s4
                            | None => stray b :: code_points s1
                            end
                        | EmptyString => stray b :: code_points s1
                        end
                    end
                | EmptyString => stray b :: code_points s1
                end
            end
        | EmptyString => [stray b]
        end
  end.

(** The bytes of one code point. *)
Definition utf8 (c : N) : list N :=
  (if c <? 128 then [c]
   else if c <? 2048 then [192 + c / 64; 128 + c mod 64]
   else if c <? 65536 then
     [224 + c / 4096; 128 + (c / 64) mod 64; 128 + c mod 64]
   else if c <? 1114112 then
     [240 + c / 262144; 128 + (c / 4096) mod 64; 128 + (c / 64) mod 64;
      128 + c mod 64]
   else [c - 1114112])%N.

Definition of_code_points (l : list N) : string :=
  string_of_list_ascii (map ascii_of_N (concat (map utf8 l))).

(** *** Case mapping

    The character data are those of Unicode 14.0. *)

(** The code points with a single lower-case code point, in runs
    [(first, last, step, lower)]: every [step]-th code point from [first]
    to [last] has its lower-case form at the same distance from [lower]. *)
Definition lowercase_table : list (N * N * N * N) :=
  [
   (65, 90, 1, 97); (192, 214, 1, 224); (216, 222, 1, 248);
   (256, 302, 2, 257); (306, 310, 2, 307); (313, 327, 2, 314);
   (330, 374, 2, 331); (376, 376, 1, 255); (377, 381, 2, 378);
   (385, 385, 1, 595); (386, 388, 2, 387); (390, 390, 1, 596);
   (391, 391, 1, 392); (393, 394, 1, 598); (395, 395, 1, 396);
   (398, 398, 1, 477); (399, 399, 1, 601); (400, 400, 1, 603);
   (401, 401, 1, 402); (403, 403, 1, 608); (404, 404, 1, 611);
   (406, 406, 1, 617); (407, 407, 1, 616); (408, 408, 1, 409);
   (412, 412, 1, 623); (413, 413, 1, 626); (415, 415, 1, 629);
   (416, 420, 2, 417); (422, 422, 1, 640); (423, 423, 1, 424);
   (425, 425, 1, 643); (428, 428, 1, 429); (430, 430, 1, 648);
   (431, 431, 1, 432); (433, 434, 1, 650); (435, 437, 2, 436);
   (439, 439, 1, 658); (440, 440, 1, 441); (444, 444, 1, 445);
   (452, 452, 1, 454); (453, 453, 1, 454); (455, 455, 1, 457);
   (456, 456, 1, 457); (458, 458, 1, 460); (459, 475, 2, 460);
   (478, 494, 2, 479); (497, 497, 1, 499); (498, 500, 2, 499);
   (502, 502, 1, 405); (503, 503, 1, 447); (504, 542, 2, 505);
   (544, 544, 1, 414); (546, 562, 2, 547); (570, 570, 1, 11365);
   (571, 571, 1, 572); (573, 573, 1, 410); (574, 574, 1, 11366);
   (577, 577, 1, 578); (579, 579, 1, 384); (580, 580, 1, 649);
   (581, 581, 1, 652); (582, 590, 2, 583); (880, 882, 2, 881);
   (886, 886, 1, 887); (895, 895, 1, 1011); (902, 902, 1, 940);
   (904, 906, 1, 941); (908, 908, 1, 972); (910, 911, 1, 973);
   (913, 929, 1, 945); (931, 939, 1, 963); (975, 975, 1, 983);
   (984, 1006, 2, 985); (1012, 1012, 1, 952); (1015, 1015, 1, 1016);
   (1017, 1017, 1, 1010); (1018, 1018, 1, 1019); (1021, 1023, 1, 891);
   (1024, 1039, 1, 1104); (1040, 1071, 1, 1072); (1120, 1152, 2, 1121);
   (1162, 1214, 2, 1163); (1216, 1216, 1, 1231); (1217, 1229, 2, 1218);
   (1232, 1326, 2, 1233); (1329, 1366, 1, 1377); (4256, 4293, 1, 11520);
   (4295, 4295, 1, 11559); (4301, 4301, 1, 11565); (5024, 5103, 1, 43888);
   (5104, 5109, 1, 5112); (7312, 7354, 1, 4304); (7357, 7359, 1, 4349);
   (7680, 7828, 2, 7681); (7838, 7838, 1, 223); (7840, 7934, 2, 7841);
   (7944, 7951, 1, 7936); (7960, 7965, 1, 7952); (7976, 7983, 1, 7968);
   (7992, 7999, 1, 7984); (8008, 8013, 1, 8000); (8025, 8031, 2, 8017);
   (8040, 8047, 1, 8032); (8072, 8079, 1, 8064); (8088, 8095, 1, 8080);
   (8104, 8111, 1, 8096); (8120, 8121, 1, 8112); (8122, 8123, 1, 8048);
   (8124, 8124, 1, 8115); (8136, 8139, 1, 8050); (8140, 8140, 1, 8131);
   (8152, 8153, 1, 8144); (8154, 8155, 1, 8054); (8168, 8169, 1, 8160);
   (8170, 8171, 1, 8058); (8172, 8172, 1, 8165); (8184, 8185, 1, 8056);
   (8186, 8187, 1, 8060); (8188, 8188, 1, 8179); (8486, 8486, 1, 969);
   (8490, 8490, 1, 107); (8491, 8491, 1, 229); (8498, 8498, 1, 8526);
   (8544, 8559, 1, 8560); (8579, 8579, 1, 8580); (9398, 9423, 1, 9424);
   (11264, 11311, 1, 11312); (11360, 11360, 1, 11361);
   (11362, 11362, 1, 619); (11363, 11363, 1, 7549); (11364, 11364, 1, 637);
   (11367, 11371, 2, 11368); (11373, 11373, 1, 593); (11374, 11374, 1, 625);
   (11375, 11375, 1, 592); (11376, 11376, 1, 594); (11378, 11378, 1, 11379);
   (11381, 11381, 1, 11382); (11390, 11391, 1, 575);
   (11392, 11490, 2, 11393); (11499, 11501, 2, 11500);
   (11506, 11506, 1, 11507); (42560, 42604, 2, 42561);
   (42624, 42650, 2, 42625); (42786, 42798, 2, 42787);
   (42802, 42862, 2, 42803); (42873, 42875, 2, 42874);
   (42877, 42877, 1, 7545); (42878, 42886, 2, 42879);
   (42891, 42891, 1, 42892); (42893, 42893, 1, 613);
   (42896, 42898, 2, 42897); (42902, 42920, 2, 42903);
   (42922, 42922, 1, 614); (42923, 42923, 1, 604); (42924, 42924, 1, 609);
   (42925, 42925, 1, 620); (42926, 42926, 1, 618); (42928, 42928, 1, 670);
   (42929, 42929, 1, 647); (42930, 42930, 1, 669); (42931, 42931, 1, 43859);
   (42932, 42946, 2, 42933); (42948, 42948, 1, 42900);
   (42949, 42949, 1, 642); (42950, 42950, 1, 7566); (42951, 42953, 2, 42952);
   (42960, 42960, 1, 42961); (42966, 42968, 2, 42967);
   (42997, 42997, 1, 42998); (65313, 65338, 1, 65345);
   (66560, 66599, 1, 66600); (66736, 66771, 1, 66776);
   (66928, 66938, 1, 66967); (66940, 66954, 1, 66979);
   (66956, 66962, 1, 66995); (66964, 66965, 1, 67003);
   (68736, 68786, 1, 68800); (71840, 71871, 1, 71872);
   (93760, 93791, 1, 93792); (125184, 125217, 1, 125218) ]%N.

(** The cased letters that are not case-ignorable, in runs
    [(first, last)]. *)
Definition cased_table : list (N * N) :=
  [
   (65, 90); (97, 122); (170, 170); (181, 181); (186, 186); (192, 214);
   (216, 246); (248, 442); (444, 447); (452, 659); (661, 687); (880, 883);
   (886, 887); (891, 893); (895, 895); (902, 902); (904, 906); (908, 908);
   (910, 929); (931, 1013); (1015, 1153); (1162, 1327); (1329, 1366);
   (1376, 1416); (4256, 4293); (4295, 4295); (4301, 4301); (4304, 4346);
   (4349, 4351); (5024, 5109); (5112, 5117); (7296, 7304); (7312, 7354);
   (7357, 7359); (7424, 7467); (7531, 7543); (7545, 7578); (7680, 7957);
   (7960, 7965); (7968, 8005); (8008, 8013); (8016, 8023); (8025, 8025);
   (8027, 8027); (8029, 8029); (8031, 8061); (8064, 8116); (8118, 8124);
   (8126, 8126); (8130, 8132); (8134, 8140); (8144, 8147); (8150, 8155);
   (8160, 8172); (8178, 8180); (8182, 8188); (8450, 8450); (8455, 8455);
   (8458, 8467); (8469, 8469); (8473, 8477); (8484, 8484); (8486, 8486);
   (8488, 8488); (8490, 8493); (8495, 8500); (8505, 8505); (8508, 8511);
   (8517, 8521); (8526, 8526); (8544, 8575); (8579, 8580); (9398, 9449);
   (11264, 11387); (11390, 11492); (11499, 11502); (11506, 11507);
   (11520, 11557); (11559, 11559); (11565, 11565); (42560, 42605);
   (42624, 42651); (42786, 42863); (42865, 42887); (42891, 42894);
   (42896, 42954); (42960, 42961); (42963, 42963); (42965, 42969);
   (42997, 42998); (43002, 43002); (43824, 43866); (43872, 43880);
   (43888, 43967); (64256, 64262); (64275, 64279); (65313, 65338);
   (65345, 65370); (66560, 66639); (66736, 66771); (66776, 66811);
   (66928, 66938); (66940, 66954); (66956, 66962); (66964, 66965);
   (66967, 66977); (66979, 66993); (66995, 67001); (67003, 67004);
   (68736, 68786); (68800, 68850); (71840, 71903); (93760, 93823);
   (119808, 119892); (119894, 119964); (119966, 119967); (119970, 119970);
   (119973, 119974); (119977, 119980); (119982, 119993); (119995, 119995);
   (119997, 120003); (120005, 120069); (120071, 120074); (120077, 120084);
   (120086, 120092); (120094, 120121); (120123, 120126); (120128, 120132);
   (120134, 120134); (120138, 120144); (120146, 120485); (120488, 120512);
   (120514, 120538); (120540, 120570); (120572, 120596); (120598, 120628);
   (120630, 120654); (120656, 120686); (120688, 120712); (120714, 120744);
   (120746, 120770); (120772, 120779); (122624, 122633); (122635, 122654);
   (125184, 125251); (127280, 127305); (127312, 127337); (127344, 127369) ]%N.

(** The case-ignorable code points (marks, modifier letters, format
    characters and the punctuation that may stand inside a word), in runs
    [(first, last)]. *)
Definition case_ignorable_table : list (N * N) :=
  [
   (39, 39); (46, 46); (58, 58); (94, 94); (96, 96); (168, 168); (173, 173);
   (175, 175); (180, 180); (183, 184); (688, 879); (884, 885); (890, 890);
   (900, 901); (903, 903); (1155, 1161); (1369, 1369); (1375, 1375);
   (1425, 1469); (1471, 1471); (1473, 1474); (1476, 1477); (1479, 1479);
   (1524, 1524); (1536, 1541); (1552, 1562); (1564, 1564); (1600, 1600);
   (1611, 1631); (1648, 1648); (1750, 1757); (1759, 1768); (1770, 1773);
   (1807, 1807); (1809, 1809); (1840, 1866); (1958, 1968); (2027, 2037);
   (2042, 2042); (2045, 2045); (2070, 2093); (2137, 2139); (2184, 2184);
   (2192, 2193); (2200, 2207); (2249, 2306); (2362, 2362); (2364, 2364);
   (2369, 2376); (2381, 2381); (2385, 2391); (2402, 2403); (2417, 2417);
   (2433, 2433); (2492, 2492); (2497, 2500); (2509, 2509); (2530, 2531);
   (2558, 2558); (2561, 2562); (2620, 2620); (2625, 2626); (2631, 2632);
   (2635, 2637); (2641, 2641); (2672, 2673); (2677, 2677); (2689, 2690);
   (2748, 2748); (2753, 2757); (2759, 2760); (2765, 2765); (2786, 2787);
   (2810, 2815); (2817, 2817); (2876, 2876); (2879, 2879); (2881, 2884);
   (2893, 2893); (2901, 2902); (2914, 2915); (2946, 2946); (3008, 3008);
   (3021, 3021); (3072, 3072); (3076, 3076); (3132, 3132); (3134, 3136);
   (3142, 3144); (3146, 3149); (3157, 3158); (3170, 3171); (3201, 3201);
   (3260, 3260); (3263, 3263); (3270, 3270); (3276, 3277); (3298, 3299);
   (3328, 3329); (3387, 3388); (3393, 3396); (3405, 3405); (3426, 3427);
   (3457, 3457); (3530, 3530); (3538, 3540); (3542, 3542); (3633, 3633);
   (3636, 3642); (3654, 3662); (3761, 3761); (3764, 3772); (3782, 3782);
   (3784, 3789); (3864, 3865); (3893, 3893); (3895, 3895); (3897, 3897);
   (3953, 3966); (3968, 3972); (3974, 3975); (3981, 3991); (3993, 4028);
   (4038, 4038); (4141, 4144); (4146, 4151); (4153, 4154); (4157, 4158);
   (4184, 4185); (4190, 4192); (4209, 4212); (4226, 4226); (4229, 4230);
   (4237, 4237); (4253, 4253); (4348, 4348); (4957, 4959); (5906, 5908);
   (5938, 5939); (5970, 5971); (6002, 6003); (6068, 6069); (6071, 6077);
   (6086, 6086); (6089, 6099); (6103, 6103); (6109, 6109); (6155, 6159);
   (6211, 6211); (6277, 6278); (6313, 6313); (6432, 6434); (6439, 6440);
   (6450, 6450); (6457, 6459); (6679, 6680); (6683, 6683); (6742, 6742);
   (6744, 6750); (6752, 6752); (6754, 6754); (6757, 6764); (6771, 6780);
   (6783, 6783); (6823, 6823); (6832, 6862); (6912, 6915); (6964, 6964);
   (6966, 6970); (6972, 6972); (6978, 6978); (7019, 7027); (7040, 7041);
   (7074, 7077); (7080, 7081); (7083, 7085); (7142, 7142); (7144, 7145);
   (7149, 7149); (7151, 7153); (7212, 7219); (7222, 7223); (7288, 7293);
   (7376, 7378); (7380, 7392); (7394, 7400); (7405, 7405); (7412, 7412);
   (7416, 7417); (7468, 7530); (7544, 7544); (7579, 7679); (8125, 8125);
   (8127, 8129); (8141, 8143); (8157, 8159); (8173, 8175); (8189, 8190);
   (8203, 8207); (8216, 8217); (8228, 8228); (8231, 8231); (8234, 8238);
   (8288, 8292); (8294, 8303); (8305, 8305); (8319, 8319); (8336, 8348);
   (8400, 8432); (11388, 11389); (11503, 11505); (11631, 11631);
   (11647, 11647); (11744, 11775); (11823, 11823); (12293, 12293);
   (12330, 12333); (12337, 12341); (12347, 12347); (12441, 12446);
   (12540, 12542); (40981, 40981); (42232, 42237); (42508, 42508);
   (42607, 42610); (42612, 42621); (42623, 42623); (42652, 42655);
   (42736, 42737); (42752, 42785); (42864, 42864); (42888, 42890);
   (42994, 42996); (43000, 43001); (43010, 43010); (43014, 43014);
   (43019, 43019); (43045, 43046); (43052, 43052); (43204, 43205);
   (43232, 43249); (43263, 43263); (43302, 43309); (43335, 43345);
   (43392, 43394); (43443, 43443); (43446, 43449); (43452, 43453);
   (43471, 43471); (43493, 43494); (43561, 43566); (43569, 43570);
   (43573, 43574); (43587, 43587); (43596, 43596); (43632, 43632);
   (43644, 43644); (43696, 43696); (43698, 43700); (43703, 43704);
   (43710, 43711); (43713, 43713); (43741, 43741); (43756, 43757);
   (43763, 43764); (43766, 43766); (43867, 43871); (43881, 43883);
   (44005, 44005); (44008, 44008); (44013, 44013); (64286, 64286);
   (64434, 64450); (65024, 65039); (65043, 65043); (65056, 65071);
   (65106, 65106); (65109, 65109); (65279, 65279); (65287, 65287);
   (65294, 65294); (65306, 65306); (65342, 65342); (65344, 65344);
   (65392, 65392); (65438, 65439); (65507, 65507); (65529, 65531);
   (66045, 66045); (66272, 66272); (66422, 66426); (67456, 67461);
   (67463, 67504); (67506, 67514); (68097, 68099); (68101, 68102);
   (68108, 68111); (68152, 68154); (68159, 68159); (68325, 68326);
   (68900, 68903); (69291, 69292); (69446, 69456); (69506, 69509);
   (69633, 69633); (69688, 69702); (69744, 69744); (69747, 69748);
   (69759, 69761); (69811, 69814); (69817, 69818); (69821, 69821);
   (69826, 69826); (69837, 69837); (69888, 69890); (69927, 69931);
   (69933, 69940); (70003, 70003); (70016, 70017); (70070, 70078);
   (70089, 70092); (70095, 70095); (70191, 70193); (70196, 70196);
   (70198, 70199); (70206, 70206); (70367, 70367); (70371, 70378);
   (70400, 70401); (70459, 70460); (70464, 70464); (70502, 70508);
   (70512, 70516); (70712, 70719); (70722, 70724); (70726, 70726);
   (70750, 70750); (70835, 70840); (70842, 70842); (70847, 70848);
   (70850, 70851); (71090, 71093); (71100, 71101); (71103, 71104);
   (71132, 71133); (71219, 71226); (71229, 71229); (71231, 71232);
   (71339, 71339); (71341, 71341); (71344, 71349); (71351, 71351);
   (71453, 71455); (71458, 71461); (71463, 71467); (71727, 71735);
   (71737, 71738); (71995, 71996); (71998, 71998); (72003, 72003);
   (72148, 72151); (72154, 72155); (72160, 72160); (72193, 72202);
   (72243, 72248); (72251, 72254); (72263, 72263); (72273, 72278);
   (72281, 72283); (72330, 72342); (72344, 72345); (72752, 72758);
   (72760, 72765); (72767, 72767); (72850, 72871); (72874, 72880);
   (72882, 72883); (72885, 72886); (73009, 73014); (73018, 73018);
   (73020, 73021); (73023, 73029); (73031, 73031); (73104, 73105);
   (73109, 73109); (73111, 73111); (73459, 73460); (78896, 78904);
   (92912, 92916); (92976, 92982); (92992, 92995); (94031, 94031);
   (94095, 94111); (94176, 94177); (94179, 94180); (110576, 110579);
   (110581, 110587); (110589, 110590); (113821, 113822); (113824, 113827);
   (118528, 118573); (118576, 118598); (119143, 119145); (119155, 119170);
   (119173, 119179); (119210, 119213); (119362, 119364); (121344, 121398);
   (121403, 121452); (121461, 121461); (121476, 121476); (121499, 121503);
   (121505, 121519); (122880, 122886); (122888, 122904); (122907, 122913);
   (122915, 122916); (122918, 122922); (123184, 123197); (123566, 123566);
   (123628, 123631); (125136, 125142); (125252, 125259); (127995, 127999);
   (917505, 917505); (917536, 917631); (917760, 917999) ]%N.

Definition in_runs (runs : list (N * N)) (c : N) : bool :=
  existsb (fun '(first, last) => ((first <=? c) && (c <=? last))%N) runs.

Definition cased (c : N) : bool := in_runs cased_table c.
Definition case_ignorable (c : N) : bool := in_runs case_ignorable_table c.

(** The lower-case form of a code point by itself: the one of the table,
    or the two code points of the dotted capital I. *)
Definition lower_point (c : N) : list N :=
  (if c =? 304 then [105; 775]
   else
     match
       find (fun '(first, last, step, _) =>
               (first <=? c) && (c <=? last) && ((c - first) mod step =? 0))
            lowercase_table
     with
     | Some (first, _, _, lower) => [lower + (c - first)]
     | None => [c]
     end)%N.

(** No cased letter follows, once the case-ignorable points are passed. *)
Fixpoint ends_word (l : list N) : bool :=
  match l with
  | [] => true
  | c :: l' => if case_ignorable c then ends_word l' else negb (cased c)
  end.

(** The lower-case form of a text. A capital sigma becomes the final
    sigma when a cased letter stands before it and none after it, the
    case-ignorable points in between left aside; [before] says that a cased
    letter stands before. *)
Fixpoint lower_points (before : bool) (l : list N) : list N :=
  match l with
  | [] => []
  | c :: l' =>
      (if (c =? 931)%N
       then [if before && ends_word l' then 962%N else 963%N]
       else lower_point c)
      ++ lower_points (if case_ignorable c then before else cased c) l'
  end.

(** [s.toLowerCase()]. *)
Definition toLowerCase (s : string) : string :=
  of_code_points (lower_points false (code_points s)).

(** [s.startsWith(t)]. *)
Fixpoint startsWith (s t : string) {struct t} : bool :=
  match t, s with
  | EmptyString, _ => true
  | String _ _, EmptyString => false
  | String b t', String a s' => Ascii.eqb a b && startsWith s' t'
  end.

(** [s.includes(t)]: [t] occurs in [s] as a contiguous run. *)
Fixpoint includes (s t : string) : bool :=
  startsWith s t ||
  match s with
  | EmptyString => false
  | String _ s' => includes s' t
  end.

(** [s < t] and [s > t] on two Strings. The bytes are compared, which is
    the order of the code points; the engine compares UTF-16 code units,
    which is the same order but for a code point above U+FFFF against one
    from U+E000 to U+FFFF. *)
Definition str_lt (s t : string) : bool := String.ltb s t.
Definition str_gt (s t : string) : bool := String.ltb t s.

(** ** Dynamically typed field values *)

Inductive value : Type :=
  | undefined
  | null
  | VBool (b : bool)
  | VNum (x : number)
  | VStr (s : string).

(** *** StringToNumber

    The text is a [StringNumericLiteral]: optional white space around
    nothing (the value is [+0]), a signed decimal literal ([Infinity],
    digits with an optional fraction and an optional exponent) or an unsigned
    binary, octal or hexadecimal integer literal. Any other text is NaN. *)

(** [WhiteSpace] and [LineTerminator], as code points. *)
Definition is_white_space (c : N) : bool :=
  (((9 <=? c) && (c <=? 13)) || (c =? 32) || (c =? 160) || (c =? 5760) ||
   ((8192 <=? c) && (c <=? 8202)) || (c =? 8232) || (c =? 8233) ||
   (c =? 8239) || (c =? 8287) || (c =? 12288) || (c =? 65279))%N.

Fixpoint trim_start (l : list N) : list N :=
  match l with
  | c :: l' => if is_white_space c then trim_start l' else l
  | [] => []
  end.

Definition trim (l : list N) : list N :=
  rev (trim_start (rev (trim_start l))).

(** The value of a digit in the given radix. *)
Definition digit_value (radix : Z) (c : ascii) : option Z :=
  let n := code c in
  let d :=
    if (48 <=? n) && (n <=? 57) then n - 48
    else if (97 <=? n) && (n <=? 102) then n - 87
    else if (65 <=? n) && (n <=? 70) then n - 55
    else radix in
  if d <? radix then Some d else None.

(** Reads the longest run of digits: the accumulated value, the number of
    digits read and the text that is left. *)
Fixpoint read_digits (radix : Z) (l : list ascii) (acc count : Z)
  : Z * Z * list ascii :=
  match l with
  | c :: l' =>
      match digit_value radix c with
      | Some d => read_digits radix l' (radix * acc + d) (count + 1)
      | None => (acc, count, l)
      end
  | [] => (acc, count, [])
  end.

(** [ExponentPart], or nothing, up to the end of the text. *)
Definition read_exponent (l : list ascii) : option Z :=
  match l with
  | [] => Some 0
  | c :: l' =>
      if (code c =? 101) || (code c =? 69) then
        let '(neg, l'') :=
          match l' with
          | s :: r =>
              if code s =? 43 then (false, r)
              else if code s =? 45 then (true, r)
              else (false, l')
          | [] => (false, l')
          end in
        let '(v, count, rest) := read_digits 10 l'' 0 0 in
        match rest with
        | [] => if 0 <? count then Some (if neg then - v else v) else None
        | _ :: _ => None
        end
      else None
  end.

(** [StrUnsignedDecimalLiteral] with the sign read before it. *)
Definition unsigned_decimal (neg : bool) (l : list ascii) : number :=
  if String.eqb (string_of_list_ascii l) "Infinity" then S754_infinity neg
  else
    let '(int_part, int_count, rest) := read_digits 10 l 0 0 in
    let '(mantissa, frac_count, rest') :=
      match rest with
      | c :: r =>
          if code c =? 46 then read_digits 10 r int_part 0
          else (int_part, 0, rest)
      | [] => (int_part, 0, rest)
      end in
    if 0 <? int_count + frac_count then
      match read_exponent rest' with
      | Some e =>
          let e' := e - frac_count in
          if 0 <=? e' then of_ratio neg (mantissa * 10 ^ e') 1
          else of_ratio neg mantissa (10 ^ (- e'))
      | None => NaN
      end
    else NaN.

(** [NonDecimalIntegerLiteral] after its two character prefix. *)
Definition radix_integer (radix : Z) (l : list ascii) : number :=
  let '(v, count, rest) := read_digits radix l 0 0 in
  match rest with
  | [] => if 0 <? count then of_ratio false v 1 else NaN
  | _ :: _ => NaN
  end.

Definition StringToNumber (s : string) : number :=
  let text := trim (code_points s) in
  if negb (forallb (fun c => (c <? 128)%N) text) then NaN else
  match map ascii_of_N text with
  | [] => pos_zero
  | c :: l =>
      let prefixed :=
        match l with
        | p :: r =>
            if code c =? 48 then
              if (code p =? 120) || (code p =? 88)
              then Some (radix_integer 16 r)
              else if (code p =? 111) || (code p =? 79)
              then Some (radix_integer 8 r)
              else if (code p =? 98) || (code p =? 66)
              then Some (radix_integer 2 r)
              else None
            else None
        | [] => None
        end in
      match prefixed with
      | Some x => x
      | None =>
          if code c =? 43 then unsigned_decimal false l
          else if code c =? 45 then unsigned_decimal true l
          else unsigned_decimal false (c :: l)
      end
  end.

(** [Number(v)]. *)
Definition Number (v : value) : number :=
  match v with
  | undefined => NaN
  | null => pos_zero
  | VBool true => dec 1 0
  | VBool false => pos_zero
  | VNum x => x
  | VStr s => StringToNumber s
  end.

(** [v === w]: never true across two types; on Numbers it is the numeric
    equality, under which NaN differs from itself. *)
Definition strict_eq (v w : value) : bool :=
  match v, w with
  | undefined, undefined => true
  | null, null => true
  | VBool a, VBool b => Bool.eqb a b
  | VNum x, VNum y => num_eq x y
  | VStr s, VStr t => String.eqb s t
  | _, _ => false
  end.

(** [v >= x] for a Number [x]: the left side is coerced with ToNumber, as
    at most one side is a String. *)
Definition ge_number (v : value) (x : number) : bool := num_ge (Number v) x.

(** ** Arrays *)

(** [l.findIndex(p)]: the first index whose element satisfies [p], or [-1]. *)
Fixpoint findIndex_from {A : Type} (p : A -> bool) (l : list A) (i : Z) : Z :=
  match l with
  | [] => -1
  | x :: l' => if p x then i else findIndex_from p l' (i + 1)
  end.

Definition findIndex {A : Type} (p : A -> bool) (l : list A) : Z :=
  findIndex_from p l 0.

(** [[...l].sort(comparefn)]. The language fixes the order of the result
    for a consistent [comparefn]: sorted, and stable. [sort] is that order,
    computed by a stable insertion: an element moves behind a later one only
    when [comparefn] puts it strictly after that one. For a [comparefn] that
    is not consistent the language leaves the order to the engine, and
    [sort] need not be what an engine returns; [v8_sort] below is what the
    V8 engine returns on a short array. *)
Section Sort.
Context {A : Type} (comparefn : A -> A -> Z).

Fixpoint insert_sorted (x : A) (l : list A) : list A :=
  match l with
  | [] => [x]
  | y :: l' =>
      if 0 <? comparefn x y then y :: insert_sorted x l' else x :: y :: l'
  end.

Fixpoint sort (l : list A) : list A :=
  match l with
  | [] => []
  | x :: l' => insert_sorted x (sort l')
  end.
End Sort.

(** *** The sort of the V8 engine on a short array

    V8 (Chrome, Node.js) sorts by runs. On an array of fewer than 64
    elements the shortest run it accepts is the whole array: it takes the
    run that starts the array, reversed when it descends strictly, and
    places the elements after the run one by one with a binary search.
    Longer arrays are sorted by merging several runs, which is not
    followed here: [v8_sort] answers [None] for them. *)
Section EngineSort.
Context {A : Type} (comparefn : A -> A -> Z).

(** The rest of the run after its second element [previous]: the elements
    that go on descending strictly, or not descending, and what is left
    of the array. *)
Fixpoint run_end (descending : bool) (previous : A) (l : list A)
  : list A * list A :=
  match l with
  | [] => ([], [])
  | current :: l' =>
      let order := comparefn current previous in
      if (if descending then 0 <=? order else order <? 0) then ([], l)
      else
        let '(run, rest) := run_end descending current l' in
        (current :: run, rest)
  end.

Definition count_and_make_run (l : list A) : list A * list A :=
  match l with
  | elementHigh :: elementLow :: l' =>
      let descending := comparefn elementLow elementHigh <? 0 in
      let '(run, rest) := run_end descending elementLow l' in
      let run := elementHigh :: elementLow :: run in
      (if descending then reverse run else run, rest)
  | _ => (l, [])
  end.

(** The place of [pivot] in the sorted [work], searched between [left] and
    [right]; every step shortens the range, so that [right - left] steps
    are enough. *)
Fixpoint binary_search (steps : nat) (pivot : A) (work : list A)
  (left right : nat) : nat :=
  match steps with
  | O => left
  | S steps' =>
      if (left <? right)%nat then
        let mid := (left + (right - left) / 2)%nat in
        match work !! mid with
        | Some x =>
            if comparefn pivot x <? 0
            then binary_search steps' pivot work left mid
            else binary_search steps' pivot work (S mid) right
        | None => left
        end
      else left
  end.

Fixpoint binary_insertion (work rest : list A) : list A :=
  match rest with
  | [] => work
  | pivot :: rest' =>
      let left := binary_search (length work) pivot work 0 (length work) in
      binary_insertion (take left work ++ pivot :: drop left work) rest'
  end.

Definition v8_sort (l : list A) : option (list A) :=
  if (length l <? 64)%nat then
    let '(run, rest) := count_and_make_run l in
    Some (binary_insertion run rest)
  else None.
End EngineSort.

(** ** DistributionChart *)

(** One rendered row: the label, the bar's [width] in percent and the raw
    count shown beside the bar. *)
Record dist_row : Type := {
  dist_label : string;
  dist_bar_width : number;
  dist_count : number
}.

Inductive chart : Type :=
  | NoDistributionData
  | DistChart (rows : list dist_row).

(** [Math.max(...entries.map(([, v]) => v)) || 1]. *)
Definition maxCount (entries : list (string * number)) : number :=
  num_or (Math_max (map snd entries)) (dec 1 0).

(** [(count / maxCount) * 100 || 5]. *)
Definition width (count maxCount : number) : number :=
  num_or (num_mul (num_div count maxCount) (dec 100 0)) (dec 5 0).

(** [distribution] is the bucket object of the response, given by its
    entries in the order of [Object.entries]; [None] is a missing
    [distribution], for which [distribution || {}] has no entry. *)
Definition DistributionChart (distribution : option (list (string * number)))
  : chart :=
  let entries := default [] distribution in
  match entries with
  | [] => NoDistributionData
  | _ :: _ =>
      let maxCount := maxCount entries in
      DistChart
        (map (fun '(label, count) =>
                {| dist_label := label;
                   dist_bar_width := width count maxCount;
                   dist_count := count |})
             entries)
  end.

(** ** AllStudentsTable *)

(** A record of [students]: [usn] and [name] are Strings ([toLowerCase] is
    called on them as they are), [sgpa] is whatever the response holds. *)
Record student : Type := {
  usn : string;
  name : string;
  sgpa : value
}.

(** [{ ...student, rank }]. *)
Record ranked_student : Type := {
  ranked_usn : string;
  ranked_name : string;
  ranked_sgpa : value;
  rank : Z
}.

(** Equality of records is decidable. *)
Global Instance number_eq_dec : EqDecision number.
Proof.
  intros x y. unfold Decision, number in *.
  decide equality; try apply Bool.bool_dec; try apply Pos.eq_dec;
    apply Z.eq_dec.
Defined.

Global Instance value_eq_dec : EqDecision value.
Proof.
  intros v w. unfold Decision.
  decide equality; try apply Bool.bool_dec; try apply String.string_dec;
    apply number_eq_dec.
Defined.

Global Instance student_eq_dec : EqDecision student.
Proof.
  intros s t. unfold Decision.
  decide equality; try apply String.string_dec; apply value_eq_dec.
Defined.

(** The three columns [handleSort] is called with, and the two orders. *)
Inductive sort_field : Type := by_usn | by_name | by_sgpa.
Inductive sort_order : Type := asc | desc.

(** The transient state of the table. *)
Record table_state : Type := {
  sortBy : sort_field;
  sortOrder : sort_order;
  searchTerm : string
}.

(** [useState('sgpa')], [useState('desc')], [useState('')]. *)
Definition initial_state : table_state :=
  {| sortBy := by_sgpa; sortOrder := desc; searchTerm := "" |}.

Definition field_eqb (f g : sort_field) : bool :=
  match f, g with
  | by_usn, by_usn | by_name, by_name | by_sgpa, by_sgpa => true
  | _, _ => false
  end.

Definition handleSort (st : table_state) (field : sort_field) : table_state :=
  if field_eqb (sortBy st) field then
    {| sortBy := sortBy st;
       sortOrder := match sortOrder st with asc => desc | desc => asc end;
       searchTerm := searchTerm st |}
  else
    {| sortBy := field; sortOrder := desc; searchTerm := searchTerm st |}.

(** The predicate of [students.filter]. *)
Definition matches (searchTerm : string) (s : student) : bool :=
  includes (toLowerCase (usn s)) (toLowerCase searchTerm) ||
  includes (toLowerCase (name s)) (toLowerCase searchTerm).

Definition filtered (searchTerm : string) (students : list student)
  : list student :=
  List.filter (matches searchTerm) students.

(** The last statement of the comparator, on the two coerced keys:
    [lt] is [aVal < bVal] and [gt] is [aVal > bVal]. *)
Definition order_result (o : sort_order) (lt gt : bool) : Z :=
  match o with
  | asc => if gt then 1 else if lt then -1 else 0
  | desc => if lt then 1 else if gt then -1 else 0
  end.

(** The comparator given to [sort]. For [sgpa] the keys are coerced with
    [Number]; for [usn] and [name] they are lower-cased Strings ([String(v)]
    is [v] itself on a String). *)
Definition comparator (field : sort_field) (o : sort_order) (a b : student)
  : Z :=
  match field with
  | by_sgpa =>
      let aVal := Number (sgpa a) in
      let bVal := Number (sgpa b) in
      order_result o (num_lt aVal bVal) (num_gt aVal bVal)
  | by_usn =>
      let aVal := toLowerCase (usn a) in
      let bVal := toLowerCase (usn b) in
      order_result o (str_lt aVal bVal) (str_gt aVal bVal)
  | by_name =>
      let aVal := toLowerCase (name a) in
      let bVal := toLowerCase (name b) in
      order_result o (str_lt aVal bVal) (str_gt aVal bVal)
  end.

Definition sorted (field : sort_field) (o : sort_order) (l : list student)
  : list student :=
  sort (comparator field o) l.

(** [index > 0 && sorted[index - 1].sgpa === student.sgpa]. *)
Definition tied_with_previous (sorted : list student) (index : nat)
  (s : student) : bool :=
  match index with
  | O => false
  | S i =>
      match sorted !! i with
      | Some prev => strict_eq (sgpa prev) (sgpa s)
      | None => false
      end
  end.

(** The rank given to [student] at [index] of [sorted]. *)
Definition rank_at (sorted : list student) (index : nat) (s : student) : Z :=
  if tied_with_previous sorted index s then
    let firstWithSameSGPA :=
      findIndex (fun s' => strict_eq (sgpa s') (sgpa s)) sorted in
    firstWithSameSGPA + 1
  else Z.of_nat index + 1.

Definition rankedStudents (sorted : list student) : list ranked_student :=
  imap (fun index s =>
          {| ranked_usn := usn s;
             ranked_name := name s;
             ranked_sgpa := sgpa s;
             rank := rank_at sorted index s |})
       sorted.

Definition getSGPAColor (sgpa : value) : string :=
  if ge_number sgpa (dec 90 (-1)) then "sgpa-excellent"
  else if ge_number sgpa (dec 80 (-1)) then "sgpa-great"
  else if ge_number sgpa (dec 70 (-1)) then "sgpa-good"
  else if ge_number sgpa (dec 60 (-1)) then "sgpa-average"
  else "sgpa-low".

(** What the component shows: the empty notice, or the ranked rows. *)
Inductive table : Type :=
  | NoStudentsFound
  | StudentsTable (rows : list ranked_student).

Definition AllStudentsTable (st : table_state) (students : list student)
  : table :=
  match students with
  | [] => NoStudentsFound
  | _ :: _ =>
      StudentsTable
        (rankedStudents
           (sorted (sortBy st) (sortOrder st)
              (filtered (searchTerm st) students)))
  end.

(** *** Cells of a table row *)

(** [getPDFUrl(usn)]: the identifier at the end of the fixed address. *)
Definition pdf_url_prefix : string :=
  "http://14.99.184.178:8080/birt/frameset?__report=mydsi/exam/Exam_Result_Sheet_dsce.rptdesign&__format=pdf&USN=".

Definition getPDFUrl (usn : string) : string :=
  String.append pdf_url_prefix usn.

(** What [getRankDisplay] returns: a text with a medal, or the rank as the
    Number it is. *)
Inductive rank_display : Type :=
  | RankText (text : string)
  | RankNumber (rank : Z).

Definition getRankDisplay (rank : Z) : rank_display :=
  if rank =? 1 then RankText "🥇 1"
  else if rank =? 2 then RankText "🥈 2"
  else if rank =? 3 then RankText "🥉 3"
  else RankNumber rank.

(** One [<tr>] of the table body. *)
Record table_row : Type := {
  row_class : string;
  row_special : bool;
  rank_cell : rank_display;
  usn_cell : string;
  name_cell : string;
  name_href : string;
  sgpa_cell : value;
  sgpa_class : string
}.

Definition special_usn : string := "1DS23ET057".

Definition render_row (idx : nat) (s : ranked_student) : table_row :=
  {| row_class := if Nat.even idx then "even-row" else "odd-row";
     row_special := String.eqb (ranked_usn s) special_usn;
     rank_cell := getRankDisplay (rank s);
     usn_cell := ranked_usn s;
     name_cell := ranked_name s;
     name_href := getPDFUrl (ranked_usn s);
     sgpa_cell := ranked_sgpa s;
     sgpa_class := getSGPAColor (ranked_sgpa s) |}.

(** The table body, and the two numbers of "Showing n of m students", as
    they are rendered once the component is past its notice for a list
    without records. *)
Definition table_body (st : table_state) (students : list student)
  : list table_row :=
  imap render_row
    (rankedStudents
       (sorted (sortBy st) (sortOrder st)
          (filtered (searchTerm st) students))).

Definition table_info (st : table_state) (students : list student)
  : nat * nat :=
  (length (sorted (sortBy st) (sortOrder st)
             (filtered (searchTerm st) students)),
   length students).

(** ** PerformerList *)

Inductive performer_list : Type :=
  | NoPerformers
  | Performers (rows : list (string * string * value)).

(** [items] is [None] when the response has no such list. *)
Definition PerformerList (items : option (list student)) : performer_list :=
  match default [] items with
  | [] => NoPerformers
  | l => Performers (map (fun s => (usn s, name s, sgpa s)) l)
  end.

(** ** Values of the response and of the page state *)

(** ToBoolean on a field value. *)
Definition truthy_value (v : value) : bool :=
  match v with
  | undefined | null => false
  | VBool b => b
  | VNum x => truthy x
  | VStr s => negb (String.eqb s "")
  end.

(** [v ?? w]. *)
Definition nullish_or (v w : value) : value :=
  match v with
  | undefined | null => w
  | _ => v
  end.

(** [m || d] for a text [m] that may be missing. *)
Definition text_or (m : option string) (d : string) : string :=
  match m with
  | Some s => if String.eqb s "" then d else s
  | None => d
  end.

(** An HTTP status code in a template literal: its decimal digits. *)
Definition status_text (status : N) : string :=
  NilEmpty.string_of_uint (N.to_uint status).

(** ** HealthPage *)

Module HealthPage.

Record state : Type := {
  status : value;
  loading : bool;
  error : option string
}.

(** [useState(null)], [useState(false)], [useState(null)]. *)
Definition initial : state :=
  {| status := null; loading := false; error := None |}.

(** The ways through the [try] block of [fetchHealth]: an awaited call or
    a property access throws [err] (with [err.message], if it has one), the
    response is not ok, or the body is read and [data.status] is taken. *)
Inductive outcome : Type :=
  | Threw (message : option string)
  | NotOk (res_status : N)
  | Data (data_status : value).

(** The [catch] block. *)
Definition caught (message : option string) (st : state) : state :=
  {| status := null;
     loading := loading st;
     error := Some (text_or message "Failed to reach backend") |}.

(** The state once [fetchHealth] has run to the end of its [finally]. *)
Definition fetchHealth (st : state) (o : outcome) : state :=
  let st := {| status := status st; loading := true; error := None |} in
  let st :=
    match o with
    | Threw message => caught message st
    | NotOk res_status =>
        caught (Some (String.append "Status " (status_text res_status))) st
    | Data data_status =>
        {| status := nullish_or data_status (VStr "unknown");
           loading := loading st;
           error := error st |}
    end in
  {| status := status st; loading := false; error := error st |}.

Definition statusClass (st : state) : string :=
  if strict_eq (status st) (VStr "ok") then "pill pill-success"
  else if truthy_value (status st) then "pill pill-warn"
  else "".

(** What the card shows. *)
Record view : Type := {
  checking : bool;
  status_pill : option (string * value);
  error_pill : bool;
  button_disabled : bool;
  button_label : string;
  error_text : option string
}.

Definition render (st : state) : view :=
  {| checking := loading st;
     status_pill :=
       if negb (loading st) && truthy_value (status st)
       then Some (statusClass st, status st) else None;
     error_pill :=
       negb (loading st) &&
       match error st with
       | Some m => negb (String.eqb m "")
       | None => false
       end;
     button_disabled := loading st;
     button_label := if loading st then "Checking..." else "Refresh";
     error_text :=
       match error st with
       | Some m => if String.eqb m "" then None else Some m
       | None => None
       end |}.

End HealthPage.

(** ** AnalyzeResultsPage *)

Module AnalyzeResultsPage.

(** The [summary] of a response: scalars that are shown as they are, and
    the bucket map of the chart. *)
Record percentiles : Type := {
  p25 : value;
  p50 : value;
  p75 : value
}.

Record summary : Type := {
  total_students : value;
  average_sgpa : value;
  median_sgpa : value;
  std_dev_sgpa : value;
  min_sgpa : value;
  max_sgpa : value;
  percentiles_of : percentiles;
  distribution : option (list (string * number))
}.

(** The body of a response; a list is [None] when the body has none. *)
Record analysis : Type := {
  summary_of : summary;
  top_performers : option (list student);
  lowest_performers : option (list student);
  results : option (list student)
}.

Record state : Type := {
  dept : string;
  year : string;
  delaySeconds : value;
  loading : bool;
  error : option string;
  data : option analysis
}.

(** [useState('CS')], [useState('23')], [useState(1)] and the three
    request states. *)
Definition initial : state :=
  {| dept := "CS"; year := "23"; delaySeconds := VNum (dec 1 0);
     loading := false; error := None; data := None |}.


(** The ways through the [try] block of [handleSubmit]: an awaited call
    throws [err], the response is not ok and its text is read, or the body
    is read ([None] is the body [null]). *)
Inductive outcome : Type :=
  | Threw (message : option string)
  | NotOk (res_status : N) (text statusText : string)
  | Json (json : option analysis).



Definition with_request (st : state) (l : bool) (e : option string)
  (d : option analysis) : state :=
  {| dept := dept st; year := year st; delaySeconds := delaySeconds st;
     loading := l; error := e; data := d |}.

(** The [catch] block. *)
Definition caught (message : option string) (st : state) : state :=
  with_request st (loading st)
    (Some (text_or message "Failed to fetch analytics")) (data st).


(** The cards of the results column for a response. *)
Record results_view : Type := {
  chart_card : chart;
  top_card : performer_list;
  lowest_card : performer_list;
  all_students_count : nat;
  all_students_card : table
}.

Inductive results_column : Type :=
  | Nothing
  | EmptyState
  | Results (cards : results_view).

(** The results column; [table_st] is the state of the table inside it. *)
Definition render_results (table_st : table_state) (st : state)
  : results_column :=
  match data st with
  | Some d =>
      Results
        {| chart_card := DistributionChart (distribution (summary_of d));
           top_card := PerformerList (top_performers d);
           lowest_card := PerformerList (lowest_performers d);
           all_students_count := length (default [] (results d));
           all_students_card :=
             AllStudentsTable table_st (default [] (results d)) |}
  | None => if loading st then Nothing else EmptyState
  end.


End AnalyzeResultsPage.

(** ** Statement vocabulary *)

(** A text of ASCII characters only. *)
Fixpoint ascii_only (s : string) : bool :=
  match s with
  | EmptyString => true
  | String c s' => (code c <? 128) && ascii_only s'
  end.

Definition is_capital (c : ascii) : bool := (65 <=? code c) && (code c <=? 90).

(** The same character, or the same letter of [A] to [Z] in its two
    cases. *)
Definition same_letter (c d : ascii) : bool :=
  Ascii.eqb c d ||
  (is_capital c && (code d =? code c + 32)) ||
  (is_capital d && (code c =? code d + 32)).

(** Two texts of the same length with the same letter at every place. *)
Fixpoint eq_ignoring_case (s t : string) : bool :=
  match s, t with
  | EmptyString, EmptyString => true
  | String c s', String d t' => same_letter c d && eq_ignoring_case s' t'
  | _, _ => false
  end.

(** [q] occurs in [s] when letter case is ignored: some contiguous run of
    [s] is [q] up to the case of its letters. *)
Definition occurs_ignoring_case (q s : string) : Prop :=
  exists pre mid post : string,
    s = String.append pre (String.append mid post) /\
    eq_ignoring_case mid q = true.

(** The lower-case form of a text of ASCII characters, character by
    character. *)
Definition lower_char (c : ascii) : ascii :=
  if is_capital c then ascii_of_N (N_of_ascii c + 32) else c.

Fixpoint ascii_lower (s : string) : string :=
  match s with
  | EmptyString => EmptyString
  | String c s' => String (lower_char c) (ascii_lower s')
  end.

(** Every character, for a check by cases. *)
Definition all_ascii : list ascii := map ascii_of_nat (seq 0 256).

(** The ranks shown, row by row. *)
Definition ranks (rows : list ranked_student) : list Z := map rank rows.


(** [j] is the first index of [l] whose score is strictly equal to [v]. *)
Definition first_index_with_score (l : list student) (v : value) (j : nat)
  : Prop :=
  (exists sj, l !! j = Some sj /\ strict_eq (sgpa sj) v = true) /\
  (forall k sk, (k < j)%nat -> l !! k = Some sk ->
     strict_eq (sgpa sk) v = false).

(** A ranked record without its rank. *)
Definition without_rank (r : ranked_student) : student :=
  {| usn := ranked_usn r; name := ranked_name r; sgpa := ranked_sgpa r |}.

(** The place of a Number other than NaN in the numeric order. *)
Definition order_key (x : number) : Z * Z * Z :=
  match x with
  | S754_zero _ | S754_nan => (0, 0, 0)
  | S754_infinity false => (2, 0, 0)
  | S754_infinity true => (-2, 0, 0)
  | S754_finite false m e => (1, e, Zpos m)
  | S754_finite true m e => (-1, - e, Zneg m)
  end.

Definition key_lt (k k' : Z * Z * Z) : Prop :=
  match k, k' with
  | (a, b, c), (a', b', c') =>
      a < a' \/ (a = a' /\ (b < b' \/ (b = b' /\ c < c')))
  end.

(** The style class that stands for a tier. *)
Definition tier_class (tier : string) : string := String.append "sgpa-" tier.

(** In [l'] any two records that compare equal are in the order they have
    in [l]. *)
Definition keeps_tied_order {A : Type} `{EqDecision A} (cmp : A -> A -> Z)
  (l l' : list A) : Prop :=
  forall a b : A,
    cmp a b = 0 ->
    filter (fun s => s = a \/ s = b) l' = filter (fun s => s = a \/ s = b) l.

(** [l'] holds the records of [l] with every class of mutually tied records
    in its input order. *)
Definition stable_for {A : Type} (cmp : A -> A -> Z) (l l' : list A) : Prop :=
  forall (P : A -> Prop) (dec : forall x, Decision (P x)),
    (forall x y, P x -> P y -> cmp x y <= 0) ->
    filter P l' = filter P l.

(** The records of the domain [D] that are tied with [x]. *)
Definition tied_class {A : Type} (cmp : A -> A -> Z) (D : A -> Prop)
  (x y : A) : Prop :=
  D y /\ cmp x y <= 0 /\ cmp y x <= 0.

Global Instance tied_class_dec {A : Type} (cmp : A -> A -> Z) (D : A -> Prop)
  `{!forall x, Decision (D x)} (x y : A) : Decision (tied_class cmp D x y).
Proof. unfold tied_class. apply _. Defined.

(** The score of [s] coerces to a Number. *)
Definition coercible (s : student) : bool := negb (isNaN (Number (sgpa s))).

(** The records on which the comparator of a column is consistent: all of
    them for a text column, those whose score coerces for the score. *)
Definition sortable (field : sort_field) (s : student) : bool :=
  match field with
  | by_sgpa => coercible s
  | by_usn | by_name => true
  end.

(** Every record whose score does not coerce is before, or after, every
    record whose score does. *)
Definition uncoercible_first (l : list student) : Prop :=
  forall (i j : nat) (a b : student),
    l !! i = Some a -> l !! j = Some b ->
    coercible a = false -> coercible b = true -> (i < j)%nat.

Definition uncoercible_last (l : list student) : Prop :=
  forall (i j : nat) (a b : student),
    l !! i = Some a -> l !! j = Some b ->
    coercible a = false -> coercible b = true -> (j < i)%nat.

Definition at_one_extreme (l : list student) : Prop :=
  uncoercible_first l \/ uncoercible_last l.

(** The score of [s] is a Number other than NaN. *)
Definition numeric_score (s : student) : Prop :=
  exists x : number, sgpa s = VNum x /\ isNaN x = false.

Definition score_key (s : student) : Z * Z * Z := order_key (Number (sgpa s)).

Definition starts_at_one (l : list Z) : Prop :=
  forall x : Z, l !! O = Some x -> x = 1.

Definition nondecreasing (l : list Z) : Prop :=
  forall (i : nat) (x y : Z), l !! i = Some x -> l !! S i = Some y -> x <= y.

(** The ranks of the table, for a state and a record list. *)
Definition shown_ranks (st : table_state) (students : list student) : list Z :=
  ranks (rankedStudents
           (sorted (sortBy st) (sortOrder st)
              (filtered (searchTerm st) students))).

(** Every bar of the chart has its width between [lo] and [hi]. *)
Definition widths_within (lo hi : number) (c : chart) : Prop :=
  match c with
  | NoDistributionData => True
  | DistChart rows =>
      Forall (fun r => num_ge (dist_bar_width r) lo = true /\
                       num_ge hi (dist_bar_width r) = true) rows
  end.

(** *** Rounding

    The parts of a rounding step: whether a shifted mantissa still holds
    the value exactly, and the state reached after [n] halvings. *)

Definition shr_exact (mrs : shr_record) : bool :=
  negb (shr_r mrs) && negb (shr_s mrs).

Definition loc_exact (l : location) : bool :=
  match l with loc_Exact => true | _ => false end.

(** The state after [n] halvings of [mrs0]. *)
Definition shifted (mrs0 : shr_record) (n : Z) (mrs : shr_record) : Prop :=
  shr_m mrs = shr_m mrs0 / 2 ^ n /\
  shr_exact mrs = shr_exact mrs0 && (shr_m mrs0 mod 2 ^ n =? 0).

Definition one_hundred : number := S754_finite false 7036874417766400 (-46).

(** A count of whole records: zero, or a well-formed finite Number from 1
    up. *)
Definition whole_count (c : number) : bool :=
  match c with
  | S754_zero _ => true
  | S754_finite false _ _ => valid_binary prec emax c && num_ge c (dec 1 0)
  | _ => false
  end.

(** The width of a bar under the greatest count [M]: the proportion
    of [M] in percent, or 5 for an empty bucket. *)
Definition chart_width (count M : number) : number :=
  if truthy count then num_mul (num_div count M) (dec 100 0) else dec 5 0.


(** *** Rows, ranks and requests *)

(** The records of the table body, in the order of the rows. *)
Definition shown (st : table_state) (students : list student) : list student :=
  sorted (sortBy st) (sortOrder st) (filtered (searchTerm st) students).

(** [t] has a strictly better score than [s] for the direction [o]: a
    higher one when the best come first, a lower one otherwise. *)
Definition outranks (o : sort_order) (t s : student) : bool :=
  match o with
  | desc => num_gt (Number (sgpa t)) (Number (sgpa s))
  | asc => num_lt (Number (sgpa t)) (Number (sgpa s))
  end.

(** The number of records of [l] with a strictly better score than [s]. *)
Definition better_scores (o : sort_order) (l : list student) (s : student)
  : Z :=
  Z.of_nat (length (List.filter (fun t => outranks o t s) l)).

(** No two records of [l] are tied under the comparator of a column. *)
Definition no_ties (field : sort_field) (o : sort_order) (l : list student)
  : Prop :=
  forall (i j : nat) (a b : student),
    l !! i = Some a -> l !! j = Some b -> i <> j ->
    comparator field o a b <> 0.

(** The three texts with a medal. *)
Definition medal_texts : list rank_display :=
  [RankText "🥇 1"; RankText "🥈 2"; RankText "🥉 3"].

(** The place of a style class among the tiers, from the lowest. *)
Definition tier_level (class : string) : Z :=
  if String.eqb class "sgpa-excellent" then 4
  else if String.eqb class "sgpa-great" then 3
  else if String.eqb class "sgpa-good" then 2
  else if String.eqb class "sgpa-average" then 1
  else 0.


(** A request of the health page failed: it threw, or the response was
    not ok. *)
Definition health_failed (o : HealthPage.outcome) : bool :=
  match o with
  | HealthPage.Data _ => false
  | _ => true
  end.

(** A request of the analysis page failed. *)
Definition analysis_failed (o : AnalyzeResultsPage.outcome) : bool :=
  match o with
  | AnalyzeResultsPage.Json _ => false
  | _ => true
  end.


(** *** Sample data *)

Definition student_of (u n : string) (g : value) : student :=
  {| usn := u; name := n; sgpa := g |}.

(** Two records without a usable score around one with a score. *)
Definition absent_scores : list student :=
  [student_of "1DS23CS001" "Asha" (VStr "N/A");
   student_of "1DS23CS002" "Bela" (VNum (dec 80 (-1)));
   student_of "1DS23CS003" "Chand" undefined].

(** Names in an order that differs from the order of the scores. *)
Definition by_name_sample : list student :=
  [student_of "1DS23CS001" "Dev" (VNum (dec 90 (-1)));
   student_of "1DS23CS002" "Bela" (VNum (dec 80 (-1)));
   student_of "1DS23CS003" "Chand" (VNum (dec 90 (-1)));
   student_of "1DS23CS004" "Asha" (VNum (dec 90 (-1)))].

(** Three scores and a text that is no score. *)
Definition seven : student := student_of "M1" "Asha" (VNum (dec 7 0)).
Definition eight : student := student_of "M2" "Bela" (VNum (dec 8 0)).
Definition unscored : student := student_of "M3" "Chand" (VStr "N/A").
Definition nine : student := student_of "M4" "Dev" (VNum (dec 9 0)).
Definition mixed_scores : list student := [seven; eight; unscored; nine].

(** A name that ends in a capital sigma. *)
Definition nikos : student :=
  student_of "1DS23CS009" "ΝΙΚΟΣ" (VNum (dec 80 (-1))).

(** One score written in two ways. *)
Definition long_score : student :=
  student_of "1DS23CS001" "Asha" (VStr "9.50").
Definition short_score : student :=
  student_of "1DS23CS002" "Bela" (VStr "9.5").

(** The scenario of three records, two of them tied at the top. *)
Definition alice : student := student_of "X1" "Alice" (VNum (dec 95 (-1))).
Definition bob : student := student_of "X2" "Bob" (VNum (dec 95 (-1))).
Definition cara : student := student_of "X3" "Cara" (VNum (dec 72 (-1))).

Definition one_in_hundred : list (string * number) :=
  [("A"%string, dec 1 0); ("B"%string, dec 100 0)].

Definition three_buckets : list (string * number) :=
  [("A"%string, dec 0 0); ("B"%string, dec 4 0); ("C"%string, dec 2 0)].

(** A page that holds the response for two records. *)
Definition sample_summary : AnalyzeResultsPage.summary :=
  {| AnalyzeResultsPage.total_students := VNum (dec 2 0);
     AnalyzeResultsPage.average_sgpa := VNum (dec 835 (-2));
     AnalyzeResultsPage.median_sgpa := VNum (dec 835 (-2));
     AnalyzeResultsPage.std_dev_sgpa := VNum (dec 115 (-2));
     AnalyzeResultsPage.min_sgpa := VNum (dec 72 (-1));
     AnalyzeResultsPage.max_sgpa := VNum (dec 95 (-1));
     AnalyzeResultsPage.percentiles_of :=
       {| AnalyzeResultsPage.p25 := VNum (dec 72 (-1));
          AnalyzeResultsPage.p50 := VNum (dec 835 (-2));
          AnalyzeResultsPage.p75 := VNum (dec 95 (-1)) |};
     AnalyzeResultsPage.distribution := Some three_buckets |}.

Definition sample_page : AnalyzeResultsPage.state :=
  AnalyzeResultsPage.with_request AnalyzeResultsPage.initial false None
    (Some {| AnalyzeResultsPage.summary_of := sample_summary;
             AnalyzeResultsPage.top_performers := Some [alice];
             AnalyzeResultsPage.lowest_performers := Some [cara];
             AnalyzeResultsPage.results := Some [cara; alice] |}).

(** * Properties *)

(** ** Strings *)

Lemma startsWith_spec (s t : string) :
  startsWith s t = true <-> exists post, s = String.append t post.
Proof.
  revert s; induction t as [|b t IH]; intros s; simpl.
  - split; [intros _; exists s; reflexivity | reflexivity].
  - destruct s as [|a s]; simpl.
    + split; [discriminate | intros [post H]; discriminate].
    + rewrite andb_true_iff, Ascii.eqb_eq, IH. split.
      * intros [-> [post ->]]. exists post; reflexivity.
      * intros [post H]. injection H as -> ->. split; [reflexivity | eauto].
Qed.

Lemma includes_spec (s t : string) :
  includes s t = true <->
  exists pre post, s = String.append pre (String.append t post).
Proof.
  induction s as [|a s IH]; simpl.
  - rewrite orb_false_r, startsWith_spec. split.
    + intros [post H]. exists EmptyString, post. exact H.
    + intros [pre [post H]]. destruct pre; simpl in H; [eauto | discriminate].
  - rewrite orb_true_iff, IH, startsWith_spec. split.
    + intros [[post H] | [pre [post H]]].
      * exists EmptyString, post. exact H.
      * exists (String a pre), post. simpl. rewrite H. reflexivity.
    + intros [pre [post H]]. destruct pre as [|c pre]; simpl in H.
      * left. eauto.
      * right. injection H as -> ->. eauto.
Qed.

Lemma includes_empty (s : string) : includes s EmptyString = true.
Proof. destruct s; reflexivity. Qed.

Lemma ascii_lower_append (s t : string) :
  ascii_lower (String.append s t) =
  String.append (ascii_lower s) (ascii_lower t).
Proof. induction s as [|c s IH]; simpl; [|rewrite IH]; reflexivity. Qed.

(** A split of the lower-case form comes from a split of the string. *)
Lemma ascii_lower_split (s x y : string) :
  ascii_lower s = String.append x y ->
  exists a b, s = String.append a b /\ ascii_lower a = x /\ ascii_lower b = y.
Proof.
  revert x; induction s as [|c s IH]; intros x H; simpl in H.
  - destruct x; [|discriminate]. simpl in H. subst y.
    exists EmptyString, EmptyString. repeat split.
  - destruct x as [|d x]; simpl in H.
    + exists EmptyString, (String c s). subst y. repeat split.
    + injection H as Hc Hs. destruct (IH _ Hs) as (a & b & -> & Ha & Hb).
      exists (String c a), b. simpl. rewrite Ha, Hc. repeat split. exact Hb.
Qed.

Lemma In_all_ascii (c : ascii) : In c all_ascii.
Proof.
  unfold all_ascii. rewrite <- (ascii_nat_embedding c). apply in_map.
  apply in_seq. pose proof (nat_ascii_bounded c). lia.
Qed.

(** Two characters have the same lower-case form exactly when they are the
    same letter. *)
Lemma lower_char_same (c d : ascii) :
  lower_char c = lower_char d <-> same_letter c d = true.
Proof.
  assert (T : forallb (fun c =>
                forallb (fun d =>
                  Bool.eqb (Ascii.eqb (lower_char c) (lower_char d))
                           (same_letter c d)) all_ascii) all_ascii = true)
    by (vm_compute; reflexivity).
  rewrite forallb_forall in T. pose proof (T c (In_all_ascii c)) as Tc.
  rewrite forallb_forall in Tc. pose proof (Tc d (In_all_ascii d)) as E.
  apply Bool.eqb_prop in E. rewrite <- E. symmetry. apply Ascii.eqb_eq.
Qed.

Lemma ascii_lower_eq (s t : string) :
  ascii_lower s = ascii_lower t <-> eq_ignoring_case s t = true.
Proof.
  revert t; induction s as [|c s IH]; intros [|d t]; simpl;
    try (split; [discriminate | discriminate]); [tauto|].
  rewrite andb_true_iff, <- IH, <- lower_char_same. split.
  - intros H. injection H as -> ->. split; reflexivity.
  - intros [-> ->]. reflexivity.
Qed.

Lemma includes_ascii_lower (s q : string) :
  includes (ascii_lower s) (ascii_lower q) = true <->
  occurs_ignoring_case q s.
Proof.
  rewrite includes_spec. unfold occurs_ignoring_case. split.
  - intros (x & y & H).
    destruct (ascii_lower_split _ _ _ H) as (pre & r & -> & <- & Hr).
    destruct (ascii_lower_split _ _ _ Hr) as (mid & post & -> & Hm & <-).
    exists pre, mid, post. split; [reflexivity|].
    apply ascii_lower_eq, Hm.
  - intros (pre & mid & post & -> & Hm). apply ascii_lower_eq in Hm.
    exists (ascii_lower pre), (ascii_lower post).
    rewrite !ascii_lower_append, Hm. reflexivity.
Qed.

(** *** The case mapping on ASCII text *)

Lemma lower_point_ascii (c : N) :
  (c < 128)%N ->
  c <> 931%N /\
  lower_point c =
    [if ((65 <=? c) && (c <=? 90))%N then (c + 32)%N else c] /\
  utf8 c = [c] /\
  utf8 (if ((65 <=? c) && (c <=? 90))%N then (c + 32)%N else c) =
    [if ((65 <=? c) && (c <=? 90))%N then (c + 32)%N else c].
Proof.
  intros H.
  assert (T : forallb (fun c =>
                negb (c =? 931)%N &&
                bool_decide
                  (lower_point c =
                   [if ((65 <=? c) && (c <=? 90))%N then (c + 32)%N else c]) &&
                bool_decide (utf8 c = [c]) &&
                bool_decide
                  (utf8 (if ((65 <=? c) && (c <=? 90))%N
                         then (c + 32)%N else c) =
                   [if ((65 <=? c) && (c <=? 90))%N then (c + 32)%N else c]))
              (map N.of_nat (seq 0 128)) = true)
    by (vm_compute; reflexivity).
  rewrite forallb_forall in T.
  assert (I : In c (map N.of_nat (seq 0 128))).
  { rewrite <- (N2Nat.id c). apply in_map, in_seq. lia. }
  apply T in I. rewrite !andb_true_iff, negb_true_iff, N.eqb_neq in I.
  destruct I as [[[I1 I2] I3] I4].
  apply bool_decide_eq_true in I2, I3, I4. auto.
Qed.

Lemma lower_char_code (c : ascii) :
  lower_char c =
  ascii_of_N (if ((65 <=? N_of_ascii c) && (N_of_ascii c <=? 90))%N
              then (N_of_ascii c + 32)%N else N_of_ascii c).
Proof.
  unfold lower_char, is_capital, code.
  replace (65 <=? Z.of_N (N_of_ascii c)) with (65 <=? N_of_ascii c)%N
    by (apply eq_true_iff_eq; rewrite Z.leb_le, N.leb_le; lia).
  replace (Z.of_N (N_of_ascii c) <=? 90) with (N_of_ascii c <=? 90)%N
    by (apply eq_true_iff_eq; rewrite Z.leb_le, N.leb_le; lia).
  destruct ((65 <=? N_of_ascii c) && (N_of_ascii c <=? 90))%N;
    [reflexivity | rewrite ascii_N_embedding; reflexivity].
Qed.

(** On a text of ASCII characters the case mapping of the language is the
    one of the letters [A] to [Z], whatever stands before the text. *)
Lemma lower_points_ascii (s : string) (before : bool) :
  ascii_only s = true ->
  of_code_points (lower_points before (code_points s)) = ascii_lower s.
Proof.
  revert before. induction s as [|c s IH]; intros before H; [reflexivity|].
  simpl in H. apply andb_true_iff in H as [Hc Hs].
  assert (Hb : (N_of_ascii c < 128)%N).
  { unfold code in Hc. apply Z.ltb_lt in Hc. lia. }
  destruct (lower_point_ascii _ Hb) as (Hsig & Hl & _ & Hu).
  cbn [code_points]. rewrite (proj2 (N.ltb_lt _ _) Hb).
  cbn [lower_points]. rewrite (proj2 (N.eqb_neq _ _) Hsig), Hl.
  set (before' := if case_ignorable (N_of_ascii c) then before
                  else cased (N_of_ascii c)).
  cbn [ascii_lower]. rewrite lower_char_code, <- (IH before' Hs).
  unfold of_code_points. cbn [app map concat]. rewrite Hu. reflexivity.
Qed.

Lemma toLowerCase_ascii (s : string) :
  ascii_only s = true -> toLowerCase s = ascii_lower s.
Proof. apply lower_points_ascii. Qed.

Lemma includes_ignoring_case (s q : string) :
  ascii_only s = true -> ascii_only q = true ->
  (includes (toLowerCase s) (toLowerCase q) = true <->
   occurs_ignoring_case q s).
Proof.
  intros Hs Hq. rewrite (toLowerCase_ascii s Hs), (toLowerCase_ascii q Hq).
  apply includes_ascii_lower.
Qed.

Lemma matches_spec (q : string) (s : student) :
  ascii_only q = true -> ascii_only (usn s) = true ->
  ascii_only (name s) = true ->
  (matches q s = true <->
   occurs_ignoring_case q (usn s) \/ occurs_ignoring_case q (name s)).
Proof.
  intros Hq Hu Hn. unfold matches.
  rewrite orb_true_iff, (includes_ignoring_case _ _ Hu Hq),
    (includes_ignoring_case _ _ Hn Hq). tauto.
Qed.

Lemma matches_empty (s : student) : matches "" s = true.
Proof.
  unfold matches. change (toLowerCase "") with EmptyString.
  rewrite includes_empty. reflexivity.
Qed.

(** ** SearchFilter *)

Lemma filter_sublist {A : Type} (p : A -> bool) (l : list A) :
  sublist (List.filter p l) l.
Proof.
  induction l as [|x l IH]; simpl; [constructor|].
  destruct (p x); constructor; exact IH.
Qed.

Lemma filter_all {A : Type} (p : A -> bool) (l : list A) :
  (forall x, p x = true) -> List.filter p l = l.
Proof.
  intros H. induction l as [|x l IH]; simpl; [reflexivity|].
  rewrite H, IH. reflexivity.
Qed.

(** The claim of C5 as it is written fails on the code. The name of
    [nikos] holds the query, a capital sigma, as it is; the lower-case form
    of the name ends in the final sigma, the lower-case form of the query
    is the other small sigma, and the record is dropped. *)
Lemma final_sigma_not_found :
  ~ (In nikos (filtered "Σ" [nikos]) <->
     In nikos [nikos] /\
     (occurs_ignoring_case "Σ" (usn nikos) \/
      occurs_ignoring_case "Σ" (name nikos))).
Proof.
  intros [_ H].
  assert (K : In nikos (filtered "Σ" [nikos])).
  { apply H. split; [left; reflexivity|]. right.
    exists "ΝΙΚΟ"%string, "Σ"%string, ""%string.
    split; vm_compute; reflexivity. }
  vm_compute in K. exact K.
Qed.

(** C5, amended. The filter output is a subsequence of the record list, in
    the list's order; a record of the list is in the output exactly when
    the lower-case form of the query occurs in the lower-case form of its
    usn or of its name; when the query, the usn and the name are ASCII
    text, that is exactly when the query occurs, letter case ignored, in
    the usn or in the name; and the empty query keeps the whole list. *)
Theorem filtered_spec (R : list student) (q : string) :
  sublist (filtered q R) R /\
  (forall s : student,
     In s (filtered q R) <->
     In s R /\
     (includes (toLowerCase (usn s)) (toLowerCase q) = true \/
      includes (toLowerCase (name s)) (toLowerCase q) = true)) /\
  (forall s : student,
     ascii_only q = true -> ascii_only (usn s) = true ->
     ascii_only (name s) = true ->
     (In s (filtered q R) <->
      In s R /\
      (occurs_ignoring_case q (usn s) \/ occurs_ignoring_case q (name s)))) /\
  filtered "" R = R.
Proof.
  unfold filtered. split; [apply filter_sublist | split; [|split]].
  - intros s. rewrite filter_In. unfold matches. rewrite orb_true_iff.
    reflexivity.
  - intros s Hq Hu Hn. rewrite filter_In, (matches_spec q s Hq Hu Hn).
    reflexivity.
  - apply filter_all, matches_empty.
Qed.

Lemma filtered_spec_witness :
  ascii_only "ali" = true /\ ascii_only (usn alice) = true /\
  ascii_only (name alice) = true /\
  (In alice (filtered "ali" [cara; alice; bob]) <->
   In alice [cara; alice; bob] /\
   (occurs_ignoring_case "ali" (usn alice) \/
    occurs_ignoring_case "ali" (name alice))).
Proof.
  split; [reflexivity|]. split; [reflexivity|]. split; [reflexivity|].
  exact (proj1 (proj2 (proj2 (filtered_spec [cara; alice; bob] "ali")))
           alice eq_refl eq_refl eq_refl).
Defined.

(** ** Arrays *)

Lemma findIndex_from_spec {A : Type} (p : A -> bool) (l : list A) (i : Z) :
  (findIndex_from p l i = -1 /\ forall k x, l !! k = Some x -> p x = false) \/
  (exists (j : nat) (x : A),
     findIndex_from p l i = i + Z.of_nat j /\
     l !! j = Some x /\ p x = true /\
     forall k y, (k < j)%nat -> l !! k = Some y -> p y = false).
Proof.
  revert i; induction l as [|a l IH]; intros i; simpl.
  - left. split; [reflexivity | intros k x H; discriminate].
  - destruct (p a) eqn:Ha.
    + right. exists O, a. repeat split; [lia | exact Ha | intros; lia].
    + destruct (IH (i + 1)) as [[E H] | (j & x & E & Hj & Hx & Hlt)].
      * left. split; [exact E|]. intros [|k] y Hy; simpl in Hy.
        -- injection Hy as <-. exact Ha.
        -- eapply H, Hy.
      * right. exists (S j), x. repeat split; [lia | exact Hj | exact Hx |].
        intros [|k] y Hk Hy; simpl in Hy.
        -- injection Hy as <-. exact Ha.
        -- eapply Hlt, Hy. lia.
Qed.

(** When some element satisfies [p], [findIndex] answers the first index
    that does, which is not after that element. *)
Lemma findIndex_found {A : Type} (p : A -> bool) (l : list A) (j0 : nat)
  (x0 : A) :
  l !! j0 = Some x0 -> p x0 = true ->
  exists (j : nat) (x : A),
    findIndex p l = Z.of_nat j /\ (j <= j0)%nat /\
    l !! j = Some x /\ p x = true /\
    forall k y, (k < j)%nat -> l !! k = Some y -> p y = false.
Proof.
  intros H0 Hp. unfold findIndex.
  destruct (findIndex_from_spec p l 0) as [[_ H] | (j & x & E & Hj & Hx & Hlt)].
  - rewrite (H _ _ H0) in Hp. discriminate.
  - exists j, x. split; [lia|]. split; [|auto].
    destruct (Nat.le_gt_cases j j0) as [Hle | Hgt]; [exact Hle|].
    rewrite (Hlt _ _ Hgt H0) in Hp. discriminate.
Qed.

Lemma findIndex_ext {A : Type} (p q : A -> bool) (l : list A) :
  (forall k x, l !! k = Some x -> p x = q x) -> findIndex p l = findIndex q l.
Proof.
  unfold findIndex. generalize 0. induction l as [|a l IH]; intros i H.
  - reflexivity.
  - simpl. rewrite <- (H O a eq_refl). destruct (p a); [reflexivity|].
    apply IH. intros k x Hk. apply (H (S k)). exact Hk.
Qed.

(** ** CompetitionRanker *)

Lemma rankedStudents_lookup (l : list student) (i : nat) (s : student) :
  l !! i = Some s ->
  rankedStudents l !! i =
  Some {| ranked_usn := usn s; ranked_name := name s; ranked_sgpa := sgpa s;
          rank := rank_at l i s |}.
Proof.
  intros H. unfold rankedStudents. rewrite list_lookup_imap, H. reflexivity.
Qed.

Lemma ranks_lookup (l : list student) (i : nat) (s : student) :
  l !! i = Some s -> ranks (rankedStudents l) !! i = Some (rank_at l i s).
Proof.
  intros H. unfold ranks. rewrite list_lookup_fmap.
  rewrite (rankedStudents_lookup _ _ _ H). reflexivity.
Qed.

Lemma rank_at_tied (l : list student) (p : nat) (prev s : student) :
  l !! p = Some prev -> strict_eq (sgpa prev) (sgpa s) = true ->
  exists j, first_index_with_score l (sgpa s) j /\ (j <= p)%nat /\
            rank_at l (S p) s = Z.of_nat j + 1.
Proof.
  intros Hp Heq. unfold rank_at. simpl. rewrite Hp, Heq.
  destruct (findIndex_found (fun s' => strict_eq (sgpa s') (sgpa s)) l p prev
              Hp Heq) as (j & x & E & Hle & Hj & Hx & Hlt).
  exists j. split; [|split; [exact Hle | rewrite E; reflexivity]].
  split; [exists x; split; assumption | exact Hlt].
Qed.

Lemma rank_at_not_tied (l : list student) (p : nat) (prev s : student) :
  l !! p = Some prev -> strict_eq (sgpa prev) (sgpa s) = false ->
  rank_at l (S p) s = Z.of_nat (S p) + 1.
Proof. intros Hp Hne. unfold rank_at. simpl. rewrite Hp, Hne. reflexivity. Qed.



(** C10. Ranking keeps the length of the list, and the ranked record at
    each position carries the usn, the name and the sgpa of the input record
    at that position: a rank is added, nothing is reordered, and the input
    list is a value that the ranker cannot change. *)
Theorem rankedStudents_frame (l : list student) :
  length (rankedStudents l) = length l /\
  (forall i : nat, without_rank <$> rankedStudents l !! i = l !! i).
Proof.
  split; [apply length_imap|]. intros i.
  unfold rankedStudents. rewrite list_lookup_imap.
  destruct (l !! i) as [[u n g]|]; reflexivity.
Qed.

(** ** The order of Numbers

    Away from NaN, the comparison of two Numbers is the lexicographic
    comparison of their keys: the sign class, then the exponent and the
    mantissa, both negated below zero. *)

Lemma SFcompare_key (x y : number) :
  isNaN x = false -> isNaN y = false ->
  SFcompare x y =
  Some (match order_key x, order_key y with
        | (a, b, c), (a', b', c') =>
            match a ?= a' with
            | Eq => match b ?= b' with Eq => c ?= c' | r => r end
            | r => r
            end
        end).
Proof.
  destruct x as [[|]|[|]| |[|] m e], y as [[|]|[|]| |[|] m' e'];
    try discriminate; intros _ _; try reflexivity; simpl.
  rewrite Z.compare_opp, (Z.compare_antisym e e').
  destruct (e ?= e'); reflexivity.
Qed.

Lemma num_lt_key (x y : number) :
  num_lt x y = true <->
  isNaN x = false /\ isNaN y = false /\ key_lt (order_key x) (order_key y).
Proof.
  unfold num_lt, SFltb.
  destruct (isNaN x) eqn:Hx;
    [destruct x; try discriminate; simpl; intuition discriminate|].
  destruct (isNaN y) eqn:Hy;
    [destruct y; try discriminate; destruct x; simpl; intuition discriminate|].
  rewrite (SFcompare_key _ _ Hx Hy).
  destruct (order_key x) as [[a b] c], (order_key y) as [[a' b'] c'].
  unfold key_lt.
  destruct (Z.compare_spec a a'), (Z.compare_spec b b'), (Z.compare_spec c c');
    split; try discriminate; try (intros _; repeat split; lia);
    intros (_ & _ & K); lia.
Qed.

Lemma num_eq_key (x y : number) :
  num_eq x y = true <->
  isNaN x = false /\ isNaN y = false /\ order_key x = order_key y.
Proof.
  unfold num_eq, SFeqb.
  destruct (isNaN x) eqn:Hx;
    [destruct x; try discriminate; simpl; intuition discriminate|].
  destruct (isNaN y) eqn:Hy;
    [destruct y; try discriminate; destruct x; simpl; intuition discriminate|].
  rewrite (SFcompare_key _ _ Hx Hy).
  destruct (order_key x) as [[a b] c], (order_key y) as [[a' b'] c'].
  destruct (Z.compare_spec a a'), (Z.compare_spec b b'), (Z.compare_spec c c');
    split; try discriminate; try (intros _; repeat split; congruence);
    intros (_ & _ & K); injection K; lia.
Qed.

Lemma num_ge_key (x y : number) :
  num_ge x y = true <->
  isNaN x = false /\ isNaN y = false /\
  (key_lt (order_key y) (order_key x) \/ order_key y = order_key x).
Proof.
  unfold num_ge, SFleb.
  destruct (isNaN y) eqn:Hy;
    [destruct y; try discriminate; simpl; intuition discriminate|].
  destruct (isNaN x) eqn:Hx;
    [destruct x; try discriminate; destruct y; simpl; intuition discriminate|].
  rewrite (SFcompare_key _ _ Hy Hx).
  destruct (order_key x) as [[a b] c], (order_key y) as [[a' b'] c'].
  unfold key_lt.
  destruct (Z.compare_spec a' a), (Z.compare_spec b' b), (Z.compare_spec c' c);
    split; try discriminate;
    try (intros _; repeat split; first [right; congruence | left; lia]);
    intros (_ & _ & [K | K]); try injection K; lia.
Qed.

Lemma num_ge_notNaN (x y : number) :
  num_ge x y = true -> isNaN x = false /\ isNaN y = false.
Proof. rewrite num_ge_key. tauto. Qed.

Lemma num_lt_not_ge (x y : number) : num_lt x y = true -> num_ge x y = false.
Proof.
  rewrite num_lt_key. intros (Hx & Hy & H).
  apply not_true_iff_false. rewrite num_ge_key. intros (_ & _ & K).
  destruct (order_key x) as [[a b] c], (order_key y) as [[a' b'] c'].
  unfold key_lt in *. destruct K as [K | K]; [|injection K]; lia.
Qed.

Lemma num_not_ge_lt (x y : number) :
  isNaN x = false -> isNaN y = false ->
  num_ge x y = false -> num_lt x y = true.
Proof.
  intros Hx Hy H. apply not_true_iff_false in H. rewrite num_ge_key in H.
  rewrite num_lt_key. repeat split; try assumption.
  destruct (order_key x) as [[a b] c], (order_key y) as [[a' b'] c'].
  unfold key_lt in *.
  assert (K : ~ (a' = a /\ b' = b /\ c' = c))
    by (intros (-> & -> & ->); apply H; auto).
  assert (K' : ~ (a' < a \/ (a' = a /\ (b' < b \/ (b' = b /\ c' < c)))))
    by (intros K'; apply H; auto).
  lia.
Qed.

Lemma num_ge_trans (x y z : number) :
  num_ge x y = true -> num_ge y z = true -> num_ge x z = true.
Proof.
  rewrite !num_ge_key. intros (Hx & Hy & H) (_ & Hz & K).
  repeat split; try assumption.
  destruct (order_key x) as [[a b] c], (order_key y) as [[a' b'] c'],
    (order_key z) as [[a'' b''] c''].
  unfold key_lt in *.
  destruct H as [H | H], K as [K | K]; try injection H; try injection K;
    intros; subst; first [left; lia | right; reflexivity].
Qed.

(** ** TierClassifier *)

(** C8. With the score read as a Number, the classifier answers
    "excellent" exactly when [score >= 9.0], "great" exactly when
    [8.0 <= score < 9.0], "good" exactly when [7.0 <= score < 8.0], "average"
    exactly when [6.0 <= score < 7.0], and "low" in every other case, that
    is when [score >= 6.0] does not hold. The lower bound of a tier belongs
    to it: 9.0 is excellent, 8.999 is great, 6.0 is average and 5.999 is low.
    The classifier names a tier by its style class, ["sgpa-"] followed by
    the tier. *)
Theorem getSGPAColor_tiers :
  (forall v : value,
     let score := Number v in
     (getSGPAColor v = tier_class "excellent" <->
        num_ge score (dec 90 (-1)) = true) /\
     (getSGPAColor v = tier_class "great" <->
        num_ge score (dec 80 (-1)) = true /\
        num_lt score (dec 90 (-1)) = true) /\
     (getSGPAColor v = tier_class "good" <->
        num_ge score (dec 70 (-1)) = true /\
        num_lt score (dec 80 (-1)) = true) /\
     (getSGPAColor v = tier_class "average" <->
        num_ge score (dec 60 (-1)) = true /\
        num_lt score (dec 70 (-1)) = true) /\
     (getSGPAColor v = tier_class "low" <->
        num_ge score (dec 60 (-1)) = false)) /\
  getSGPAColor (VNum (dec 90 (-1))) = tier_class "excellent" /\
  getSGPAColor (VNum (dec 8999 (-3))) = tier_class "great" /\
  getSGPAColor (VNum (dec 60 (-1))) = tier_class "average" /\
  getSGPAColor (VNum (dec 5999 (-3))) = tier_class "low".
Proof.
  split; [|repeat split; vm_compute; reflexivity].
  intros v score. unfold tier_class. simpl String.append.
  unfold getSGPAColor, ge_number. fold score.
  assert (H98 : num_ge (dec 90 (-1)) (dec 80 (-1)) = true)
    by (vm_compute; reflexivity).
  assert (H87 : num_ge (dec 80 (-1)) (dec 70 (-1)) = true)
    by (vm_compute; reflexivity).
  assert (H76 : num_ge (dec 70 (-1)) (dec 60 (-1)) = true)
    by (vm_compute; reflexivity).
  revert H98 H87 H76.
  generalize (dec 90 (-1)) (dec 80 (-1)) (dec 70 (-1)) (dec 60 (-1)) score.
  clear v score. intros t9 t8 t7 t6 score H98 H87 H76.
  pose proof (num_ge_trans score) as T.
  pose proof (num_lt_not_ge score) as L.
  pose proof (num_not_ge_lt score) as N.
  pose proof (num_ge_notNaN score) as D.
  destruct (num_ge score t9) eqn:E9.
  { pose proof (T _ _ E9 H98) as E8. pose proof (T _ _ E8 H87) as E7.
    pose proof (T _ _ E7 H76) as E6. rewrite E8, E7, E6.
    repeat split; try discriminate; try reflexivity;
      intros [K K']; try apply L in K'; congruence. }
  destruct (num_ge score t8) eqn:E8.
  { pose proof (T _ _ E8 H87) as E7. pose proof (T _ _ E7 H76) as E6.
    rewrite E7, E6. destruct (D _ E8) as [Dx _].
    destruct (num_ge_notNaN _ _ H98) as [D9 _].
    repeat split; try discriminate; try reflexivity;
      try (intros [K K']; try apply L in K'; congruence).
    apply N; auto. }
  destruct (num_ge score t7) eqn:E7.
  { pose proof (T _ _ E7 H76) as E6. rewrite E6.
    destruct (D _ E7) as [Dx _].
    destruct (num_ge_notNaN _ _ H87) as [D8 _].
    repeat split; try discriminate; try reflexivity;
      try (intros [K K']; try apply L in K'; congruence).
    apply N; auto. }
  destruct (num_ge score t6) eqn:E6.
  { destruct (D _ E6) as [Dx _]. destruct (num_ge_notNaN _ _ H76) as [D7 _].
    repeat split; try discriminate; try reflexivity;
      try (intros [K K']; try apply L in K'; congruence).
    apply N; auto. }
  repeat split; try discriminate; try reflexivity;
    intros [K _]; congruence.
Qed.

(** ** Sorter *)

Section SortFacts.
Context {A : Type} (cmp : A -> A -> Z).

Lemma insert_sorted_Permutation (x : A) (l : list A) :
  insert_sorted cmp x l ≡ₚ x :: l.
Proof.
  induction l as [|y l IH]; simpl; [reflexivity|].
  destruct (0 <? cmp x y); [|reflexivity].
  rewrite IH. apply Permutation_swap.
Qed.

Lemma sort_Permutation (l : list A) : sort cmp l ≡ₚ l.
Proof.
  induction l as [|x l IH]; simpl; [reflexivity|].
  rewrite insert_sorted_Permutation, IH. reflexivity.
Qed.

Lemma sort_length (l : list A) : length (sort cmp l) = length l.
Proof. apply Permutation_length, sort_Permutation. Qed.

(** A list whose records never compare strictly after a later one is
    returned as it is. *)
Lemma sort_all_tied (l : list A) :
  (forall x y, In x l -> In y l -> cmp x y <= 0) -> sort cmp l = l.
Proof.
  induction l as [|x l IH]; intros H; simpl; [reflexivity|].
  rewrite IH by (intros a b Ha Hb; apply H; right; assumption).
  destruct l as [|y l]; simpl; [reflexivity|].
  destruct (Z.ltb_spec 0 (cmp x y)) as [Hlt | _]; [|reflexivity].
  specialize (H x y (or_introl eq_refl) (or_intror (or_introl eq_refl))). lia.
Qed.

(** *** Stability

    Records of a class [P] whose members never compare strictly after one
    another are left in their input order. *)
Section Stable.
Context (P : A -> Prop) `{!forall x, Decision (P x)}.
Hypothesis class_tied : forall x y, P x -> P y -> cmp x y <= 0.

Lemma insert_sorted_filter_in (x : A) (l : list A) :
  P x -> filter P (insert_sorted cmp x l) = x :: filter P l.
Proof.
  intros Hx. induction l as [|y l IH]; simpl.
  - rewrite filter_cons_True by exact Hx. reflexivity.
  - destruct (0 <? cmp x y) eqn:E.
    + apply Z.ltb_lt in E.
      assert (~ P y) by (intros Hy; specialize (class_tied x y Hx Hy); lia).
      rewrite !filter_cons_False by assumption. exact IH.
    + rewrite (filter_cons_True P x) by exact Hx. reflexivity.
Qed.

Lemma insert_sorted_filter_out (x : A) (l : list A) :
  ~ P x -> filter P (insert_sorted cmp x l) = filter P l.
Proof.
  intros Hx. induction l as [|y l IH]; simpl.
  - rewrite filter_cons_False by exact Hx. reflexivity.
  - destruct (0 <? cmp x y).
    + rewrite !(filter_cons P y), IH. reflexivity.
    + rewrite (filter_cons_False P x) by exact Hx. reflexivity.
Qed.

Lemma sort_stable (l : list A) : filter P (sort cmp l) = filter P l.
Proof.
  induction l as [|x l IH]; simpl; [reflexivity|].
  destruct (decide (P x)) as [Hx | Hx].
  - rewrite insert_sorted_filter_in, filter_cons_True, IH by exact Hx.
    reflexivity.
  - rewrite insert_sorted_filter_out, filter_cons_False, IH by exact Hx.
    reflexivity.
Qed.
End Stable.

(** *** Order of the result

    On a domain [D] where [cmp] is total and transitive, no element of the
    result is strictly after a later one. *)
Section Ordered.
Context (D : A -> Prop).
Hypothesis cmp_total : forall x y, D x -> D y -> 0 < cmp x y -> cmp y x <= 0.
Hypothesis cmp_trans :
  forall x y z, D x -> D y -> D z ->
    cmp x y <= 0 -> cmp y z <= 0 -> cmp x z <= 0.

Lemma insert_sorted_ordered (x : A) (l : list A) :
  D x -> Forall D l ->
  StronglySorted (fun a b => cmp a b <= 0) l ->
  StronglySorted (fun a b => cmp a b <= 0) (insert_sorted cmp x l).
Proof.
  intros Hx HD Hs. induction l as [|y l IH]; simpl.
  - repeat constructor.
  - apply Forall_cons in HD as [Hy HD].
    apply StronglySorted_cons in Hs as [Hyl Hs].
    destruct (0 <? cmp x y) eqn:E.
    + apply Z.ltb_lt in E. apply StronglySorted_cons. split; [|auto].
      rewrite insert_sorted_Permutation. constructor; [auto|exact Hyl].
    + apply Z.ltb_ge in E. apply StronglySorted_cons. split.
      * constructor; [exact E|].
        rewrite Forall_forall in Hyl, HD |- *. intros z Hz.
        apply (cmp_trans x y z); auto.
      * apply StronglySorted_cons. auto.
Qed.

Lemma sort_ordered (l : list A) :
  Forall D l -> StronglySorted (fun a b => cmp a b <= 0) (sort cmp l).
Proof.
  induction l as [|x l IH]; intros HD; simpl; [constructor|].
  apply Forall_cons in HD as [Hx HD].
  apply insert_sorted_ordered; [exact Hx | | auto].
  rewrite sort_Permutation. exact HD.
Qed.
End Ordered.
End SortFacts.

(** *** The sorted and stable arrangement is unique *)

Section SortUnique.
Context {A : Type} (cmp : A -> A -> Z) (D : A -> Prop).
Context `{!forall x, Decision (D x)}.
Hypothesis cmp_refl : forall x, D x -> cmp x x <= 0.
Hypothesis cmp_trans :
  forall x y z, D x -> D y -> D z ->
    cmp x y <= 0 -> cmp y z <= 0 -> cmp x z <= 0.

Lemma tied_class_tied (x : A) :
  D x ->
  forall a b, tied_class cmp D x a -> tied_class cmp D x b -> cmp a b <= 0.
Proof.
  intros Hx a b (Da & _ & Hax) (Db & Hxb & _).
  apply (cmp_trans a x b); assumption.
Qed.

Lemma sorted_stable_unique (l1 l2 : list A) :
  Forall D l1 -> Forall D l2 ->
  StronglySorted (fun a b => cmp a b <= 0) l1 ->
  StronglySorted (fun a b => cmp a b <= 0) l2 ->
  (forall (P : A -> Prop) (dec : forall x, Decision (P x)),
     (forall x y, P x -> P y -> cmp x y <= 0) ->
     filter P l1 = filter P l2) ->
  l1 = l2.
Proof.
  revert l2. induction l1 as [|x t1 IH]; intros l2 D1 D2 S1 S2 HF.
  - destruct l2 as [|y t2]; [reflexivity|]. exfalso.
    apply Forall_cons in D2 as [Dy _].
    specialize (HF (tied_class cmp D y) _ (tied_class_tied y Dy)).
    rewrite filter_nil, filter_cons_True in HF; [discriminate|].
    repeat split; auto.
  - apply Forall_cons in D1 as [Dx D1].
    apply StronglySorted_cons in S1 as [Hx S1].
    destruct l2 as [|y t2].
    + exfalso. specialize (HF (tied_class cmp D x) _ (tied_class_tied x Dx)).
      rewrite filter_nil, filter_cons_True in HF; [discriminate|].
      repeat split; auto.
    + apply Forall_cons in D2 as [Dy D2].
      apply StronglySorted_cons in S2 as [Hy S2].
      assert (Txx : tied_class cmp D x x) by (repeat split; auto).
      assert (Tyy : tied_class cmp D y y) by (repeat split; auto).
      assert (E : x = y).
      { pose proof (HF (tied_class cmp D x) _ (tied_class_tied x Dx)) as Hfx.
        pose proof (HF (tied_class cmp D y) _ (tied_class_tied y Dy)) as Hfy.
        rewrite (filter_cons_True _ x) in Hfx by exact Txx.
        rewrite (filter_cons_True _ y) in Hfy by exact Tyy.
        destruct (decide (tied_class cmp D x y)) as [Txy | Nxy].
        - rewrite (filter_cons_True _ y) in Hfx by exact Txy. congruence.
        - exfalso. rewrite (filter_cons_False _ y) in Hfx by exact Nxy.
          (* x occurs in t2, y occurs in t1 *)
          assert (Hx2 : x ∈ t2).
          { assert (K : x ∈ filter (tied_class cmp D x) t2)
              by (rewrite <- Hfx; left).
            apply list_elem_of_filter in K. tauto. }
          assert (Nyx : ~ tied_class cmp D y x).
          { intros (_ & H1 & H2). apply Nxy. repeat split; auto. }
          rewrite (filter_cons_False _ x) in Hfy by exact Nyx.
          assert (Hy1 : y ∈ t1).
          { assert (K : y ∈ filter (tied_class cmp D y) t1)
              by (rewrite Hfy; left).
            apply list_elem_of_filter in K. tauto. }
          rewrite Forall_forall in Hx, Hy.
          apply Nxy. repeat split; auto. }
      subst y. f_equal. apply IH; try assumption.
      intros P dec HP. specialize (HF P dec HP).
      rewrite !filter_cons in HF. destruct (decide (P x)); congruence.
Qed.

Hypothesis cmp_total :
  forall x y, D x -> D y -> 0 < cmp x y -> cmp y x <= 0.

(** On a consistent comparator the sorted and stable arrangement is the
    one [sort] builds: every engine returns it. *)
Lemma sort_unique (l l' : list A) :
  Forall D l -> Forall D l' ->
  StronglySorted (fun a b => cmp a b <= 0) l' ->
  stable_for cmp l l' ->
  l' = sort cmp l.
Proof.
  intros Dl Dl' S' St. apply sorted_stable_unique; try assumption.
  - rewrite sort_Permutation. exact Dl.
  - apply (sort_ordered cmp D); assumption.
  - intros P dec HP. rewrite (St P dec HP).
    symmetry. apply sort_stable. exact HP.
Qed.
End SortUnique.

Lemma StronglySorted_lookup {A : Type} (R : A -> A -> Prop) (l : list A)
  (i j : nat) (x y : A) :
  StronglySorted R l -> (i < j)%nat ->
  l !! i = Some x -> l !! j = Some y -> R x y.
Proof.
  intros Hs. revert i j. induction Hs as [|a l Hs IH Ha]; intros i j Hij Hi Hj.
  - discriminate.
  - destruct j as [|j]; [lia|]. simpl in Hj. destruct i as [|i]; simpl in Hi.
    + injection Hi as <-. rewrite Forall_forall in Ha.
      apply Ha. eapply list_elem_of_lookup_2, Hj.
    + apply (IH i j); [lia | assumption | assumption].
Qed.

(** ** RecordComparator *)

Lemma order_result_zero (o : sort_order) (lt gt : bool) :
  order_result o lt gt = 0 <-> lt = false /\ gt = false.
Proof.
  destruct o, lt, gt; simpl; split; try discriminate; auto;
    intros []; discriminate.
Qed.

Lemma order_result_swap (o : sort_order) (lt gt : bool) :
  order_result o lt gt = 0 -> order_result o gt lt = 0.
Proof. rewrite !order_result_zero. tauto. Qed.

Lemma num_lt_irrefl (x : number) : num_lt x x = false.
Proof.
  apply not_true_iff_false. rewrite num_lt_key. intros (_ & _ & H).
  destruct (order_key x) as [[a b] c]. unfold key_lt in H. lia.
Qed.

Lemma str_lt_irrefl (s : string) : str_lt s s = false.
Proof.
  unfold str_lt, String.ltb.
  pose proof (String.compare_antisym s s) as H.
  destruct (String.compare s s); try discriminate; reflexivity.
Qed.

Lemma comparator_refl (field : sort_field) (o : sort_order) (a : student) :
  comparator field o a a = 0.
Proof.
  destruct field; simpl; apply order_result_zero;
    unfold num_gt, str_gt; fold (num_lt (Number (sgpa a)) (Number (sgpa a)));
    fold (str_lt (toLowerCase (usn a)) (toLowerCase (usn a)));
    fold (str_lt (toLowerCase (name a)) (toLowerCase (name a)));
    rewrite ?num_lt_irrefl, ?str_lt_irrefl; auto.
Qed.

Lemma comparator_zero_sym (field : sort_field) (o : sort_order)
  (a b : student) :
  comparator field o a b = 0 -> comparator field o b a = 0.
Proof. destruct field; simpl; apply order_result_swap. Qed.

(** A score that does not coerce to a Number compares as equal to every
    score, on either side and in either direction. *)
Lemma comparator_NaN (o : sort_order) (a b : student) :
  isNaN (Number (sgpa a)) = true ->
  comparator by_sgpa o a b = 0 /\ comparator by_sgpa o b a = 0.
Proof.
  intros H. simpl. rewrite !order_result_zero. unfold num_gt, num_lt.
  destruct (Number (sgpa a)); try discriminate.
  destruct (Number (sgpa b)); repeat split.
Qed.

(** Two records that compare equal are in the order [sort] as they are in
    the input. *)
Lemma sorted_keeps_tied (field : sort_field) (o : sort_order)
  (l : list student) :
  keeps_tied_order (comparator field o) l (sorted field o l).
Proof.
  intros a b H. unfold sorted. apply sort_stable.
  pose proof (comparator_zero_sym _ _ _ _ H) as H'.
  pose proof (comparator_refl field o a) as Ha.
  pose proof (comparator_refl field o b) as Hb.
  intros x y [-> | ->] [-> | ->]; lia.
Qed.

(** The scenario of the three records in the initial state: ranks 1, 1, 3
    with Alice before Bob, and the tiers excellent, excellent, good. *)
Example three_records_scenario :
  exists rows : list ranked_student,
    AllStudentsTable initial_state [alice; bob; cara] = StudentsTable rows /\
    map ranked_name rows = ["Alice"; "Bob"; "Cara"]%string /\
    ranks rows = [1; 1; 3] /\
    map (fun r => getSGPAColor (ranked_sgpa r)) rows =
    ["sgpa-excellent"; "sgpa-excellent"; "sgpa-good"]%string.
Proof.
  eexists. split; [reflexivity|]. repeat split; vm_compute; reflexivity.
Qed.

(** On the three sample records every comparison by score answers 0, in
    both directions, so any stable sort has to leave them as they are. *)
Example absent_scores_all_tied (o : sort_order) (a b : student) :
  In a absent_scores -> In b absent_scores -> comparator by_sgpa o a b = 0.
Proof.
  intros Ha Hb. simpl in Ha, Hb.
  destruct Ha as [<- | [<- | [<- | []]]];
    destruct Hb as [<- | [<- | [<- | []]]];
    first [ apply comparator_refl
          | apply (comparator_NaN o); vm_compute; reflexivity
          | apply comparator_zero_sym, (comparator_NaN o); vm_compute;
            reflexivity ].
Qed.

(** Counterexample to C2: both records without a usable score compare
    equal to the record between them, the sort leaves the three as they
    are, and the scored record has an unscored one on either side. *)
Lemma uncoercible_not_at_one_extreme :
  ~ at_one_extreme (sorted by_sgpa desc absent_scores).
Proof.
  assert (E : sorted by_sgpa desc absent_scores = absent_scores)
    by (vm_compute; reflexivity).
  rewrite E. clear E. intros [H | H].
  - assert (2 < 1)%nat; [|lia].
    eapply (H 2%nat 1%nat); try reflexivity; vm_compute; reflexivity.
  - assert (1 < 0)%nat; [|lia].
    eapply (H 0%nat 1%nat); try reflexivity; vm_compute; reflexivity.
Qed.

(** C2, amended. Sorting by score is a function of the record list and of
    the direction alone, its result is a rearrangement of the list, and
    nothing in it can throw. A record whose score fails numeric coercion
    compares as equal to every record, on either side, and is sent to no end
    of the output: a list on which every comparison answers 0, as it does
    when the scores that coerce are all equal, comes back in its input order,
    with that record where it was. *)
Theorem sorted_by_score_uncoercible (o : sort_order) (l : list student) :
  sorted by_sgpa o l ≡ₚ l /\
  (forall a b : student,
     coercible a = false ->
     comparator by_sgpa o a b = 0 /\ comparator by_sgpa o b a = 0) /\
  ((forall a b : student,
      In a l -> In b l -> comparator by_sgpa o a b = 0) ->
   sorted by_sgpa o l = l).
Proof.
  split; [apply sort_Permutation | split].
  - intros a b Ha. apply negb_false_iff in Ha. apply comparator_NaN, Ha.
  - intros H. apply sort_all_tied. intros a b Ha Hb.
    rewrite (H a b Ha Hb). lia.
Qed.

Lemma sorted_by_score_uncoercible_witness :
  (forall a b : student,
     In a absent_scores -> In b absent_scores ->
     comparator by_sgpa desc a b = 0) /\
  sorted by_sgpa desc absent_scores = absent_scores.
Proof.
  split; [apply absent_scores_all_tied|].
  exact (proj2 (proj2 (sorted_by_score_uncoercible desc absent_scores))
           (absent_scores_all_tied desc)).
Defined.

(** ** Tie test of the ranker *)

(** The tie test is the strict equality of the two [sgpa] values as the
    records hold them, without coercion. Two Number scores are tied exactly
    when they are equal as numeric values; a score held as a String is not
    tied with a Number, whatever its numeric value, and two String scores
    are tied exactly when they are the same text. *)
Lemma tie_test_strict_equality (l : list student) (p : nat)
  (prev s : student) :
  l !! p = Some prev ->
  tied_with_previous l (S p) s = strict_eq (sgpa prev) (sgpa s) /\
  (forall x y : number,
     sgpa prev = VNum x -> sgpa s = VNum y ->
     (tied_with_previous l (S p) s = true <-> num_eq x y = true)) /\
  (forall (t : string) (y : number),
     (sgpa prev = VStr t /\ sgpa s = VNum y) \/
     (sgpa prev = VNum y /\ sgpa s = VStr t) ->
     tied_with_previous l (S p) s = false) /\
  (forall t u : string,
     sgpa prev = VStr t -> sgpa s = VStr u ->
     (tied_with_previous l (S p) s = true <-> t = u)).
Proof.
  intros Hp. simpl. rewrite Hp. split; [reflexivity | split; [|split]].
  - intros x y -> ->. reflexivity.
  - intros t y [[-> ->] | [-> ->]]; reflexivity.
  - intros t u -> ->. simpl. apply String.eqb_eq.
Qed.

(** C4. The texts ["9.50"] and ["9.5"] are the same numeric value: the
    comparator, which coerces both with [Number], answers 0 for the two
    records. The ranker compares the raw values, does not treat the second
    record as tied with the first, and ranks the two 1 and 2. *)
Theorem tie_test_misses_coercion :
  num_eq (Number (sgpa long_score)) (Number (sgpa short_score)) = true /\
  comparator by_sgpa desc long_score short_score = 0 /\
  sorted by_sgpa desc [long_score; short_score] = [long_score; short_score] /\
  tied_with_previous [long_score; short_score] 1 short_score = false /\
  ranks (rankedStudents (sorted by_sgpa desc [long_score; short_score])) =
  [1; 2].
Proof. repeat split; vm_compute; reflexivity. Qed.

(** ** DistributionNormalizer *)

(** C9. A bucket map without entries, and a missing one, give the empty
    chart state: no row is built, so no width is computed and nothing is
    divided. The empty state is shown for no other input. *)
Theorem DistributionChart_empty :
  DistributionChart (Some []) = NoDistributionData /\
  DistributionChart None = NoDistributionData /\
  (forall distribution : option (list (string * number)),
     DistributionChart distribution = NoDistributionData <->
     default [] distribution = []).
Proof.
  split; [reflexivity | split; [reflexivity|]].
  intros [[|e l]|]; simpl; split; intros H; try reflexivity; discriminate.
Qed.

(** Counterexample to C7: a bucket holding 1 beside a bucket holding 100 is
    drawn 1% wide, under the floor of 5%. *)
Lemma width_below_floor :
  ~ widths_within (dec 5 0) (dec 100 0)
      (DistributionChart (Some one_in_hundred)).
Proof.
  assert (E : DistributionChart (Some one_in_hundred) =
              DistChart [ {| dist_label := "A"; dist_bar_width := dec 1 0;
                             dist_count := dec 1 0 |};
                          {| dist_label := "B"; dist_bar_width := dec 100 0;
                             dist_count := dec 100 0 |} ])
    by (vm_compute; reflexivity).
  rewrite E. simpl. intros H. apply Forall_cons in H as [[H _] _].
  simpl in H. vm_compute in H. discriminate.
Qed.

(** ** Ranks along a table sorted by score *)

Lemma coercible_numeric (s : student) : numeric_score s -> coercible s = true.
Proof.
  intros (x & E & Hx). unfold coercible. rewrite E. simpl. rewrite Hx.
  reflexivity.
Qed.

(** Away from NaN, the comparator is at most 0 exactly when the keys are in
    the order asked for. *)
Lemma comparator_sgpa_le (o : sort_order) (a b : student) :
  coercible a = true -> coercible b = true ->
  (comparator by_sgpa o a b <= 0 <->
   match o with
   | asc => ~ key_lt (score_key b) (score_key a)
   | desc => ~ key_lt (score_key a) (score_key b)
   end).
Proof.
  unfold coercible, score_key. rewrite !negb_true_iff. intros Ha Hb. simpl.
  unfold num_gt. fold (num_lt (Number (sgpa b)) (Number (sgpa a))).
  pose proof (num_lt_key (Number (sgpa a)) (Number (sgpa b))) as L.
  pose proof (num_lt_key (Number (sgpa b)) (Number (sgpa a))) as G.
  destruct (num_lt (Number (sgpa a)) (Number (sgpa b))),
    (num_lt (Number (sgpa b)) (Number (sgpa a))), o; simpl;
    split; try lia; intros H; try (exfalso; apply H; tauto);
    intros K; (assert (false = true) by tauto); discriminate.
Qed.

Lemma comparator_sgpa_total (o : sort_order) (a b : student) :
  coercible a = true -> coercible b = true ->
  0 < comparator by_sgpa o a b -> comparator by_sgpa o b a <= 0.
Proof.
  intros Ha Hb H. rewrite (comparator_sgpa_le o b a Hb Ha).
  assert (K : ~ comparator by_sgpa o a b <= 0) by lia.
  rewrite (comparator_sgpa_le o a b Ha Hb) in K.
  destruct (score_key a) as [[x y] z], (score_key b) as [[x' y'] z'].
  unfold key_lt in *. destruct o; lia.
Qed.

Lemma comparator_sgpa_trans (o : sort_order) (a b c : student) :
  coercible a = true -> coercible b = true -> coercible c = true ->
  comparator by_sgpa o a b <= 0 -> comparator by_sgpa o b c <= 0 ->
  comparator by_sgpa o a c <= 0.
Proof.
  intros Ha Hb Hc.
  rewrite (comparator_sgpa_le o a b Ha Hb), (comparator_sgpa_le o b c Hb Hc),
    (comparator_sgpa_le o a c Ha Hc).
  destruct (score_key a) as [[x y] z], (score_key b) as [[x' y'] z'],
    (score_key c) as [[x'' y''] z''].
  unfold key_lt. destruct o; lia.
Qed.

(** Between two records of equal score, a sorted list holds that score
    only. *)
Lemma comparator_sgpa_between (o : sort_order) (a b c : student) :
  coercible a = true -> coercible b = true -> coercible c = true ->
  comparator by_sgpa o a b <= 0 -> comparator by_sgpa o b c <= 0 ->
  score_key a = score_key c -> score_key b = score_key c.
Proof.
  intros Ha Hb Hc.
  rewrite (comparator_sgpa_le o a b Ha Hb), (comparator_sgpa_le o b c Hb Hc).
  destruct (score_key a) as [[x y] z], (score_key b) as [[x' y'] z'],
    (score_key c) as [[x'' y''] z''].
  unfold key_lt. intros H K E. injection E as -> -> ->.
  assert (x' = x'' /\ y' = y'' /\ z' = z'') as (-> & -> & ->)
    by (destruct o; lia).
  reflexivity.
Qed.

Lemma strict_eq_numeric (a b : student) :
  numeric_score a -> numeric_score b ->
  (strict_eq (sgpa a) (sgpa b) = true <-> score_key a = score_key b).
Proof.
  intros (x & Ea & Hx) (y & Eb & Hy). unfold score_key.
  rewrite Ea, Eb. simpl. rewrite num_eq_key. tauto.
Qed.

Lemma rank_at_upper (l : list student) (i : nat) (s : student) :
  l !! i = Some s -> rank_at l i s <= Z.of_nat i + 1.
Proof.
  intros Hi. destruct i as [|p].
  - reflexivity.
  - destruct (l !! p) as [prev|] eqn:Hp.
    + destruct (strict_eq (sgpa prev) (sgpa s)) eqn:E.
      * destruct (rank_at_tied _ _ _ _ Hp E) as (j & _ & Hj & ->). lia.
      * rewrite (rank_at_not_tied _ _ _ _ Hp E). lia.
    + unfold rank_at. simpl. rewrite Hp. lia.
Qed.

Lemma rank_at_first (l : list student) (s : student) : rank_at l O s = 1.
Proof. reflexivity. Qed.

Lemma ranks_sorted_nondecreasing (o : sort_order) (l : list student) :
  Forall numeric_score l ->
  StronglySorted (fun a b => comparator by_sgpa o a b <= 0) l ->
  nondecreasing (ranks (rankedStudents l)).
Proof.
  intros HD Hs i x y Hx Hy.
  destruct (l !! i) as [a|] eqn:Ha;
    [|unfold ranks, rankedStudents in Hx;
      rewrite list_lookup_fmap, list_lookup_imap, Ha in Hx; discriminate].
  destruct (l !! S i) as [b|] eqn:Hb;
    [|unfold ranks, rankedStudents in Hy;
      rewrite list_lookup_fmap, list_lookup_imap, Hb in Hy; discriminate].
  rewrite (ranks_lookup _ _ _ Ha) in Hx. rewrite (ranks_lookup _ _ _ Hb) in Hy.
  injection Hx as <-. injection Hy as <-.
  rewrite Forall_forall in HD.
  assert (Na : numeric_score a) by (eapply HD, list_elem_of_lookup_2, Ha).
  assert (Nb : numeric_score b) by (eapply HD, list_elem_of_lookup_2, Hb).
  pose proof (rank_at_upper _ _ _ Ha) as Ua.
  destruct (strict_eq (sgpa a) (sgpa b)) eqn:E.
  2:{ rewrite (rank_at_not_tied _ _ _ _ Ha E). lia. }
  destruct (rank_at_tied _ _ _ _ Ha E)
    as (j & [(sj & Hj & Hsj) Hfirst] & Hji & ->).
  assert (Nj : numeric_score sj) by (eapply HD, list_elem_of_lookup_2, Hj).
  apply (strict_eq_numeric a b Na Nb) in E.
  apply (strict_eq_numeric sj b Nj Nb) in Hsj.
  destruct i as [|p]; [rewrite rank_at_first; lia|].
  destruct (l !! p) as [prev|] eqn:Hp;
    [|apply lookup_lt_Some in Ha; apply lookup_ge_None in Hp; lia].
  assert (Np : numeric_score prev) by (eapply HD, list_elem_of_lookup_2, Hp).
  destruct (strict_eq (sgpa prev) (sgpa a)) eqn:T.
  - (* tied with the record before: both ranks come from the same search *)
    unfold rank_at at 1. simpl. rewrite Hp, T.
    rewrite (findIndex_ext _ (fun s' => strict_eq (sgpa s') (sgpa b))).
    + destruct (findIndex_found (fun s' => strict_eq (sgpa s') (sgpa b)) l j sj
                  Hj) as (j' & x' & -> & Hle & _); [|lia].
      apply (strict_eq_numeric sj b Nj Nb). exact Hsj.
    + intros k z Hz.
      assert (Nz : numeric_score z) by (eapply HD, list_elem_of_lookup_2, Hz).
      apply eq_true_iff_eq.
      rewrite (strict_eq_numeric z a Nz Na), (strict_eq_numeric z b Nz Nb), E.
      reflexivity.
  - (* first record of its score: no earlier index holds that score *)
    rewrite (rank_at_not_tied _ _ _ _ Hp T).
    destruct (Nat.le_gt_cases (S p) j) as [Hge | Hlt]; [lia|]. exfalso.
    apply not_true_iff_false in T. apply T.
    apply (strict_eq_numeric prev a Np Na).
    destruct (Nat.eq_dec j p) as [-> | Hne].
    + rewrite Hp in Hj. injection Hj as ->. congruence.
    + apply (comparator_sgpa_between o sj prev a);
        try (apply coercible_numeric; assumption).
      * apply (StronglySorted_lookup
                 (fun a b => comparator by_sgpa o a b <= 0) l j p sj prev Hs);
          [lia | exact Hj | exact Hp].
      * apply (StronglySorted_lookup
                 (fun a b => comparator by_sgpa o a b <= 0) l p (S p) prev a Hs);
          [lia | exact Hp | exact Ha].
      * congruence.
Qed.

(** ** Consistency of the comparator *)

Lemma string_compare_trans (c : comparison) (s t u : string) :
  String.compare s t = c -> String.compare t u = c -> String.compare s u = c.
Proof.
  revert t u. induction s as [|a s IH]; intros [|b t] [|d u]; simpl;
    try congruence.
  unfold Ascii.compare.
  destruct (N.compare_spec (N_of_ascii a) (N_of_ascii b)) as [E1 | E1 | E1],
    (N.compare_spec (N_of_ascii b) (N_of_ascii d)) as [E2 | E2 | E2],
    (N.compare_spec (N_of_ascii a) (N_of_ascii d)) as [E3 | E3 | E3];
    try congruence; try lia; try apply IH.
Qed.

Lemma string_compare_eq_l (s t u : string) :
  String.compare s t = Eq -> String.compare s u = String.compare t u.
Proof. intros H. apply String.compare_eq_iff in H. subst. reflexivity. Qed.

(** [t < s] does not hold, read on [String.compare]. *)
Lemma str_lt_false (s t : string) :
  str_lt t s = false <-> String.compare s t <> Gt.
Proof.
  unfold str_lt, String.ltb. rewrite (String.compare_antisym t s).
  destruct (String.compare s t); simpl; split; congruence.
Qed.

Lemma string_not_gt_trans (s t u : string) :
  String.compare s t <> Gt -> String.compare t u <> Gt ->
  String.compare s u <> Gt.
Proof.
  intros H1 H2.
  destruct (String.compare s t) eqn:E1; try congruence.
  - rewrite (string_compare_eq_l _ _ _ E1). exact H2.
  - destruct (String.compare t u) eqn:E2; try congruence.
    + apply String.compare_eq_iff in E2. subst. congruence.
    + rewrite (string_compare_trans Lt s t u E1 E2). discriminate.
Qed.

(** The comparator on a text key, read on [String.compare]. *)
Lemma order_result_str_le (o : sort_order) (s t : string) :
  order_result o (str_lt s t) (str_gt s t) <= 0 <->
  match o with
  | asc => String.compare s t <> Gt
  | desc => String.compare t s <> Gt
  end.
Proof.
  unfold str_gt. fold (str_lt t s).
  pose proof (str_lt_false s t) as H1. pose proof (str_lt_false t s) as H2.
  destruct o, (str_lt s t), (str_lt t s); simpl; split; intros H;
    try lia; try tauto; exfalso;
    first [ apply (proj2 H1) in H | apply (proj2 H2) in H ]; discriminate.
Qed.

Lemma comparator_text_le (field : sort_field) (o : sort_order) :
  field <> by_sgpa ->
  exists key : student -> string,
    forall x y, comparator field o x y <= 0 <->
      match o with
      | asc => String.compare (key x) (key y) <> Gt
      | desc => String.compare (key y) (key x) <> Gt
      end.
Proof.
  destruct field; intros H; [| |congruence].
  - exists (fun s => toLowerCase (usn s)). intros x y. apply order_result_str_le.
  - exists (fun s => toLowerCase (name s)). intros x y. apply order_result_str_le.
Qed.

Lemma comparator_text_total (field : sort_field) (o : sort_order)
  (a b : student) :
  field <> by_sgpa ->
  0 < comparator field o a b -> comparator field o b a <= 0.
Proof.
  intros Hf H. destruct (comparator_text_le field o Hf) as [key K].
  assert (N : ~ comparator field o a b <= 0) by lia.
  rewrite K in N. rewrite K.
  pose proof (String.compare_antisym (key a) (key b)) as Ha.
  destruct o; destruct (String.compare (key a) (key b)),
    (String.compare (key b) (key a)); simpl in Ha; try congruence;
    exfalso; apply N; congruence.
Qed.

Lemma comparator_text_trans (field : sort_field) (o : sort_order)
  (a b c : student) :
  field <> by_sgpa ->
  comparator field o a b <= 0 -> comparator field o b c <= 0 ->
  comparator field o a c <= 0.
Proof.
  intros Hf. destruct (comparator_text_le field o Hf) as [key K].
  rewrite !K. destruct o; intros H1 H2.
  - apply (string_not_gt_trans _ (key b)); assumption.
  - apply (string_not_gt_trans _ (key b)); assumption.
Qed.

Lemma comparator_total (field : sort_field) (o : sort_order) (a b : student) :
  sortable field a = true -> sortable field b = true ->
  0 < comparator field o a b -> comparator field o b a <= 0.
Proof.
  destruct field; intros Ha Hb;
    first [ apply comparator_sgpa_total; assumption
          | apply comparator_text_total; discriminate ].
Qed.

Lemma comparator_trans (field : sort_field) (o : sort_order)
  (a b c : student) :
  sortable field a = true -> sortable field b = true ->
  sortable field c = true ->
  comparator field o a b <= 0 -> comparator field o b c <= 0 ->
  comparator field o a c <= 0.
Proof.
  destruct field; intros Ha Hb Hc;
    first [ apply comparator_sgpa_trans; assumption
          | apply comparator_text_trans; discriminate ].
Qed.

(** Sort monotonicity: no record of the sorted view compares strictly
    after a later one. *)
Lemma sorted_ordered (field : sort_field) (o : sort_order) (l : list student) :
  Forall (fun s => sortable field s = true) l ->
  StronglySorted (fun a b => comparator field o a b <= 0) (sorted field o l).
Proof.
  intros H. unfold sorted.
  apply (sort_ordered _ (fun s => sortable field s = true));
    [apply comparator_total | apply comparator_trans | exact H].
Qed.

(** Where the comparator is consistent, the sorted and stable arrangement
    is the one [sorted] returns: the order of the table does not depend on
    the engine that runs [sort]. *)
Lemma sorted_unique (field : sort_field) (o : sort_order)
  (l l' : list student) :
  Forall (fun s => sortable field s = true) l ->
  Forall (fun s => sortable field s = true) l' ->
  StronglySorted (fun a b => comparator field o a b <= 0) l' ->
  stable_for (comparator field o) l l' ->
  l' = sorted field o l.
Proof.
  intros Dl Dl' S St. unfold sorted.
  apply (sort_unique (comparator field o)
           (fun s => sortable field s = true)); try assumption.
  - intros x _. rewrite comparator_refl. lia.
  - apply comparator_trans.
  - apply comparator_total.
Qed.

(** Counterexample to C3: sorted by name, the scores 9.0, 8.0, 9.0, 9.0
    follow one another and the ranks are 1, 2, 3, 1. *)
Lemma ranks_by_name_decrease :
  ~ nondecreasing
      (shown_ranks {| sortBy := by_name; sortOrder := asc; searchTerm := "" |}
         by_name_sample).
Proof.
  assert (E : shown_ranks
                {| sortBy := by_name; sortOrder := asc; searchTerm := "" |}
                by_name_sample = [1; 2; 3; 1]) by (vm_compute; reflexivity).
  rewrite E. intros H. specialize (H 2%nat 3 1 eq_refl eq_refl). lia.
Qed.

Lemma filtered_Forall (P : student -> Prop) (q : string) (l : list student) :
  Forall P l -> Forall P (filtered q l).
Proof.
  rewrite !Forall_forall. intros H s Hs. apply H.
  apply list_elem_of_In. apply list_elem_of_In in Hs.
  apply filter_In in Hs. tauto.
Qed.

(** C3, amended. In every sort state the first rank shown is 1. When the
    table is sorted by score, in either direction, and every score is a
    Number other than NaN, the ranks never decrease from a row to the
    next. *)
Theorem ranks_by_score_nondecreasing (st : table_state)
  (students : list student) :
  starts_at_one (shown_ranks st students) /\
  (sortBy st = by_sgpa -> Forall numeric_score students ->
   nondecreasing (shown_ranks st students)).
Proof.
  unfold shown_ranks. split.
  - intros x Hx.
    destruct (sorted (sortBy st) (sortOrder st)
                (filtered (searchTerm st) students)) as [|s l] eqn:E;
      [discriminate|].
    rewrite (ranks_lookup (s :: l) O s eq_refl) in Hx. injection Hx as <-.
    reflexivity.
  - intros -> HD. apply (ranks_sorted_nondecreasing (sortOrder st)).
    + unfold sorted. rewrite sort_Permutation. apply filtered_Forall, HD.
    + apply (sort_ordered _ (fun s => coercible s = true)).
      * apply comparator_sgpa_total.
      * apply comparator_sgpa_trans.
      * eapply Forall_impl; [apply filtered_Forall, HD|].
        apply coercible_numeric.
Qed.

Lemma ranks_by_score_nondecreasing_witness :
  sortBy initial_state = by_sgpa /\
  Forall numeric_score [cara; alice; bob] /\
  nondecreasing (shown_ranks initial_state [cara; alice; bob]).
Proof.
  assert (H : Forall numeric_score [cara; alice; bob]).
  { repeat constructor; eexists; split; reflexivity. }
  split; [reflexivity | split; [exact H|]].
  exact (proj2 (ranks_by_score_nondecreasing initial_state
                  [cara; alice; bob]) eq_refl H).
Defined.

(** ** Rounding of Numbers *)


Lemma pow2_succ (k : Z) : 0 <= k -> 2 ^ (k + 1) = 2 * 2 ^ k.
Proof. intros H. rewrite Z.pow_add_r by lia. lia. Qed.

Lemma digits2_pos_bounds (p : positive) :
  2 ^ (Zpos (digits2_pos p) - 1) <= Zpos p < 2 ^ Zpos (digits2_pos p).
Proof.
  induction p as [p IH | p IH |]; simpl digits2_pos;
    [| |simpl; lia];
    rewrite Pos2Z.inj_succ;
    replace (Z.succ (Zpos (digits2_pos p)) - 1)
      with (Zpos (digits2_pos p) - 1 + 1) by lia;
    replace (Z.succ (Zpos (digits2_pos p)))
      with (Zpos (digits2_pos p) - 1 + 1 + 1) by lia;
    replace (Zpos (digits2_pos p))
      with (Zpos (digits2_pos p) - 1 + 1) in IH at 2 by lia;
    rewrite !pow2_succ in * by lia; lia.
Qed.

Lemma Zdigits2_bounds (m : Z) :
  0 < m -> 2 ^ (Zdigits2 m - 1) <= m < 2 ^ Zdigits2 m.
Proof. destruct m; try lia. intros _. apply digits2_pos_bounds. Qed.

Lemma Zdigits2_pos (m : Z) : 0 < m -> 0 < Zdigits2 m.
Proof. destruct m; simpl; lia. Qed.

Lemma Zdigits2_ge (m : Z) (k : Z) : 0 <= k -> 2 ^ k <= m -> k < Zdigits2 m.
Proof.
  intros Hk H. assert (0 < m) by (pose proof (Z.pow_pos_nonneg 2 k); lia).
  destruct (Zdigits2_bounds m H0) as [_ Hu].
  destruct (Z.lt_ge_cases k (Zdigits2 m)); [assumption|].
  pose proof (Z.pow_le_mono_r 2 (Zdigits2 m) k). lia.
Qed.

Lemma Zdigits2_le (m : Z) (k : Z) : 0 < m -> m < 2 ^ k -> Zdigits2 m <= k.
Proof.
  intros Hm H. destruct (Zdigits2_bounds m Hm) as [Hl _].
  destruct (Z.le_gt_cases (Zdigits2 m) k); [assumption|].
  assert (0 <= k).
  { destruct (Z.lt_ge_cases k 0); [|lia]. rewrite Z.pow_neg_r in H by lia.
    lia. }
  pose proof (Z.pow_le_mono_r 2 k (Zdigits2 m - 1)). lia.
Qed.

Lemma shr_1_spec (mrs : shr_record) :
  0 <= shr_m mrs ->
  shr_m (shr_1 mrs) = shr_m mrs / 2 /\
  shr_exact (shr_1 mrs) = shr_exact mrs && Z.even (shr_m mrs).
Proof.
  destruct mrs as [m r s]. unfold shr_exact. simpl. intros Hm.
  destruct m as [|[p|p|]|p]; try lia; simpl shr_m; simpl shr_r; simpl shr_s.
  - split; [reflexivity|]. destruct r, s; reflexivity.
  - split; [|destruct r, s; reflexivity].
    rewrite Pos2Z.inj_xI. apply (Z.div_unique _ _ _ 1); lia.
  - split; [|destruct r, s; reflexivity].
    rewrite Pos2Z.inj_xO. apply (Z.div_unique _ _ _ 0); lia.
  - split; [reflexivity|]. destruct r, s; reflexivity.
Qed.

Lemma shifted_step (mrs0 mrs : shr_record) (n : Z) :
  0 <= shr_m mrs0 -> 0 <= n ->
  shifted mrs0 n mrs -> shifted mrs0 (n + 1) (shr_1 mrs).
Proof.
  intros H0 Hn [Hm He].
  assert (Hp : 0 < 2 ^ n) by (apply Z.pow_pos_nonneg; lia).
  assert (0 <= shr_m mrs) by (rewrite Hm; apply Z.div_pos; lia).
  destruct (shr_1_spec mrs H) as [Hm' He'].
  unfold shifted. rewrite pow2_succ by lia. split.
  - rewrite Hm', Hm, Z.div_div by lia. f_equal. lia.
  - rewrite He', He, Hm, <- andb_assoc. f_equal.
    rewrite (Z.mul_comm 2), Z.rem_mul_r by lia.
    pose proof (Z.mod_pos_bound (shr_m mrs0) (2 ^ n) Hp).
    pose proof (Z.mod_pos_bound (shr_m mrs0 / 2 ^ n) 2 ltac:(lia)).
    destruct (Z.eqb_spec (shr_m mrs0 mod 2 ^ n) 0) as [E | E].
    + rewrite E. simpl.
      rewrite Zeven_mod. 
      destruct (Z.eqb_spec ((shr_m mrs0 / 2 ^ n) mod 2) 0) as [E' | E'].
      * rewrite E'. symmetry. apply Z.eqb_eq. lia.
      * symmetry. apply Z.eqb_neq. nia.
    + simpl. symmetry. apply Z.eqb_neq. nia.
Qed.

Lemma shifted_iter (mrs0 : shr_record) (p : positive) :
  0 <= shr_m mrs0 ->
  forall (n : Z) (mrs : shr_record),
    0 <= n -> shifted mrs0 n mrs ->
    shifted mrs0 (n + Zpos p) (SpecFloat.iter_pos shr_1 p mrs).
Proof.
  intros H0. induction p as [p IH | p IH |]; intros n mrs Hn H; simpl.
  - replace (n + Zpos p~1) with (n + 1 + Zpos p + Zpos p) by lia.
    apply IH; [lia|]. apply IH; [lia|]. apply shifted_step; assumption.
  - replace (n + Zpos p~0) with (n + Zpos p + Zpos p) by lia.
    apply IH; [lia|]. apply IH; assumption.
  - apply shifted_step; assumption.
Qed.

Lemma shifted_start (m : Z) (l : location) :
  shifted (shr_record_of_loc m l) 0 (shr_record_of_loc m l).
Proof.
  split; [rewrite Z.div_1_r; reflexivity|].
  rewrite Z.mod_1_r. simpl. rewrite andb_true_r. reflexivity.
Qed.

Lemma shr_record_of_loc_m (m : Z) (l : location) :
  shr_m (shr_record_of_loc m l) = m.
Proof. destruct l as [|[| |]]; reflexivity. Qed.

Lemma shr_record_of_loc_exact (m : Z) (l : location) :
  shr_exact (shr_record_of_loc m l) = loc_exact l.
Proof. destruct l as [|[| |]]; reflexivity. Qed.

Lemma loc_of_shr_record_exact (mrs : shr_record) :
  loc_exact (loc_of_shr_record mrs) = shr_exact mrs.
Proof. destruct mrs as [m [|] [|]]; reflexivity. Qed.

(** [shr_fexp] moves the mantissa to the exponent [fexp (digits + e)] when
    that exponent is above [e]. *)
Lemma shr_fexp_spec (m e : Z) (l : location) :
  0 <= m ->
  let e' := Z.max e (fexp prec emax (Zdigits2 m + e)) in
  exists mrs : shr_record,
    shr_fexp prec emax m e l = (mrs, e') /\
    shr_m mrs = m / 2 ^ (e' - e) /\
    shr_exact mrs = loc_exact l && (m mod 2 ^ (e' - e) =? 0).
Proof.
  intros Hm e'. unfold shr_fexp, shr.
  destruct (fexp prec emax (Zdigits2 m + e) - e) as [|p|p] eqn:E.
  - exists (shr_record_of_loc m l). replace e' with e by lia.
    rewrite Z.sub_diag. pose proof (shifted_start m l) as [H1 H2].
    rewrite shr_record_of_loc_m, shr_record_of_loc_exact in *. auto.
  - exists (SpecFloat.iter_pos shr_1 p (shr_record_of_loc m l)).
    replace e' with (e + Zpos p) by lia. split; [reflexivity|].
    replace (e + Zpos p - e) with (0 + Zpos p) by lia.
    pose proof (shifted_iter (shr_record_of_loc m l) p) as H.
    rewrite shr_record_of_loc_m in H.
    destruct (H Hm 0 _ (Z.le_refl 0) (shifted_start m l)) as [H1 H2].
    rewrite shr_record_of_loc_m, shr_record_of_loc_exact in *. auto.
  - exists (shr_record_of_loc m l). replace e' with e by lia.
    rewrite Z.sub_diag. pose proof (shifted_start m l) as [H1 H2].
    rewrite shr_record_of_loc_m, shr_record_of_loc_exact in *. auto.
Qed.

Lemma round_nearest_even_bounds (m : Z) (l : location) :
  m <= round_nearest_even m l <= m + (if loc_exact l then 0 else 1).
Proof.
  destruct l as [|[| |]]; simpl; try lia. destruct (Z.even m); lia.
Qed.

(** Digits after a division by a power of two that leaves something. *)
Lemma Zdigits2_div_pow2 (m n : Z) :
  0 < m -> 0 <= n < Zdigits2 m ->
  0 < m / 2 ^ n /\ Zdigits2 (m / 2 ^ n) = Zdigits2 m - n.
Proof.
  intros Hm Hn. destruct (Zdigits2_bounds m Hm) as [Hl Hu].
  assert (Hp : 0 < 2 ^ n) by (apply Z.pow_pos_nonneg; lia).
  assert (E1 : 2 ^ (Zdigits2 m - 1) = 2 ^ (Zdigits2 m - 1 - n) * 2 ^ n)
    by (rewrite <- Z.pow_add_r by lia; f_equal; lia).
  assert (E2 : 2 ^ Zdigits2 m = 2 ^ (Zdigits2 m - n) * 2 ^ n)
    by (rewrite <- Z.pow_add_r by lia; f_equal; lia).
  assert (L : 2 ^ (Zdigits2 m - 1 - n) <= m / 2 ^ n).
  { apply Z.div_le_lower_bound; lia. }
  assert (U : m / 2 ^ n < 2 ^ (Zdigits2 m - n)).
  { apply Z.div_lt_upper_bound; lia. }
  assert (0 < 2 ^ (Zdigits2 m - 1 - n)) by (apply Z.pow_pos_nonneg; lia).
  split; [lia|].
  apply Z.le_antisymm.
  - apply Zdigits2_le; lia.
  - pose proof (Zdigits2_ge (m / 2 ^ n) (Zdigits2 m - 1 - n)). lia.
Qed.

Lemma Zdigits2_mono (a b : Z) : 0 < a <= b -> Zdigits2 a <= Zdigits2 b.
Proof.
  intros H. destruct (Zdigits2_bounds a) as [Hl _]; [lia|].
  pose proof (Zdigits2_pos a).
  pose proof (Zdigits2_ge b (Zdigits2 a - 1)). lia.
Qed.

Lemma fexp_eq (x : Z) : fexp prec emax x = Z.max (x - 53) (-1074).
Proof. reflexivity. Qed.

(** One [shr_fexp] on a positive mantissa that stays above the smallest
    exponent: the mantissa stays positive and the magnitude is kept. *)
Lemma shr_fexp_pos (m e : Z) (l : location) :
  0 < m -> -1074 < Zdigits2 m + e ->
  let e' := Z.max e (fexp prec emax (Zdigits2 m + e)) in
  exists mrs : shr_record,
    shr_fexp prec emax m e l = (mrs, e') /\
    shr_m mrs = m / 2 ^ (e' - e) /\
    shr_exact mrs = loc_exact l && (m mod 2 ^ (e' - e) =? 0) /\
    0 < shr_m mrs /\
    Zdigits2 (shr_m mrs) + e' = Zdigits2 m + e.
Proof.
  intros Hm Hmag e'.
  destruct (shr_fexp_spec m e l) as (mrs & E & H1 & H2); [lia|].
  exists mrs. fold e' in E, H1, H2. repeat split; try assumption.
  - rewrite H1. apply Zdigits2_div_pow2; [assumption|].
    pose proof (Zdigits2_pos m Hm). unfold e'. rewrite fexp_eq. lia.
  - rewrite H1.
    destruct (Zdigits2_div_pow2 m (e' - e)) as [_ ->]; [assumption| |lia].
    pose proof (Zdigits2_pos m Hm). unfold e'. rewrite fexp_eq. lia.
Qed.

(** The stages of [binary_round_aux] on a positive mantissa. *)
Lemma binary_round_aux_stages (s : bool) (mx ex : Z) (lx : location) :
  0 < mx -> -1074 < Zdigits2 mx + ex ->
  let e1 := Z.max ex (fexp prec emax (Zdigits2 mx + ex)) in
  let m1 := mx / 2 ^ (e1 - ex) in
  let exact1 := loc_exact lx && (mx mod 2 ^ (e1 - ex) =? 0) in
  exists m2 : Z,
    m1 <= m2 <= m1 + (if exact1 then 0 else 1) /\
    0 < m1 /\
    Zdigits2 m1 + e1 = Zdigits2 mx + ex /\
    let e3 := Z.max e1 (fexp prec emax (Zdigits2 m2 + e1)) in
    let m3 := m2 / 2 ^ (e3 - e1) in
    0 < m3 /\
    Zdigits2 m3 + e3 = Zdigits2 m2 + e1 /\
    binary_round_aux prec emax s mx ex lx =
    if e3 <=? emax - prec then S754_finite s (Z.to_pos m3) e3
    else S754_infinity s.
Proof.
  intros Hm Hmag e1 m1 exact1.
  destruct (shr_fexp_pos mx ex lx Hm Hmag) as (mrs & E & H1 & H2 & H3 & H4).
  fold e1 in E, H1, H2, H4. fold m1 in H1. fold exact1 in H2.
  set (m2 := round_nearest_even (shr_m mrs) (loc_of_shr_record mrs)).
  pose proof (round_nearest_even_bounds (shr_m mrs) (loc_of_shr_record mrs))
    as B.
  rewrite loc_of_shr_record_exact, H2 in B. fold m2 in B.
  rewrite H1 in B, H3, H4.
  exists m2. split; [exact B|]. split; [exact H3|]. split; [exact H4|].
  intros e3 m3.
  assert (Hm2 : 0 < m2) by lia.
  assert (Hmag2 : -1074 < Zdigits2 m2 + e1).
  { pose proof (Zdigits2_mono m1 m2). lia. }
  destruct (shr_fexp_pos m2 e1 loc_Exact Hm2 Hmag2)
    as (mrs' & E' & K1 & _ & K3 & K4).
  fold e3 in E', K1, K4. fold m3 in K1. rewrite K1 in K3, K4.
  split; [exact K3|]. split; [exact K4|].
  unfold binary_round_aux. rewrite E. fold m2. rewrite E', K1.
  destruct m3 as [|p|p] eqn:Em3; try lia. reflexivity.
Qed.

(** Rounding a positive value that is at most the bound [b * 2 ^ g] gives a
    finite Number that is at most the bound, and of no smaller magnitude
    than the value. *)
Lemma binary_round_aux_le (s : bool) (mx ex : Z) (lx : location) (b g : Z) :
  0 < mx -> -1074 < Zdigits2 mx + ex ->
  0 < b < 2 ^ 53 -> -1074 <= g <= 971 -> ex <= g ->
  mx + (if loc_exact lx then 0 else 1) <= b * 2 ^ (g - ex) ->
  exists m e : Z,
    binary_round_aux prec emax s mx ex lx = S754_finite s (Z.to_pos m) e /\
    0 < m /\ e <= g /\ m <= b * 2 ^ (g - e) /\
    Zdigits2 mx + ex <= Zdigits2 m + e.
Proof.
  intros Hm Hmag Hb Hg Hex Hle.
  destruct (binary_round_aux_stages s mx ex lx Hm Hmag)
    as (m2 & B & Hm1 & Hd1 & Hm3 & Hd3 & E).
  set (e1 := Z.max ex (fexp prec emax (Zdigits2 mx + ex))) in *.
  set (m1 := mx / 2 ^ (e1 - ex)) in *.
  set (e3 := Z.max e1 (fexp prec emax (Zdigits2 m2 + e1))) in *.
  set (m3 := m2 / 2 ^ (e3 - e1)) in *.
  assert (P53 : 0 < 2 ^ 53) by (apply Z.pow_pos_nonneg; lia).
  (* magnitudes under the bound *)
  assert (Hmagb : forall m e, 0 < m -> e <= g -> m <= b * 2 ^ (g - e) ->
                    Zdigits2 m + e <= 53 + g).
  { intros m e H0 He H.
    assert (0 < 2 ^ (g - e)) by (apply Z.pow_pos_nonneg; lia).
    assert (m < 2 ^ (53 + (g - e))) by (rewrite Z.pow_add_r by lia; nia).
    pose proof (Zdigits2_le m (53 + (g - e)) H0 H2). lia. }
  assert (He1 : e1 <= g).
  { pose proof (Hmagb mx ex Hm Hex). unfold e1. rewrite fexp_eq.
    destruct (loc_exact lx); lia. }
  (* first stage *)
  assert (Hp1 : 0 < 2 ^ (e1 - ex)) by (apply Z.pow_pos_nonneg; lia).
  assert (Hsplit : b * 2 ^ (g - ex) = b * 2 ^ (g - e1) * 2 ^ (e1 - ex)).
  { rewrite <- Z.mul_assoc, <- Z.pow_add_r by lia. do 2 f_equal. lia. }
  assert (H2 : m2 <= b * 2 ^ (g - e1)).
  { destruct (loc_exact lx && (mx mod 2 ^ (e1 - ex) =? 0)) eqn:Ex.
    - apply andb_true_iff in Ex as [Ex1 Ex2]. rewrite Ex1 in Hle.
      apply Z.eqb_eq in Ex2.
      assert (m1 <= b * 2 ^ (g - e1)); [|lia].
      unfold m1. apply Z.div_le_upper_bound; [lia|]. lia.
    - assert (mx < b * 2 ^ (g - ex)).
      { apply andb_false_iff in Ex as [Ex | Ex].
        - rewrite Ex in Hle. lia.
        - apply Z.eqb_neq in Ex.
          assert (mx <> b * 2 ^ (g - ex)); [|destruct (loc_exact lx); lia].
          intros ->. apply Ex. rewrite Hsplit. apply Z.mod_mul. lia. }
      assert (m1 < b * 2 ^ (g - e1)); [|lia].
      unfold m1. apply Z.div_lt_upper_bound; [lia|]. lia. }
  assert (H2pos : 0 < m2) by lia.
  assert (He3 : e3 <= g).
  { pose proof (Hmagb m2 e1 H2pos He1 H2). unfold e3. rewrite fexp_eq. lia. }
  assert (Hp3 : 0 < 2 ^ (e3 - e1)) by (apply Z.pow_pos_nonneg; lia).
  assert (Hsplit3 : b * 2 ^ (g - e1) = b * 2 ^ (g - e3) * 2 ^ (e3 - e1)).
  { rewrite <- Z.mul_assoc, <- Z.pow_add_r by lia. do 2 f_equal. lia. }
  assert (H3 : m3 <= b * 2 ^ (g - e3)).
  { unfold m3. apply Z.div_le_upper_bound; [lia|]. lia. }
  exists m3, e3. split.
  - rewrite E. unfold emax, prec.
    destruct (Z.leb_spec e3 (1024 - 53)); [reflexivity | lia].
  - repeat split; try assumption.
    pose proof (Zdigits2_mono m1 m2). lia.
Qed.

Lemma new_location_exact (n k : Z) :
  loc_exact (new_location n k) = (k =? 0).
Proof.
  unfold new_location, new_location_even, new_location_odd.
  destruct (Z.even n), (k =? 0); reflexivity.
Qed.

Lemma div_eucl_eq (a b : Z) : Z.div_eucl a b = (a / b, a mod b).
Proof. unfold Z.div, Z.modulo. destruct (Z.div_eucl a b). reflexivity. Qed.

Lemma dec_100 : dec 100 0 = one_hundred.
Proof. vm_compute. reflexivity. Qed.

(** The quotient of two normal Numbers, the first at most the second and
    not under 1, is a finite positive Number at most 1. *)
Lemma num_div_le_one (mc mM : positive) (ec eM : Z) :
  Zdigits2 (Zpos mc) = 53 -> Zdigits2 (Zpos mM) = 53 ->
  -52 <= ec -> eM <= 971 ->
  ec < eM \/ (ec = eM /\ Zpos mc <= Zpos mM) ->
  exists m e : Z,
    num_div (S754_finite false mc ec) (S754_finite false mM eM) =
    S754_finite false (Z.to_pos m) e /\
    0 < m /\ e <= -52 /\ m <= 2 ^ 52 * 2 ^ (-52 - e) /\
    -1023 <= Zdigits2 m + e.
Proof.
  intros Dc DM Hec HeM Hle.
  destruct (Zdigits2_bounds (Zpos mc)) as [Lc Uc]; [lia|].
  destruct (Zdigits2_bounds (Zpos mM)) as [LM UM]; [lia|].
  rewrite Dc in Lc, Uc. rewrite DM in LM, UM.
  change (53 - 1) with 52 in *.
  assert (P52 : 2 ^ 53 = 2 * 2 ^ 52) by reflexivity.
  assert (P52' : 0 < 2 ^ 52) by reflexivity.
  set (e' := Z.max (ec - eM - 53) (-1074)).
  set (s := ec - eM - e').
  assert (Hs : 51 <= s <= 53) by (unfold s, e'; clear - Hec HeM Hle; lia).
  set (q := Zpos mc * 2 ^ s / Zpos mM).
  set (r := (Zpos mc * 2 ^ s) mod Zpos mM).
  assert (Core : SFdiv_core_binary prec emax (Zpos mc) ec (Zpos mM) eM =
                 (q, e', new_location (Zpos mM) r)).
  { unfold SFdiv_core_binary. rewrite Dc, DM, fexp_eq.
    replace (Z.min (Z.max (53 + ec - (53 + eM) - 53) (-1074)) (ec - eM))
      with e' by (unfold e'; clear - Hec HeM Hle; lia).
    fold s. destruct s as [|p|p] eqn:Es; try lia.
    rewrite Z.shiftl_mul_pow2 by lia. rewrite div_eucl_eq. reflexivity. }
  unfold num_div, SFdiv. rewrite Core. simpl xorb.
  assert (Ps : 0 < 2 ^ s) by (apply Z.pow_pos_nonneg; lia).
  assert (Ps' : 2 ^ s = 2 ^ (s - 1) * 2).
  { replace s with (s - 1 + 1) at 1 by lia. rewrite pow2_succ by lia. lia. }
  assert (Ps'' : 0 < 2 ^ (s - 1)) by (apply Z.pow_pos_nonneg; lia).
  assert (Hqr : Zpos mc * 2 ^ s = Zpos mM * q + r)
    by (apply Z.div_mod; lia).
  assert (Hr : 0 <= r < Zpos mM) by (apply Z.mod_pos_bound; lia).
  assert (Hq : 2 ^ (s - 1) <= q).
  { unfold q. apply Z.div_le_lower_bound; [lia|]. nia. }
  assert (Dq : s - 1 < Zdigits2 q) by (apply Zdigits2_ge; lia).
  assert (Hpow : 0 < 2 ^ (eM - ec)) by (apply Z.pow_pos_nonneg; lia).
  assert (Hval : Zpos mc <= Zpos mM * 2 ^ (eM - ec)).
  { destruct Hle as [Hlt | [-> Hm]].
    - assert (2 ^ 1 <= 2 ^ (eM - ec)) by (apply Z.pow_le_mono_r; lia).
      change (2 ^ 1) with 2 in H. nia.
    - rewrite Z.sub_diag. change (2 ^ 0) with 1. lia. }
  assert (HX : 2 ^ 52 * 2 ^ (-52 - e') = 2 ^ (eM - ec) * 2 ^ s).
  { rewrite <- !Z.pow_add_r by lia. f_equal. lia. }
  destruct (binary_round_aux_le false q e' (new_location (Zpos mM) r)
              (2 ^ 52) (-52))
    as (m & e & E & Hm & He & Hb & Hmag); try lia.
  - rewrite new_location_exact, HX.
    assert (Zpos mM * q + r <= Zpos mM * (2 ^ (eM - ec) * 2 ^ s)) by nia.
    destruct (Z.eqb_spec r 0); nia.
  - exists m, e. repeat split; try assumption. lia.
Qed.

(** A finite positive Number at most 1 and not tiny, times 100, is a finite
    positive Number at most 100. *)
Lemma num_mul_100_le (m e : Z) :
  0 < m -> e <= -52 -> m <= 2 ^ 52 * 2 ^ (-52 - e) ->
  -1023 <= Zdigits2 m + e ->
  exists m' e' : Z,
    num_mul (S754_finite false (Z.to_pos m) e) (dec 100 0) =
    S754_finite false (Z.to_pos m') e' /\
    0 < m' /\ e' <= -46 /\ m' <= 7036874417766400 * 2 ^ (-46 - e').
Proof.
  intros Hm He Hb Hmag. rewrite dec_100. unfold num_mul, one_hundred, SFmul.
  simpl xorb. rewrite Pos2Z.inj_mul, Z2Pos.id by lia.
  destruct (Zdigits2_bounds m Hm) as [Lm _].
  pose proof (Zdigits2_pos m Hm) as Dm.
  assert (P : 0 < 2 ^ (Zdigits2 m - 1)) by (apply Z.pow_pos_nonneg; lia).
  assert (D : Zdigits2 m - 1 + 52 < Zdigits2 (m * 7036874417766400)).
  { apply Zdigits2_ge; [lia|]. rewrite Z.pow_add_r by lia.
    change (2 ^ 52) with 4503599627370496. nia. }
  assert (HX : 2 ^ 52 * 2 ^ (-52 - e) = 2 ^ (-46 - (e + -46))).
  { rewrite <- Z.pow_add_r by lia. f_equal. lia. }
  destruct (binary_round_aux_le false (m * 7036874417766400) (e + -46)
              loc_Exact 7036874417766400 (-46))
    as (m' & e' & E & Hm' & He' & Hb' & _); try lia.
  - simpl loc_exact. rewrite <- HX. nia.
  - exists m', e'. repeat split; assumption.
Qed.

(** ** Widths of the chart *)


Lemma dec_1 : dec 1 0 = S754_finite false 4503599627370496 (-52).
Proof. vm_compute. reflexivity. Qed.

Lemma dec_5 : dec 5 0 = S754_finite false 5629499534213120 (-50).
Proof. vm_compute. reflexivity. Qed.

(** A whole count other than zero is a normal Number from 1 up. *)
Lemma whole_count_finite (s : bool) (m : positive) (e : Z) :
  whole_count (S754_finite s m e) = true ->
  s = false /\ Zdigits2 (Zpos m) = 53 /\ -52 <= e <= 971.
Proof.
  destruct s; [discriminate|]. unfold whole_count. rewrite dec_1.
  unfold valid_binary, bounded, canonical_mantissa, num_ge, SFleb, SFcompare.
  rewrite fexp_eq. unfold emax, prec.
  intros H. apply andb_true_iff in H as [H1 H2].
  apply andb_true_iff in H1 as [H0 H1].
  apply Z.eqb_eq in H0. apply Z.leb_le in H1. simpl Zdigits2.
  destruct (Z.compare_spec (-52) e) as [E | E | E]; try discriminate; lia.
Qed.

Lemma whole_count_notNaN (c : number) :
  whole_count c = true -> isNaN c = false.
Proof. destruct c; try discriminate; reflexivity. Qed.

(** The order of two whole counts other than zero, on their parts. *)
Lemma num_ge_finite (mM mc : positive) (eM ec : Z) :
  num_ge (S754_finite false mM eM) (S754_finite false mc ec) = true ->
  ec < eM \/ (ec = eM /\ Zpos mc <= Zpos mM).
Proof.
  unfold num_ge, SFleb, SFcompare.
  destruct (Z.compare_spec ec eM) as [E | E | E]; try discriminate; try lia.
  fold (Pos.compare mc mM).
  destruct (Pos.compare_spec mc mM); try discriminate; lia.
Qed.

Lemma num_ge_refl (x : number) : isNaN x = false -> num_ge x x = true.
Proof. intros H. apply num_ge_key. auto. Qed.

Lemma num_lt_ge (x y : number) : num_lt x y = true -> num_ge y x = true.
Proof. rewrite num_lt_key, num_ge_key. tauto. Qed.

Lemma num_not_lt_ge (x y : number) :
  isNaN x = false -> isNaN y = false -> num_lt x y = false -> num_ge x y = true.
Proof.
  intros Hx Hy H. destruct (num_ge x y) eqn:E; [reflexivity|].
  rewrite (num_not_ge_lt x y Hx Hy E) in H. discriminate.
Qed.

(** [Math.max] from a whole count over whole counts is the greatest of
    them. *)
Lemma Math_max_from_whole (xs : list number) :
  forall h : number,
    whole_count h = true -> Forall (fun c => whole_count c = true) xs ->
    whole_count (Math_max_from h xs) = true /\
    num_ge (Math_max_from h xs) h = true /\
    Forall (fun c => num_ge (Math_max_from h xs) c = true) xs /\
    In (Math_max_from h xs) (h :: xs).
Proof.
  induction xs as [|x xs IH]; intros h Hh Hxs.
  - simpl. repeat split; auto. apply num_ge_refl, whole_count_notNaN, Hh.
  - apply Forall_cons in Hxs as [Hx Hxs]. simpl Math_max_from.
    rewrite (whole_count_notNaN x Hx).
    set (h' := match x, h with
               | S754_zero false, S754_zero true => x
               | _, _ => h
               end).
    assert (Hh' : whole_count h' = true /\ num_ge h' h = true /\
                  (h' = h \/ h' = x)).
    { pose proof (num_ge_refl h (whole_count_notNaN h Hh)).
      unfold h'. destruct x as [[|]| | |]; auto.
      destruct h as [[|]| | |]; auto. }
    destruct Hh' as (Wh' & Gh' & Ih').
    set (h'' := if num_gt x h' then x else h').
    assert (Hh'' : whole_count h'' = true /\ num_ge h'' h' = true /\
                   num_ge h'' x = true /\ (h'' = h' \/ h'' = x)).
    { unfold h'', num_gt. fold (num_lt h' x).
      destruct (num_lt h' x) eqn:E.
      - repeat split; auto. + apply num_lt_ge, E.
        + apply num_ge_refl, whole_count_notNaN, Hx.
      - repeat split; auto. + apply num_ge_refl, whole_count_notNaN, Wh'.
        + apply num_not_lt_ge; auto using whole_count_notNaN. }
    destruct Hh'' as (Wh'' & Gh'' & Gx & Ih'').
    destruct (IH h'' Wh'' Hxs) as (WM & GM & FM & IM).
    repeat split.
    + exact WM.
    + apply (num_ge_trans _ h'' _ GM). apply (num_ge_trans _ h' _ Gh'' Gh').
    + constructor; [apply (num_ge_trans _ h'' _ GM Gx) | exact FM].
    + destruct IM as [IM | IM]; [|right; right; exact IM].
      rewrite <- IM. destruct Ih'' as [-> | ->]; [|right; left; reflexivity].
      destruct Ih' as [-> | ->]; [left | right; left]; reflexivity.
Qed.

Lemma Math_max_whole (x : number) (xs : list number) :
  Forall (fun c => whole_count c = true) (x :: xs) ->
  whole_count (Math_max (x :: xs)) = true /\
  Forall (fun c => num_ge (Math_max (x :: xs)) c = true) (x :: xs) /\
  In (Math_max (x :: xs)) (x :: xs).
Proof.
  intros H. apply Forall_cons in H as [Hx Hxs].
  assert (E : Math_max (x :: xs) = Math_max_from x xs).
  { unfold Math_max. simpl. rewrite (whole_count_notNaN x Hx).
    destruct x as [[|]| | |[|] m e]; try discriminate; reflexivity. }
  rewrite E. destruct (Math_max_from_whole xs x Hx Hxs) as (W & G & F & I).
  repeat split; [exact W | constructor; assumption | exact I].
Qed.

Lemma compare_cont_le (p q : positive) :
  (p <= q)%positive ->
  match Pos.compare_cont Eq p q with Gt => false | _ => true end = true.
Proof.
  intros H. fold (Pos.compare p q).
  destruct (Pos.compare_spec p q); try reflexivity. lia.
Qed.

Lemma width_zero (s : bool) (M : number) :
  whole_count M = true -> truthy M = true ->
  width (S754_zero s) M = dec 5 0.
Proof.
  intros W T. destruct M as [| | |[|] m e]; try discriminate.
  unfold width, num_div, SFdiv. rewrite dec_100. reflexivity.
Qed.

(** The width of a bucket that is not empty, under a greatest count: the
    proportion itself, above 0 and at most 100. *)
Lemma width_nonzero (c M : number) :
  whole_count c = true -> whole_count M = true ->
  truthy c = true -> num_ge M c = true ->
  width c M = num_mul (num_div c M) (dec 100 0) /\
  num_gt (width c M) pos_zero = true /\
  num_ge (dec 100 0) (width c M) = true.
Proof.
  intros Wc WM Tc Hge.
  destruct c as [| | |sc mc ec]; try discriminate.
  destruct (whole_count_finite _ _ _ Wc) as (-> & Dc & Hec).
  destruct M as [sM| | |sM mM eM]; try discriminate.
  destruct (whole_count_finite _ _ _ WM) as (-> & DM & HeM).
  pose proof (num_ge_finite _ _ _ _ Hge) as Hle.
  destruct (num_div_le_one mc mM ec eM Dc DM)
    as (m & e & E & Hm & He & Hb & Hmag); try lia.
  destruct (num_mul_100_le m e Hm He Hb Hmag)
    as (m' & e' & E' & Hm' & He' & Hb').
  assert (Ew : width (S754_finite false mc ec) (S754_finite false mM eM) =
               S754_finite false (Z.to_pos m') e')
    by (unfold width; rewrite E, E'; reflexivity).
  rewrite Ew, E, E'. split; [reflexivity|]. split; [reflexivity|].
  rewrite dec_100. unfold num_ge, SFleb, SFcompare, one_hundred.
  destruct (Z.compare_spec e' (-46)) as [Ee | Ee | Ee]; try reflexivity;
    [|clear - He' Ee; lia].
  subst e'. rewrite Z.sub_diag, Z.pow_0_r, Z.mul_1_r in Hb'.
  apply compare_cont_le. clear - Hb' Hm'. lia.
Qed.

Lemma whole_count_le_zero (s : bool) (c : number) :
  whole_count c = true -> num_ge (S754_zero s) c = true -> truthy c = false.
Proof.
  destruct c as [| | |[|] m e]; try discriminate; try reflexivity.
Qed.

Lemma DistributionChart_cons (e : string * number)
  (l : list (string * number)) :
  DistributionChart (Some (e :: l)) =
  DistChart (map (fun e' => {| dist_label := fst e';
                               dist_bar_width :=
                                 width (snd e') (maxCount (e :: l));
                               dist_count := snd e' |}) (e :: l)).
Proof.
  unfold DistributionChart. simpl default. cbv beta iota zeta. f_equal.
  apply map_ext. intros [label c]. reflexivity.
Qed.

(** C7, amended. For every bucket map that is not empty and whose counts
    are whole, the greatest count [M] is one of the counts and no count is
    above it; the bar of each bucket is [(count / M) * 100] percent wide,
    except that a bucket whose count is 0 gets 5 percent; and every width is
    above 0 and at most 100 percent. A width is not held at 5 percent or
    more: only an empty bucket is given the floor. The counts 0, 4 and 2 are
    drawn 5, 100 and 50 percent wide. *)
Theorem DistributionChart_widths :
  (forall entries : list (string * number),
     entries <> [] ->
     Forall (fun e => whole_count (snd e) = true) entries ->
     let M := Math_max (map snd entries) in
     In M (map snd entries) /\
     Forall (fun e => num_ge M (snd e) = true) entries /\
     exists rows : list dist_row,
       DistributionChart (Some entries) = DistChart rows /\
       rows = map (fun e => {| dist_label := fst e;
                               dist_bar_width := chart_width (snd e) M;
                               dist_count := snd e |}) entries /\
       Forall (fun r => num_gt (dist_bar_width r) pos_zero = true /\
                        num_ge (dec 100 0) (dist_bar_width r) = true) rows) /\
  DistributionChart (Some three_buckets) =
  DistChart [ {| dist_label := "A"; dist_bar_width := dec 5 0;
                 dist_count := dec 0 0 |};
              {| dist_label := "B"; dist_bar_width := dec 100 0;
                 dist_count := dec 4 0 |};
              {| dist_label := "C"; dist_bar_width := dec 50 0;
                 dist_count := dec 2 0 |} ].
Proof.
  split; [|vm_compute; reflexivity].
  intros entries Hne HW M.
  destruct entries as [|e0 rest]; [congruence|]. clear Hne.
  assert (HW' : Forall (fun c => whole_count c = true) (map snd (e0 :: rest))).
  { rewrite Forall_fmap. exact HW. }
  pose proof (Math_max_whole (snd e0) (map snd rest) HW') as HM.
  change (snd e0 :: map snd rest) with (map snd (e0 :: rest)) in HM.
  fold M in HM. destruct HM as (WM & GM & IM).
  rewrite Forall_fmap in GM.
  split; [exact IM|]. split; [exact GM|].
  rewrite DistributionChart_cons. unfold maxCount. fold M.
  clearbody M. eexists. split; [reflexivity|].
  assert (Hrow : forall e : string * number,
            whole_count (snd e) = true -> num_ge M (snd e) = true ->
            width (snd e) (num_or M (dec 1 0)) = chart_width (snd e) M /\
            num_gt (chart_width (snd e) M) pos_zero = true /\
            num_ge (dec 100 0) (chart_width (snd e) M) = true).
  { intros [label c] Wc Gc. simpl snd in *. unfold chart_width, num_or.
    destruct (truthy c) eqn:Tc.
    - assert (TM : truthy M = true).
      { destruct (truthy M) eqn:TM; [reflexivity|].
        destruct M as [s| | |]; try discriminate.
        rewrite (whole_count_le_zero s c Wc Gc) in Tc. discriminate. }
      rewrite TM.
      destruct (width_nonzero c M Wc WM Tc Gc) as (E & H1 & H2).
      rewrite <- E. auto.
    - destruct c as [s| | |]; try discriminate.
      assert (E : width (S754_zero s) (if truthy M then M else dec 1 0) =
                  dec 5 0).
      { destruct (truthy M) eqn:TM; [apply width_zero; assumption|].
        apply width_zero; vm_compute; reflexivity. }
      rewrite E. split; [reflexivity|]. split; vm_compute; reflexivity. }
  split.
  - apply map_ext_Forall.
    eapply Forall_impl; [apply Forall_and; split; [exact HW | exact GM]|].
    intros [label c] [Wc Gc]. destruct (Hrow (label, c) Wc Gc) as (E & _).
    cbn [fst snd] in *. rewrite E. reflexivity.
  - rewrite Forall_fmap.
    eapply Forall_impl; [apply Forall_and; split; [exact HW | exact GM]|].
    intros [label c] [Wc Gc]. destruct (Hrow (label, c) Wc Gc) as (E & H).
    unfold compose. cbn [dist_bar_width fst snd] in *. rewrite E. exact H.
Qed.

Lemma DistributionChart_widths_witness :
  three_buckets <> [] /\
  Forall (fun e => whole_count (snd e) = true) three_buckets /\
  In (Math_max (map snd three_buckets)) (map snd three_buckets).
Proof.
  assert (Hne : three_buckets <> []) by discriminate.
  assert (HW : Forall (fun e => whole_count (snd e) = true) three_buckets)
    by (repeat constructor; vm_compute; reflexivity).
  split; [exact Hne | split; [exact HW|]].
  exact (proj1 (proj1 DistributionChart_widths three_buckets Hne HW)).
Defined.

(** * The table, the chart and the pages as a whole *)

(** ** The rows of the table *)

Lemma rankedStudents_erase (l : list student) :
  map without_rank (rankedStudents l) = l.
Proof.
  apply list_eq. intros i. unfold rankedStudents.
  change (map without_rank) with (fmap (M:=list) without_rank).
  rewrite list_lookup_fmap, list_lookup_imap.
  destruct (l !! i) as [[u n g]|]; reflexivity.
Qed.

Lemma filter_bool_prop {A : Type} (p : A -> bool) (l : list A) :
  List.filter p l = filter (fun x => p x = true) l.
Proof.
  induction l as [|x l IH]; [reflexivity|]. simpl. rewrite filter_cons.
  destruct (p x) eqn:E.
  - rewrite decide_True by reflexivity. rewrite IH. reflexivity.
  - rewrite decide_False by discriminate. exact IH.
Qed.

Lemma StronglySorted_filter {A : Type} (R : A -> A -> Prop) (P : A -> Prop)
  `{!forall x, Decision (P x)} (l : list A) :
  StronglySorted R l -> StronglySorted R (filter P l).
Proof.
  induction 1 as [|x l Hs IH Hx]; [constructor|].
  rewrite filter_cons. destruct (decide (P x)); [|exact IH].
  constructor; [exact IH|].
  rewrite Forall_forall in *. intros y Hy. apply Hx.
  apply list_elem_of_filter in Hy. tauto.
Qed.

Lemma sorted_Forall (P : student -> Prop) (field : sort_field)
  (o : sort_order) (l : list student) :
  Forall P l -> Forall P (sorted field o l).
Proof. intros H. unfold sorted. rewrite sort_Permutation. exact H. Qed.

(** X1. Whatever the column, the direction and the search text, the rows
    of the table are the records that match the search, each one once and
    none other: without their ranks they are a rearrangement of the
    filtered list. The table body has as many rows as the first number of
    "Showing n of m students", and n is never above m. *)
Theorem table_rows_permutation (st : table_state) (students : list student) :
  map without_rank (rankedStudents (shown st students)) ≡ₚ
    filtered (searchTerm st) students /\
  length (table_body st students) = fst (table_info st students) /\
  (fst (table_info st students) <= snd (table_info st students))%nat.
Proof.
  unfold shown, table_body, table_info. simpl. split; [|split].
  - rewrite rankedStudents_erase. apply sort_Permutation.
  - rewrite length_imap. unfold rankedStudents. rewrite length_imap.
    reflexivity.
  - unfold sorted. rewrite sort_length.
    apply sublist_length, filter_sublist.
Qed.

(** X2. Searching does not reorder the table: when the comparator of the
    column is consistent on the records, filtering before the sort, as the
    component does, gives the rows of the sorted full list that match, in
    the same order. *)
Theorem search_keeps_order (field : sort_field) (o : sort_order) (q : string)
  (students : list student) :
  Forall (fun s => sortable field s = true) students ->
  sorted field o (filtered q students) = filtered q (sorted field o students).
Proof.
  intros HD. symmetry. apply sorted_unique.
  - apply filtered_Forall, HD.
  - apply filtered_Forall, sorted_Forall, HD.
  - unfold filtered. rewrite filter_bool_prop.
    apply StronglySorted_filter, sorted_ordered, HD.
  - intros P dec HP. unfold filtered. rewrite !filter_bool_prop.
    rewrite !list_filter_filter. unfold sorted. apply sort_stable.
    intros x y [Hx _] [Hy _]. apply HP; assumption.
Qed.

Lemma search_keeps_order_witness :
  Forall (fun s => sortable by_sgpa s = true) [cara; alice; bob] /\
  sorted by_sgpa desc (filtered "a" [cara; alice; bob]) =
  filtered "a" (sorted by_sgpa desc [cara; alice; bob]).
Proof.
  assert (H : Forall (fun s => sortable by_sgpa s = true) [cara; alice; bob]).
  { repeat constructor. }
  split; [exact H|]. exact (search_keeps_order by_sgpa desc "a" _ H).
Defined.

(** ** Ranks and scores *)

Lemma rank_at_lower (l : list student) (i : nat) (s : student) :
  1 <= rank_at l i s.
Proof.
  destruct i as [|p]; [rewrite rank_at_first; lia|].
  destruct (l !! p) as [prev|] eqn:Hp.
  - destruct (strict_eq (sgpa prev) (sgpa s)) eqn:E.
    + destruct (rank_at_tied _ _ _ _ Hp E) as (j & _ & _ & ->). lia.
    + rewrite (rank_at_not_tied _ _ _ _ Hp E). lia.
  - unfold rank_at. simpl. rewrite Hp. lia.
Qed.

Lemma rankedStudents_lookup_inv (l : list student) (i : nat)
  (r : ranked_student) :
  rankedStudents l !! i = Some r ->
  l !! i = Some (without_rank r) /\
  rank r = rank_at l i (without_rank r).
Proof.
  intros H. destruct (l !! i) as [s|] eqn:Hs.
  - rewrite (rankedStudents_lookup _ _ _ Hs) in H. injection H as <-.
    destruct s; split; reflexivity.
  - unfold rankedStudents in H. rewrite list_lookup_imap, Hs in H.
    discriminate.
Qed.

(** X3. For every list, sorted or not and whatever the scores are, the
    rank of the row at index [i] is at least 1 and at most [i + 1]: the
    search for the first equal score never answers [-1] where it is
    used. *)
Theorem rank_bounds (l : list student) (i : nat) (r : ranked_student) :
  rankedStudents l !! i = Some r -> 1 <= rank r <= Z.of_nat i + 1.
Proof.
  intros H. apply rankedStudents_lookup_inv in H as [Hs ->]. split.
  - apply rank_at_lower.
  - apply rank_at_upper, Hs.
Qed.

Lemma rank_bounds_witness :
  exists r : ranked_student,
    rankedStudents [alice; bob; cara] !! 2%nat = Some r /\
    1 <= rank r <= Z.of_nat 2 + 1.
Proof.
  eexists. split; [reflexivity|].
  apply (rank_bounds [alice; bob; cara] 2). reflexivity.
Defined.

Lemma key_lt_trichotomy (k k' : Z * Z * Z) :
  key_lt k k' \/ k = k' \/ key_lt k' k.
Proof.
  destruct k as [[a b] c], k' as [[a' b'] c']. unfold key_lt.
  destruct (Z.eq_dec a a') as [->|], (Z.eq_dec b b') as [->|],
    (Z.eq_dec c c') as [->|]; try lia; auto.
Qed.

Lemma key_lt_irrefl (k : Z * Z * Z) : ~ key_lt k k.
Proof. destruct k as [[a b] c]. unfold key_lt. lia. Qed.

Lemma key_lt_asym (k k' : Z * Z * Z) : key_lt k k' -> ~ key_lt k' k.
Proof.
  destruct k as [[a b] c], k' as [[a' b'] c']. unfold key_lt. lia.
Qed.

Lemma outranks_key (o : sort_order) (t s : student) :
  coercible t = true -> coercible s = true ->
  (outranks o t s = true <->
   match o with
   | asc => key_lt (score_key t) (score_key s)
   | desc => key_lt (score_key s) (score_key t)
   end).
Proof.
  unfold coercible, score_key, outranks, num_gt. rewrite !negb_true_iff.
  intros Ht Hs. destruct o; rewrite num_lt_key; tauto.
Qed.

(** In a list sorted by score, the rank of a record is one more than the
    first index that holds its score. *)
Lemma rank_at_first_index (o : sort_order) (l : list student) (i : nat)
  (s : student) :
  Forall numeric_score l ->
  StronglySorted (fun a b => comparator by_sgpa o a b <= 0) l ->
  l !! i = Some s ->
  exists (j : nat) (sj : student),
    rank_at l i s = Z.of_nat j + 1 /\ (j <= i)%nat /\ l !! j = Some sj /\
    score_key sj = score_key s /\
    forall k sk, (k < j)%nat -> l !! k = Some sk ->
      score_key sk <> score_key s.
Proof.
  intros HD Hs Hi. rewrite Forall_forall in HD.
  assert (N : forall k x, l !! k = Some x -> numeric_score x).
  { intros k x Hx. eapply HD, list_elem_of_lookup_2, Hx. }
  assert (Ns := N _ _ Hi).
  destruct i as [|p].
  { exists O, s. rewrite rank_at_first. repeat split; auto; intros; lia. }
  destruct (l !! p) as [prev|] eqn:Hp;
    [|apply lookup_lt_Some in Hi; apply lookup_ge_None in Hp; lia].
  assert (Np := N _ _ Hp).
  destruct (strict_eq (sgpa prev) (sgpa s)) eqn:E.
  - destruct (rank_at_tied _ _ _ _ Hp E)
      as (j & [(sj & Hj & Hsj) Hfirst] & Hjp & ->).
    exists j, sj. split; [reflexivity|]. split; [lia|]. split; [exact Hj|].
    split.
    + apply (strict_eq_numeric sj s (N _ _ Hj) Ns), Hsj.
    + intros k sk Hk Hsk Ek.
      apply (strict_eq_numeric sk s (N _ _ Hsk) Ns) in Ek.
      rewrite (Hfirst k sk Hk Hsk) in Ek. discriminate.
  - exists (S p), s. rewrite (rank_at_not_tied _ _ _ _ Hp E).
    split; [reflexivity|]. split; [lia|]. split; [exact Hi|].
    split; [reflexivity|].
    intros k sk Hk Hsk Ek. apply not_true_iff_false in E. apply E.
    apply (strict_eq_numeric prev s Np Ns).
    destruct (Nat.eq_dec k p) as [->|Hne].
    + rewrite Hp in Hsk. injection Hsk as ->. exact Ek.
    + apply (comparator_sgpa_between o sk prev s);
        try (apply coercible_numeric; eauto).
      * apply (StronglySorted_lookup _ l k p sk prev Hs); [lia|auto|auto].
      * apply (StronglySorted_lookup _ l p (S p) prev s Hs); [lia|auto|auto].
      * exact Ek.
Qed.

Lemma filter_prefix_length {A : Type} (p : A -> bool) (l : list A) :
  forall j : nat,
    (j <= length l)%nat ->
    (forall k x, l !! k = Some x -> p x = true <-> (k < j)%nat) ->
    length (List.filter p l) = j.
Proof.
  induction l as [|x l IH]; intros j Hj H; simpl in *.
  - lia.
  - destruct j as [|j].
    + assert (E : p x = false).
      { apply not_true_iff_false. intros T.
        apply (H O x eq_refl) in T. lia. }
      rewrite E. apply IH; [lia|]. intros k y Hy. split; [|lia].
      intros T. apply (H (S k) y Hy) in T. lia.
    + assert (E : p x = true) by (apply (H O x eq_refl); lia).
      rewrite E. simpl. f_equal. apply IH; [lia|].
      intros k y Hy. rewrite (H (S k) y Hy). lia.
Qed.

(** In a list sorted by score, the rank of a record is one more than the
    number of records with a strictly better score. *)
Lemma rank_at_better_scores (o : sort_order) (l : list student) (i : nat)
  (s : student) :
  Forall numeric_score l ->
  StronglySorted (fun a b => comparator by_sgpa o a b <= 0) l ->
  l !! i = Some s ->
  rank_at l i s = better_scores o l s + 1.
Proof.
  intros HD Hs Hi.
  destruct (rank_at_first_index o l i s HD Hs Hi)
    as (j & sj & -> & Hji & Hj & Ej & Hfirst).
  rewrite Forall_forall in HD.
  assert (C : forall k x, l !! k = Some x -> coercible x = true).
  { intros k x Hx. eapply coercible_numeric, HD, list_elem_of_lookup_2, Hx. }
  unfold better_scores. f_equal. f_equal. symmetry.
  apply filter_prefix_length.
  - apply lookup_lt_Some in Hj. lia.
  - intros k x Hx. rewrite (outranks_key o x s (C _ _ Hx) (C _ _ Hi)).
    destruct (Nat.lt_ge_cases k j) as [Hlt|Hge].
    + split; [intros _; exact Hlt|intros _].
      pose proof (StronglySorted_lookup _ l k j x sj Hs Hlt Hx Hj) as L.
      simpl in L.
      rewrite (comparator_sgpa_le o x sj (C _ _ Hx) (C _ _ Hj)) in L.
      pose proof (Hfirst k x Hlt Hx) as Ne. rewrite <- Ej in *.
      destruct (key_lt_trichotomy (score_key x) (score_key sj))
        as [T|[T|T]]; destruct o; tauto.
    + split; [|lia]. intros T. exfalso. rewrite <- Ej in T.
      destruct (Nat.eq_dec k j) as [->|Hne].
      * rewrite Hj in Hx. injection Hx as ->.
        destruct o; exact (key_lt_irrefl _ T).
      * assert (Hjk : (j < k)%nat) by lia.
        pose proof (StronglySorted_lookup _ l j k sj x Hs Hjk Hj Hx) as L.
        simpl in L.
        rewrite (comparator_sgpa_le o sj x (C _ _ Hj) (C _ _ Hx)) in L.
        destruct o; tauto.
Qed.

Lemma shown_by_score_sorted (st : table_state) (students : list student) :
  sortBy st = by_sgpa -> Forall numeric_score students ->
  Forall numeric_score (shown st students) /\
  StronglySorted (fun a b => comparator by_sgpa (sortOrder st) a b <= 0)
    (shown st students).
Proof.
  intros E HD. unfold shown. rewrite E. split.
  - apply sorted_Forall, filtered_Forall, HD.
  - apply sorted_ordered. simpl.
    eapply Forall_impl; [apply filtered_Forall, HD|].
    apply coercible_numeric.
Qed.

(** X4. Competition ranking. When the table is sorted by score and every
    score is a Number other than NaN, the rank of a row is one more than
    the number of shown records with a strictly better score (a higher one
    when sorted from the best down, a lower one when sorted upwards). *)
Theorem rank_counts_better_scores (st : table_state)
  (students : list student) (i : nat) (r : ranked_student) :
  sortBy st = by_sgpa -> Forall numeric_score students ->
  rankedStudents (shown st students) !! i = Some r ->
  rank r =
  1 + better_scores (sortOrder st) (shown st students) (without_rank r).
Proof.
  intros E HD H. destruct (shown_by_score_sorted st students E HD) as [HN Hs].
  apply rankedStudents_lookup_inv in H as [Hi ->].
  rewrite (rank_at_better_scores (sortOrder st) _ _ _ HN Hs Hi). lia.
Qed.

Lemma rank_counts_better_scores_witness :
  exists r : ranked_student,
    sortBy initial_state = by_sgpa /\
    Forall numeric_score [cara; alice; bob] /\
    rankedStudents (shown initial_state [cara; alice; bob]) !! 2%nat =
      Some r /\
    rank r =
    1 + better_scores (sortOrder initial_state)
          (shown initial_state [cara; alice; bob]) (without_rank r).
Proof.
  assert (H : Forall numeric_score [cara; alice; bob]).
  { repeat constructor; eexists; split; reflexivity. }
  eexists. split; [reflexivity|]. split; [exact H|].
  assert (L : rankedStudents (shown initial_state [cara; alice; bob])
                !! 2%nat =
              Some {| ranked_usn := usn cara; ranked_name := name cara;
                      ranked_sgpa := sgpa cara; rank := 3 |}).
  { vm_compute. reflexivity. }
  split; [exact L|].
  exact (rank_counts_better_scores initial_state [cara; alice; bob] 2 _
           eq_refl H L).
Defined.

(** X5. When the table is sorted by score and every score is a Number
    other than NaN, two rows have the same rank exactly when their scores
    are equal as Numbers, and one row has a smaller rank than another
    exactly when its score is strictly better for the direction. *)
Theorem ranks_follow_scores (st : table_state) (students : list student)
  (i1 i2 : nat) (r1 r2 : ranked_student) :
  sortBy st = by_sgpa -> Forall numeric_score students ->
  rankedStudents (shown st students) !! i1 = Some r1 ->
  rankedStudents (shown st students) !! i2 = Some r2 ->
  (rank r1 = rank r2 <->
   num_eq (Number (ranked_sgpa r1)) (Number (ranked_sgpa r2)) = true) /\
  (rank r1 < rank r2 <->
   outranks (sortOrder st) (without_rank r1) (without_rank r2) = true).
Proof.
  intros E HD H1 H2.
  destruct (shown_by_score_sorted st students E HD) as [HN Hs].
  apply rankedStudents_lookup_inv in H1 as [L1 ->].
  apply rankedStudents_lookup_inv in H2 as [L2 ->].
  set (l := shown st students) in *. set (o := sortOrder st) in *.
  set (a := without_rank r1) in *. set (b := without_rank r2) in *.
  change (ranked_sgpa r1) with (sgpa a). change (ranked_sgpa r2) with (sgpa b).
  destruct (rank_at_first_index o l i1 a HN Hs L1)
    as (ja & sa & -> & _ & Hja & Ea & Fa).
  destruct (rank_at_first_index o l i2 b HN Hs L2)
    as (jb & sb & -> & _ & Hjb & Eb & Fb).
  rewrite Forall_forall in HN.
  assert (C : forall k x, l !! k = Some x -> coercible x = true).
  { intros k x Hx. eapply coercible_numeric, HN, list_elem_of_lookup_2, Hx. }
  assert (Ca := C _ _ L1). assert (Cb := C _ _ L2).
  (* the first indices are ordered as the scores are *)
  assert (Same : score_key a = score_key b -> ja = jb).
  { intros K. destruct (Nat.lt_total ja jb) as [T|[T|T]]; [|exact T|].
    - exfalso. apply (Fb ja sa T Hja). congruence.
    - exfalso. apply (Fa jb sb T Hjb). congruence. }
  assert (Better : outranks o a b = true -> (ja < jb)%nat).
  { rewrite (outranks_key o a b Ca Cb). intros K.
    destruct (Nat.lt_total ja jb) as [T|[T|T]]; [exact T| |]; exfalso.
    - subst jb. rewrite Hja in Hjb. injection Hjb as ->.
      rewrite <- Ea, Eb in K. destruct o; exact (key_lt_irrefl _ K).
    - pose proof (StronglySorted_lookup _ l jb ja sb sa Hs T Hjb Hja) as L.
      simpl in L.
      rewrite (comparator_sgpa_le o sb sa (C _ _ Hjb) (C _ _ Hja)) in L.
      rewrite Ea, Eb in L. destruct o; tauto. }
  assert (Worse : outranks o b a = true -> (jb < ja)%nat).
  { rewrite (outranks_key o b a Cb Ca). intros K.
    destruct (Nat.lt_total jb ja) as [T|[T|T]]; [exact T| |]; exfalso.
    - subst jb. rewrite Hja in Hjb. injection Hjb as ->.
      rewrite <- Ea, Eb in K. destruct o; exact (key_lt_irrefl _ K).
    - pose proof (StronglySorted_lookup _ l ja jb sa sb Hs T Hja Hjb) as L.
      simpl in L.
      rewrite (comparator_sgpa_le o sa sb (C _ _ Hja) (C _ _ Hjb)) in L.
      rewrite Ea, Eb in L. destruct o; tauto. }
  pose proof (outranks_key o a b Ca Cb) as Oab.
  pose proof (outranks_key o b a Cb Ca) as Oba.
  assert (Na : isNaN (Number (sgpa a)) = false)
    by (unfold coercible in Ca; apply negb_true_iff in Ca; exact Ca).
  assert (Nb : isNaN (Number (sgpa b)) = false)
    by (unfold coercible in Cb; apply negb_true_iff in Cb; exact Cb).
  rewrite num_eq_key. fold (score_key a). fold (score_key b).
  destruct (key_lt_trichotomy (score_key a) (score_key b)) as [T|[T|T]].
  - assert (Ne : score_key a <> score_key b).
    { intros K. rewrite K in T. exact (key_lt_irrefl _ T). }
    pose proof (key_lt_asym _ _ T) as NT.
    destruct o; [assert (ja < jb)%nat by tauto | assert (jb < ja)%nat by tauto];
      split; split; intros; try lia; try tauto.
  - pose proof (Same T). rewrite T in Oab, Oba.
    pose proof (key_lt_irrefl (score_key b)).
    destruct o; split; split; intros; try lia; try tauto.
  - assert (Ne : score_key a <> score_key b).
    { intros K. rewrite K in T. exact (key_lt_irrefl _ T). }
    pose proof (key_lt_asym _ _ T) as NT.
    destruct o; [assert (jb < ja)%nat by tauto | assert (ja < jb)%nat by tauto];
      split; split; intros; try lia; try tauto.
Qed.

Lemma ranks_follow_scores_witness :
  exists r1 r2 : ranked_student,
    sortBy initial_state = by_sgpa /\
    Forall numeric_score [cara; alice; bob] /\
    rankedStudents (shown initial_state [cara; alice; bob]) !! 0%nat =
      Some r1 /\
    rankedStudents (shown initial_state [cara; alice; bob]) !! 2%nat =
      Some r2 /\
    (rank r1 < rank r2 <->
     outranks (sortOrder initial_state) (without_rank r1) (without_rank r2)
     = true).
Proof.
  assert (H : Forall numeric_score [cara; alice; bob]).
  { repeat constructor; eexists; split; reflexivity. }
  assert (L1 : rankedStudents (shown initial_state [cara; alice; bob])
                 !! 0%nat =
               Some {| ranked_usn := usn alice; ranked_name := name alice;
                       ranked_sgpa := sgpa alice; rank := 1 |}).
  { vm_compute. reflexivity. }
  assert (L2 : rankedStudents (shown initial_state [cara; alice; bob])
                 !! 2%nat =
               Some {| ranked_usn := usn cara; ranked_name := name cara;
                       ranked_sgpa := sgpa cara; rank := 3 |}).
  { vm_compute. reflexivity. }
  eexists _, _. split; [reflexivity|]. split; [exact H|].
  split; [exact L1|]. split; [exact L2|].
  exact (proj2 (ranks_follow_scores initial_state [cara; alice; bob] 0 2 _ _
                  eq_refl H L1 L2)).
Defined.

(** ** Searching *)

Lemma string_append_assoc (s t u : string) :
  String.append (String.append s t) u = String.append s (String.append t u).
Proof. induction s as [|c s IH]; simpl; [reflexivity | rewrite IH; reflexivity]. Qed.

Lemma includes_trans (s t u : string) :
  includes s t = true -> includes t u = true -> includes s u = true.
Proof.
  rewrite !includes_spec. intros (pre & post & ->) (pre' & post' & ->).
  exists (String.append pre pre'), (String.append post' post).
  rewrite !string_append_assoc. reflexivity.
Qed.

Lemma matches_narrowing (q q' : string) (s : student) :
  ascii_only q = true -> ascii_only q' = true ->
  occurs_ignoring_case q q' -> matches q' s = true -> matches q s = true.
Proof.
  intros Hq Hq' H. apply (includes_ignoring_case q' q Hq' Hq) in H.
  unfold matches. rewrite !orb_true_iff.
  intros [K|K]; [left|right]; eapply includes_trans; eauto.
Qed.

Lemma filter_sublist_impl {A : Type} (p p' : A -> bool) (l : list A) :
  (forall x, p' x = true -> p x = true) ->
  sublist (List.filter p' l) (List.filter p l).
Proof.
  intros H. induction l as [|x l IH]; simpl; [constructor|].
  destruct (p' x) eqn:E'.
  - rewrite (H x E'). constructor. exact IH.
  - destruct (p x); [constructor|]; exact IH.
Qed.

(** X6. Refining a search only removes rows: when [q] and [q'] are ASCII
    text and [q] occurs in [q'], letter case ignored, the records that
    match [q'] are a sublist of those that match [q], whatever the records
    hold. *)
Theorem search_narrowing (q q' : string) (students : list student) :
  ascii_only q = true -> ascii_only q' = true ->
  occurs_ignoring_case q q' ->
  sublist (filtered q' students) (filtered q students).
Proof.
  intros Hq Hq' H. apply filter_sublist_impl. intros s.
  apply matches_narrowing; assumption.
Qed.

Lemma search_narrowing_witness :
  ascii_only "a" = true /\ ascii_only "Al" = true /\
  occurs_ignoring_case "a" "Al" /\
  sublist (filtered "Al" [cara; alice; bob]) (filtered "a" [cara; alice; bob]).
Proof.
  assert (H : occurs_ignoring_case "a" "Al").
  { exists ""%string, "A"%string, "l"%string. split; reflexivity. }
  split; [reflexivity|]. split; [reflexivity|]. split; [exact H|].
  exact (search_narrowing "a" "Al" _ eq_refl eq_refl H).
Defined.

(** ** Sort clicks *)

(** X7. A click on a column header makes it the sort column and leaves
    the search text alone; a click on another column than the current one
    starts with the descending direction; two clicks on the current column
    restore the state; and three clicks on a header do what one does. *)
Theorem handleSort_clicks (st : table_state) (field : sort_field) :
  sortBy (handleSort st field) = field /\
  searchTerm (handleSort st field) = searchTerm st /\
  (sortBy st <> field -> sortOrder (handleSort st field) = desc) /\
  (sortBy st = field -> handleSort (handleSort st field) field = st) /\
  handleSort (handleSort (handleSort st field) field) field =
    handleSort st field.
Proof.
  destruct st as [f o q].
  destruct f, field, o; repeat split; unfold handleSort; simpl;
    intros; congruence.
Qed.

Lemma handleSort_clicks_witness :
  sortBy initial_state <> by_name /\
  sortOrder (handleSort initial_state by_name) = desc /\
  handleSort (handleSort initial_state by_sgpa) by_sgpa = initial_state.
Proof.
  assert (H : sortBy initial_state <> by_name) by discriminate.
  split; [exact H|]. split.
  - exact (proj1 (proj2 (proj2 (handleSort_clicks initial_state by_name))) H).
  - exact (proj1 (proj2 (proj2 (proj2
             (handleSort_clicks initial_state by_sgpa)))) eq_refl).
Defined.

Lemma num_lt_asym (x y : number) : num_lt x y = true -> num_lt y x = false.
Proof.
  intros H. apply not_true_iff_false. intros K.
  apply num_lt_key in H as (_ & _ & H). apply num_lt_key in K as (_ & _ & K).
  exact (key_lt_asym _ _ H K).
Qed.

Lemma str_lt_asym (s t : string) : str_lt s t = true -> str_lt t s = false.
Proof.
  unfold str_lt, String.ltb. intros H.
  rewrite (String.compare_antisym t s).
  destruct (String.compare s t); simpl in *; congruence.
Qed.

Lemma order_result_antisym (o : sort_order) (lt gt : bool) :
  (lt = true -> gt = false) ->
  order_result o lt gt = - order_result o gt lt.
Proof. destruct o, lt, gt; simpl; intros H; try reflexivity; discriminate H; reflexivity. Qed.

Lemma comparator_antisym (field : sort_field) (o : sort_order)
  (a b : student) :
  comparator field o a b = - comparator field o b a.
Proof.
  destruct field; simpl; unfold num_gt, str_gt;
    apply order_result_antisym; auto using num_lt_asym, str_lt_asym.
Qed.

Lemma comparator_toggle (field : sort_field) (o : sort_order)
  (a b : student) :
  comparator field (match o with asc => desc | desc => asc end) a b =
  comparator field o b a.
Proof. destruct field, o; reflexivity. Qed.

Lemma StronglySorted_reverse {A : Type} (R : A -> A -> Prop) (l : list A) :
  StronglySorted R l -> StronglySorted (fun a b => R b a) (reverse l).
Proof.
  induction 1 as [|x l Hs IH Hx]; [constructor|].
  rewrite reverse_cons. apply StronglySorted_app. split; [|split].
  - intros a b Ha Hb. apply list_elem_of_singleton in Hb as ->.
    rewrite elem_of_reverse in Ha. rewrite Forall_forall in Hx.
    simpl. apply Hx, Ha.
  - exact IH.
  - repeat constructor.
Qed.

Lemma filter_at_most_one {A : Type} (P : A -> Prop)
  `{!forall x, Decision (P x)} (l : list A) :
  (forall i j a b, l !! i = Some a -> l !! j = Some b -> i <> j ->
     ~ (P a /\ P b)) ->
  reverse (filter P l) = filter P l.
Proof.
  induction l as [|x l IH]; intros K; [reflexivity|].
  rewrite filter_cons. destruct (decide (P x)) as [Hx|Hx].
  - assert (E : filter P l = []).
    { destruct (filter P l) as [|y l'] eqn:F; [reflexivity|]. exfalso.
      assert (Hy : y ∈ filter P l) by (rewrite F; left).
      apply list_elem_of_filter in Hy as [Py Hy].
      apply list_elem_of_lookup in Hy as [k Hk].
      apply (K O (S k) x y eq_refl Hk); [lia | tauto]. }
    rewrite E. reflexivity.
  - apply IH. intros i j a b Ha Hb Hij. apply (K (S i) (S j) a b Ha Hb). lia.
Qed.

(** X8. When the comparator of the current column is consistent on the
    matching records and no two of them are tied, a click on the header of
    the current column shows the same rows in reverse order. *)
Theorem second_click_reverses (st : table_state) (students : list student) :
  Forall (fun s => sortable (sortBy st) s = true)
    (filtered (searchTerm st) students) ->
  no_ties (sortBy st) (sortOrder st) (filtered (searchTerm st) students) ->
  shown (handleSort st (sortBy st)) students = reverse (shown st students).
Proof.
  destruct st as [f o q]. simpl. intros HD HT. unfold shown, handleSort.
  simpl. replace (field_eqb f f) with true by (destruct f; reflexivity).
  simpl. set (l := filtered q students) in *.
  set (o' := match o with asc => desc | desc => asc end).
  symmetry. apply sorted_unique.
  - exact HD.
  - rewrite reverse_Permutation. apply sorted_Forall, HD.
  - pose proof (StronglySorted_reverse _ _ (sorted_ordered f o l HD)) as S.
    simpl in S. clear - S. induction S as [|x r Hs IH Hx]; constructor.
    + exact IH.
    + eapply Forall_impl; [exact Hx|]. intros y Hy. simpl in *.
      unfold o'. rewrite comparator_toggle. exact Hy.
  - intros P dec HP. rewrite filter_reverse. unfold sorted.
    rewrite (sort_stable (comparator f o) P).
    + apply filter_at_most_one. intros i j a b Ha Hb Hij [Pa Pb].
      apply (HT i j a b Ha Hb Hij).
      pose proof (HP a b Pa Pb) as L1. pose proof (HP b a Pb Pa) as L2.
      unfold o' in L1, L2. rewrite comparator_toggle in L1, L2.
      rewrite (comparator_antisym f o a b) in *. lia.
    + intros x y Px Py. pose proof (HP y x Py Px) as L.
      unfold o' in L. rewrite comparator_toggle in L. exact L.
Qed.

Lemma second_click_reverses_witness :
  no_ties (sortBy initial_state) (sortOrder initial_state)
    (filtered (searchTerm initial_state) [cara; alice]) /\
  shown (handleSort initial_state (sortBy initial_state)) [cara; alice] =
  reverse (shown initial_state [cara; alice]).
Proof.
  assert (D : Forall (fun s => sortable (sortBy initial_state) s = true)
                (filtered (searchTerm initial_state) [cara; alice])).
  { repeat constructor. }
  assert (T : no_ties (sortBy initial_state) (sortOrder initial_state)
                (filtered (searchTerm initial_state) [cara; alice])).
  { intros i j a b Ha Hb Hij.
    destruct i as [|[|i]], j as [|[|j]]; try discriminate; try lia;
      injection Ha as <-; injection Hb as <-; vm_compute; discriminate. }
  split; [exact T|].
  exact (second_click_reverses initial_state [cara; alice] D T).
Defined.

(** ** Cells of a row *)

Lemma append_inj_r (p s t : string) :
  String.append p s = String.append p t -> s = t.
Proof.
  induction p as [|c p IH]; simpl; intros H; [exact H|].
  injection H as H. exact (IH H).
Qed.

(** X9. The link of a record is the fixed address of the result sheet
    followed by the identifier as it is: two identifiers have the same link
    only when they are equal. *)
Theorem getPDFUrl_injective (u v : string) :
  (getPDFUrl u = getPDFUrl v <-> u = v) /\
  startsWith (getPDFUrl u) pdf_url_prefix = true.
Proof.
  split; [split|].
  - apply append_inj_r.
  - intros ->. reflexivity.
  - apply startsWith_spec. exists u. reflexivity.
Qed.

Lemma getRankDisplay_cases (n : Z) :
  (n = 1 /\ getRankDisplay n = RankText "🥇 1") \/
  (n = 2 /\ getRankDisplay n = RankText "🥈 2") \/
  (n = 3 /\ getRankDisplay n = RankText "🥉 3") \/
  (n <> 1 /\ n <> 2 /\ n <> 3 /\ getRankDisplay n = RankNumber n).
Proof.
  unfold getRankDisplay.
  destruct (Z.eqb_spec n 1); [auto|].
  destruct (Z.eqb_spec n 2); [auto|].
  destruct (Z.eqb_spec n 3); [auto 6|]. auto 10.
Qed.

Lemma table_body_lookup (st : table_state) (students : list student)
  (i : nat) (row : table_row) :
  table_body st students !! i = Some row ->
  exists r : ranked_student,
    rankedStudents (shown st students) !! i = Some r /\
    row = render_row i r.
Proof.
  unfold table_body. fold (shown st students).
  rewrite list_lookup_imap.
  destruct (rankedStudents (shown st students) !! i) as [r|];
    [|discriminate].
  simpl. intros H. injection H as <-. exists r. split; reflexivity.
Qed.

(** X10. [getRankDisplay] never shows two ranks alike. In every table the
    first row carries the gold medal; a rank cell that holds a plain Number
    at the row of index [i] holds one between 4 and [i + 1], and a cell
    that holds a text holds one of the three medal texts. *)
Theorem rank_cells (st : table_state) (students : list student) :
  (forall m n : Z, getRankDisplay m = getRankDisplay n -> m = n) /\
  (forall row : table_row,
     table_body st students !! O = Some row ->
     rank_cell row = RankText "🥇 1") /\
  (forall (i : nat) (row : table_row),
     table_body st students !! i = Some row ->
     match rank_cell row with
     | RankNumber n => 4 <= n <= Z.of_nat i + 1
     | RankText _ => In (rank_cell row) medal_texts
     end).
Proof.
  split; [|split].
  - intros m n.
    destruct (getRankDisplay_cases m) as [[? ->]|[[? ->]|[[? ->]|(?&?&?& ->)]]],
      (getRankDisplay_cases n) as [[? ->]|[[? ->]|[[? ->]|(?&?&?& ->)]]];
      intros E; try discriminate; try lia. injection E as E. exact E.
  - intros row H. apply table_body_lookup in H as (r & Hr & ->).
    apply rankedStudents_lookup_inv in Hr as [_ Hr]. simpl.
    rewrite Hr, rank_at_first. reflexivity.
  - intros i row H. apply table_body_lookup in H as (r & Hr & ->).
    apply rankedStudents_lookup_inv in Hr as [Hs Hr]. simpl.
    pose proof (rank_at_lower (shown st students) i (without_rank r)) as Lo.
    pose proof (rank_at_upper _ _ _ Hs) as Up. rewrite <- Hr in Lo, Up.
    destruct (getRankDisplay_cases (rank r))
      as [[? ->]|[[? ->]|[[? ->]|(?&?&?& ->)]]]; simpl; auto; lia.
Qed.

Lemma rank_cells_witness :
  exists row : table_row,
    table_body initial_state [cara; alice; bob] !! O = Some row /\
    rank_cell row = RankText "🥇 1".
Proof.
  eexists. split; [vm_compute; reflexivity|].
  apply (proj1 (proj2 (rank_cells initial_state [cara; alice; bob]))).
  vm_compute. reflexivity.
Defined.

(** ** The tallest bar *)

Lemma loc_exact_eq (l : location) : loc_exact l = true -> l = loc_Exact.
Proof. destruct l; [reflexivity | discriminate]. Qed.

Lemma one_rounded :
  binary_round_aux prec emax false (2 ^ 53) (-53) loc_Exact = dec 1 0.
Proof. vm_compute. reflexivity. Qed.

Lemma one_times_100 : num_mul (dec 1 0) (dec 100 0) = dec 100 0.
Proof. vm_compute. reflexivity. Qed.

(** A finite Number divided by itself is 1. *)
Lemma num_div_self (m : positive) (e : Z) :
  num_div (S754_finite false m e) (S754_finite false m e) = dec 1 0.
Proof.
  assert (Core : SFdiv_core_binary prec emax (Zpos m) e (Zpos m) e =
                 (2 ^ 53, -53, loc_Exact)).
  { unfold SFdiv_core_binary.
    replace (Zdigits2 (Zpos m) + e - (Zdigits2 (Zpos m) + e)) with 0 by lia.
    replace (e - e) with 0 by lia.
    change (Z.min (fexp prec emax 0) 0) with (-53).
    change (0 - -53) with 53.
    rewrite Z.shiftl_mul_pow2 by lia. rewrite div_eucl_eq.
    rewrite (Z.mul_comm (Zpos m)), Z.div_mul, Z.mod_mul by lia.
    rewrite (loc_exact_eq (new_location (Zpos m) 0));
      [reflexivity | apply new_location_exact]. }
  unfold num_div, SFdiv. rewrite Core. simpl xorb. apply one_rounded.
Qed.

(** The bar of a count that is the greatest count is 100 wide. *)
Lemma width_self (M : number) :
  whole_count M = true -> truthy M = true -> width M M = dec 100 0.
Proof.
  intros W T. destruct M as [| | |s m e]; try discriminate.
  destruct (whole_count_finite _ _ _ W) as (-> & _ & _).
  unfold width. rewrite num_div_self, one_times_100.
  vm_compute. reflexivity.
Qed.

(** X11. For a chart of whole counts: when some count is not zero, a
    bucket holds the greatest count and every such bucket is drawn exactly
    100 wide; when every count is zero, every bar is drawn 5 wide. *)
Theorem tallest_bar_full (entries : list (string * number))
  (rows : list dist_row) :
  Forall (fun e => whole_count (snd e) = true) entries ->
  DistributionChart (Some entries) = DistChart rows ->
  let M := Math_max (map snd entries) in
  (truthy M = true ->
   (exists r : dist_row, In r rows /\ dist_count r = M) /\
   (forall r : dist_row,
      In r rows -> dist_count r = M -> dist_bar_width r = dec 100 0)) /\
  (truthy M = false ->
   forall r : dist_row, In r rows -> dist_bar_width r = dec 5 0).
Proof.
  intros HW HC M.
  destruct entries as [|e0 rest]; [discriminate|].
  assert (HW' : Forall (fun c => whole_count c = true) (map snd (e0 :: rest))).
  { rewrite Forall_fmap. exact HW. }
  pose proof (Math_max_whole (snd e0) (map snd rest) HW') as HM.
  change (snd e0 :: map snd rest) with (map snd (e0 :: rest)) in HM.
  fold M in HM. destruct HM as (WM & GM & IM).
  rewrite Forall_fmap in GM.
  rewrite DistributionChart_cons in HC. unfold maxCount in HC. fold M in HC.
  clearbody M.
  set (f := fun e' : string * number =>
              {| dist_label := fst e';
                 dist_bar_width := width (snd e') (num_or M (dec 1 0));
                 dist_count := snd e' |}) in HC.
  assert (ER : rows = map f (e0 :: rest)) by congruence.
  clear HC. subst rows. split.
  - intros TM. split.
    + apply in_map_iff in IM as (e & EM & He).
      exists (f e). split; [apply in_map; exact He | exact EM].
    + intros r Hr. apply in_map_iff in Hr as (e & <- & He).
      unfold f. cbn [dist_count dist_bar_width]. intros ->.
      unfold num_or. rewrite TM. apply width_self; assumption.
  - intros TM r Hr. apply in_map_iff in Hr as (e & <- & He).
    unfold f. cbn [dist_bar_width]. unfold num_or. rewrite TM.
    rewrite Forall_forall in HW, GM. apply list_elem_of_In in He.
    pose proof (HW e He) as Wc. pose proof (GM e He) as Gc. simpl in Wc, Gc.
    destruct M as [s| | |]; try discriminate.
    pose proof (whole_count_le_zero s (snd e) Wc Gc) as Tc.
    destruct (snd e) as [s'| | |]; try discriminate.
    apply width_zero; vm_compute; reflexivity.
Qed.

Lemma tallest_bar_full_witness :
  exists r : dist_row,
    Forall (fun e => whole_count (snd e) = true) three_buckets /\
    truthy (Math_max (map snd three_buckets)) = true /\
    In r [ {| dist_label := "A"; dist_bar_width := dec 5 0;
              dist_count := dec 0 0 |};
           {| dist_label := "B"; dist_bar_width := dec 100 0;
              dist_count := dec 4 0 |};
           {| dist_label := "C"; dist_bar_width := dec 50 0;
              dist_count := dec 2 0 |} ] /\
    dist_count r = Math_max (map snd three_buckets).
Proof.
  assert (HW : Forall (fun e => whole_count (snd e) = true) three_buckets)
    by (repeat constructor; vm_compute; reflexivity).
  assert (HC : DistributionChart (Some three_buckets) =
               DistChart
                 [ {| dist_label := "A"; dist_bar_width := dec 5 0;
                      dist_count := dec 0 0 |};
                   {| dist_label := "B"; dist_bar_width := dec 100 0;
                      dist_count := dec 4 0 |};
                   {| dist_label := "C"; dist_bar_width := dec 50 0;
                      dist_count := dec 2 0 |} ])
    by (vm_compute; reflexivity).
  assert (TM : truthy (Math_max (map snd three_buckets)) = true)
    by (vm_compute; reflexivity).
  destruct (proj1 (proj1 (tallest_bar_full three_buckets _ HW HC) TM))
    as (r & Hr & Er).
  exists r. split; [exact HW|]. split; [exact TM|]. split; assumption.
Defined.

(** ** The order of the rows *)





(** X13. The order of the table does not depend on the sort algorithm of
    the engine: on records for which the comparator is consistent, every
    rearrangement that is ordered by the comparator and keeps the records
    of each class of ties in their input order is the list that the model
    of [sort] returns. *)
Theorem sorted_engine_independent (field : sort_field) (o : sort_order)
  (l l' : list student) :
  Forall (fun s => sortable field s = true) l ->
  l' ≡ₚ l ->
  StronglySorted (fun a b => comparator field o a b <= 0) l' ->
  stable_for (comparator field o) l l' ->
  l' = sorted field o l.
Proof.
  intros HD HP HS HT. apply sorted_unique; try assumption.
  rewrite HP. exact HD.
Qed.

Lemma sorted_engine_independent_witness :
  Forall (fun s => sortable by_sgpa s = true) [cara; alice; bob] /\
  [alice; bob; cara] ≡ₚ [cara; alice; bob] /\
  StronglySorted (fun a b => comparator by_sgpa desc a b <= 0)
    [alice; bob; cara] /\
  stable_for (comparator by_sgpa desc) [cara; alice; bob] [alice; bob; cara] /\
  [alice; bob; cara] = sorted by_sgpa desc [cara; alice; bob].
Proof.
  assert (HD : Forall (fun s => sortable by_sgpa s = true) [cara; alice; bob])
    by (repeat constructor).
  assert (E : sort (comparator by_sgpa desc) [cara; alice; bob] =
              [alice; bob; cara]) by (vm_compute; reflexivity).
  assert (HP : [alice; bob; cara] ≡ₚ [cara; alice; bob]).
  { rewrite <- E. apply sort_Permutation. }
  assert (HS : StronglySorted (fun a b => comparator by_sgpa desc a b <= 0)
                 [alice; bob; cara]).
  { rewrite <- E. apply (sorted_ordered by_sgpa desc _ HD). }
  assert (HT : stable_for (comparator by_sgpa desc) [cara; alice; bob]
                 [alice; bob; cara]).
  { intros P dec HPc. rewrite <- E. apply sort_stable. exact HPc. }
  split; [exact HD|]. split; [exact HP|]. split; [exact HS|].
  split; [exact HT|].
  exact (sorted_engine_independent by_sgpa desc _ _ HD HP HS HT).
Defined.

(** ** Tiers *)

(** X14. A score that is [>=] another never gets a lower tier; a score
    that does not coerce to a Number gets the lowest tier; and the class is
    always one of the five tier classes. *)
Theorem getSGPAColor_monotone (v w : value) :
  (num_ge (Number v) (Number w) = true ->
   tier_level (getSGPAColor w) <= tier_level (getSGPAColor v)) /\
  (isNaN (Number v) = true -> getSGPAColor v = tier_class "low") /\
  In (getSGPAColor v)
    (map tier_class ["excellent"; "great"; "good"; "average"; "low"]%string).
Proof.
  unfold getSGPAColor, ge_number.
  generalize (dec 90 (-1)) (dec 80 (-1)) (dec 70 (-1)) (dec 60 (-1)).
  intros t1 t2 t3 t4. split; [|split].
  - intros H.
    assert (T : forall t, num_ge (Number w) t = true ->
                          num_ge (Number v) t = true)
      by (intros t K; exact (num_ge_trans _ _ _ H K)).
    pose proof (T t1) as H1. pose proof (T t2) as H2.
    pose proof (T t3) as H3. pose proof (T t4) as H4.
    destruct (num_ge (Number w) t1), (num_ge (Number w) t2),
      (num_ge (Number w) t3), (num_ge (Number w) t4);
      try rewrite (H1 eq_refl); try rewrite (H2 eq_refl);
      try rewrite (H3 eq_refl); try rewrite (H4 eq_refl);
      destruct (num_ge (Number v) t1), (num_ge (Number v) t2),
        (num_ge (Number v) t3), (num_ge (Number v) t4);
      vm_compute; discriminate.
  - intros N.
    assert (F : forall t, num_ge (Number v) t = false).
    { intros t. apply not_true_iff_false. intros K.
      apply num_ge_notNaN in K as [K _]. congruence. }
    rewrite !F. reflexivity.
  - destruct (num_ge (Number v) t1), (num_ge (Number v) t2),
      (num_ge (Number v) t3), (num_ge (Number v) t4); simpl; tauto.
Qed.

Lemma getSGPAColor_monotone_witness :
  num_ge (Number (sgpa alice)) (Number (sgpa cara)) = true /\
  tier_level (getSGPAColor (sgpa cara)) <=
  tier_level (getSGPAColor (sgpa alice)).
Proof.
  assert (H : num_ge (Number (sgpa alice)) (Number (sgpa cara)) = true)
    by (vm_compute; reflexivity).
  split; [exact H|].
  exact (proj1 (getSGPAColor_monotone (sgpa alice) (sgpa cara)) H).
Defined.

(** ** The pages *)

Lemma text_or_nonempty (m : option string) (d : string) :
  d <> ""%string -> text_or m d <> ""%string.
Proof.
  intros Hd. unfold text_or. destruct m as [s|]; [|exact Hd].
  destruct (String.eqb_spec s ""); assumption.
Qed.

Lemma text_or_some (s d : string) :
  s <> ""%string -> text_or (Some s) d = s.
Proof.
  intros Hs. unfold text_or. destruct (String.eqb_spec s ""); congruence.
Qed.

(** X15. Once [fetchHealth] has finished, whatever was shown before is
    gone: the state depends on the outcome only. Loading is over and the
    button is enabled. The error pill is shown exactly when the request
    failed; then the status is [null], no status pill is shown and the
    message is never empty: "Status" and the code for a response that is
    not ok; for an exception its own message when it has one that is not
    empty, and the fixed text otherwise. On success no error is kept and the status is the one of
    the body, or "unknown" when the body has none. *)
Theorem fetchHealth_settles (st : HealthPage.state) (o : HealthPage.outcome) :
  let st' := HealthPage.fetchHealth st o in
  let v := HealthPage.render st' in
  st' = HealthPage.fetchHealth HealthPage.initial o /\
  HealthPage.loading st' = false /\
  HealthPage.checking v = false /\
  HealthPage.button_disabled v = false /\
  HealthPage.error_pill v = health_failed o /\
  HealthPage.error_text v = HealthPage.error st' /\
  match o with
  | HealthPage.Data data_status =>
      HealthPage.error st' = None /\
      HealthPage.status st' = nullish_or data_status (VStr "unknown") /\
      HealthPage.status st' <> null /\ HealthPage.status st' <> undefined
  | HealthPage.NotOk res_status =>
      HealthPage.status st' = null /\
      HealthPage.status_pill v = None /\
      HealthPage.error st' =
        Some (String.append "Status " (status_text res_status))
  | HealthPage.Threw message =>
      HealthPage.status st' = null /\
      HealthPage.status_pill v = None /\
      exists m : string,
        HealthPage.error st' = Some m /\ m <> ""%string /\
        (message = None \/ message = Some ""%string ->
         m = "Failed to reach backend"%string) /\
        (forall text : string,
           message = Some text -> text <> ""%string -> m = text)
  end.
Proof.
  destruct st as [s l e], o as [message|res_status|data_status]; simpl.
  - assert (Ne : text_or message "Failed to reach backend" <> ""%string)
      by (apply text_or_nonempty; discriminate).
    unfold HealthPage.render, HealthPage.fetchHealth, HealthPage.caught.
    simpl.
    destruct (String.eqb_spec (text_or message "Failed to reach backend") "");
      [contradiction|].
    repeat split; try reflexivity.
    eexists. split; [reflexivity|]. split; [exact Ne|]. split.
    + intros [-> | ->]; reflexivity.
    + intros text -> Ht. apply text_or_some, Ht.
  - unfold HealthPage.render, HealthPage.fetchHealth, HealthPage.caught.
    simpl. repeat split; reflexivity.
  - unfold HealthPage.render, HealthPage.fetchHealth. simpl.
    repeat split; try reflexivity;
      destruct data_status; simpl; discriminate.
Qed.

Lemma fetchHealth_settles_witness :
  exists m : string,
    HealthPage.error
      (HealthPage.fetchHealth HealthPage.initial
         (HealthPage.Threw (Some "Failed to fetch"%string))) =
      Some m /\
    m = "Failed to fetch"%string.
Proof.
  destruct (proj2 (proj2 (proj2 (proj2 (proj2 (proj2 (proj2 (proj2
             (fetchHealth_settles HealthPage.initial
                (HealthPage.Threw (Some "Failed to fetch"%string)))))))))))
    as (m & E & _ & _ & D).
  exists m. split; [exact E|]. apply (D _ eq_refl). discriminate.
Defined.





(** X17. In the results column the number in the title "All Students"
    is 0 exactly when the table shows its notice instead of rows; otherwise
    the table never has more rows than that number, and has exactly as many
    while the search box is empty. *)
Theorem results_count_agrees (table_st : table_state)
  (st : AnalyzeResultsPage.state) (cards : AnalyzeResultsPage.results_view) :
  AnalyzeResultsPage.render_results table_st st =
    AnalyzeResultsPage.Results cards ->
  (AnalyzeResultsPage.all_students_count cards = O <->
   AnalyzeResultsPage.all_students_card cards = NoStudentsFound) /\
  (forall rows : list ranked_student,
     AnalyzeResultsPage.all_students_card cards = StudentsTable rows ->
     (length rows <= AnalyzeResultsPage.all_students_count cards)%nat /\
     (searchTerm table_st = ""%string ->
      length rows = AnalyzeResultsPage.all_students_count cards)).
Proof.
  unfold AnalyzeResultsPage.render_results.
  destruct (AnalyzeResultsPage.data st) as [d|];
    [|destruct (AnalyzeResultsPage.loading st); discriminate].
  intros H. injection H as <-.
  cbn [AnalyzeResultsPage.all_students_count
       AnalyzeResultsPage.all_students_card].
  destruct (default [] (AnalyzeResultsPage.results d)) as [|s l] eqn:E.
  - split; [split; reflexivity|]. intros rows H. discriminate.
  - split; [split; discriminate|]. intros rows H.
    change (AllStudentsTable table_st (s :: l))
      with (StudentsTable (rankedStudents (shown table_st (s :: l)))) in H.
    assert (ER : rows = rankedStudents (shown table_st (s :: l)))
      by congruence.
    clear H. subst rows. unfold rankedStudents. rewrite length_imap.
    unfold shown, sorted. rewrite sort_length. split.
    + apply sublist_length.
      apply (filter_sublist (matches (searchTerm table_st)) (s :: l)).
    + intros Q. rewrite Q. unfold filtered.
      rewrite (filter_all (matches "") (s :: l)); [reflexivity|].
      apply matches_empty.
Qed.

Lemma results_count_agrees_witness :
  exists cards : AnalyzeResultsPage.results_view,
    AnalyzeResultsPage.render_results initial_state sample_page =
      AnalyzeResultsPage.Results cards /\
    (AnalyzeResultsPage.all_students_count cards = O <->
     AnalyzeResultsPage.all_students_card cards = NoStudentsFound).
Proof.
  eexists. split; [reflexivity|].
  exact (proj1 (results_count_agrees initial_state sample_page _ eq_refl)).
Defined.

(** ** The order of the engine *)

Section EngineSortFacts.
Context {A : Type} (cmp : A -> A -> Z) (D : A -> Prop).
Context `{Ddec : !forall x, Decision (D x)}.
Hypothesis cmp_antisym : forall x y, cmp x y = - cmp y x.
Hypothesis cmp_trans :
  forall x y z, D x -> D y -> D z ->
    cmp x y <= 0 -> cmp y z <= 0 -> cmp x z <= 0.

Lemma cmp_lt_le_trans (x y z : A) :
  D x -> D y -> D z -> cmp x y < 0 -> cmp y z <= 0 -> cmp x z < 0.
Proof.
  intros Dx Dy Dz Hxy Hyz.
  assert (Hxz : cmp x z <= 0) by (apply (cmp_trans x y z); auto; lia).
  destruct (Z.eq_dec (cmp x z) 0) as [E|]; [|lia]. exfalso.
  assert (Hzx : cmp z x <= 0) by (rewrite cmp_antisym; lia).
  pose proof (cmp_trans y z x Dy Dz Dx Hyz Hzx) as Hyx.
  rewrite (cmp_antisym y x) in Hyx. lia.
Qed.

Lemma cmp_lt_trans (x y z : A) :
  D x -> D y -> D z -> cmp x y < 0 -> cmp y z < 0 -> cmp x z < 0.
Proof. intros. apply (cmp_lt_le_trans x y z); auto; lia. Qed.

(** *** The run that starts the array *)

Lemma run_end_app (descending : bool) (l : list A) :
  forall (previous : A) (run rest : list A),
    run_end cmp descending previous l = (run, rest) -> l = run ++ rest.
Proof.
  induction l as [|c l IH]; intros p run rest H; simpl in H.
  - injection H as <- <-. reflexivity.
  - destruct (if descending then 0 <=? cmp c p else cmp c p <? 0).
    + injection H as <- <-. reflexivity.
    + destruct (run_end cmp descending c l) as [r rs] eqn:E.
      injection H as <- <-. simpl. f_equal. exact (IH _ _ _ E).
Qed.

(** A run that does not descend is sorted. *)
Lemma run_end_ascending (l : list A) :
  forall (previous : A) (run rest : list A),
    D previous -> Forall D l ->
    run_end cmp false previous l = (run, rest) ->
    StronglySorted (fun a b => cmp a b <= 0) (previous :: run).
Proof.
  induction l as [|c l IH]; intros p run rest Dp Dl H; simpl in H.
  - injection H as <- <-. repeat constructor.
  - destruct (Z.ltb_spec (cmp c p) 0) as [Hlt|Hge].
    + injection H as <- <-. repeat constructor.
    + destruct (run_end cmp false c l) as [r rs] eqn:E.
      injection H as <- <-. inversion Dl as [|? ? Dc Dl']; subst.
      pose proof (run_end_app _ _ _ _ _ E) as El.
      assert (Dr : Forall D r).
      { rewrite El in Dl'. apply Forall_app in Dl'. tauto. }
      pose proof (IH c r rs Dc Dl' E) as S.
      assert (Hpc : cmp p c <= 0) by (rewrite cmp_antisym; lia).
      constructor; [exact S|]. constructor; [exact Hpc|].
      apply StronglySorted_inv in S as [_ Hc].
      rewrite Forall_forall in *. intros x Hx.
      apply (cmp_trans p c x); auto.
Qed.

(** A run that descends strictly holds, from every element on, only
    elements that come strictly before it. *)
Lemma run_end_descending (l : list A) :
  forall (previous : A) (run rest : list A),
    D previous -> Forall D l ->
    run_end cmp true previous l = (run, rest) ->
    StronglySorted (fun a b => cmp b a < 0) (previous :: run).
Proof.
  induction l as [|c l IH]; intros p run rest Dp Dl H; simpl in H.
  - injection H as <- <-. repeat constructor.
  - destruct (Z.leb_spec 0 (cmp c p)) as [Hge|Hlt].
    + injection H as <- <-. repeat constructor.
    + destruct (run_end cmp true c l) as [r rs] eqn:E.
      injection H as <- <-. inversion Dl as [|? ? Dc Dl']; subst.
      pose proof (run_end_app _ _ _ _ _ E) as El.
      assert (Dr : Forall D r).
      { rewrite El in Dl'. apply Forall_app in Dl'. tauto. }
      pose proof (IH c r rs Dc Dl' E) as S.
      constructor; [exact S|]. constructor; [exact Hlt|].
      apply StronglySorted_inv in S as [_ Hc].
      rewrite Forall_forall in *. intros x Hx.
      apply (cmp_lt_trans x c p); auto.
Qed.

(** The run is sorted, and holds every class of tied elements in the order
    of the array. *)
Lemma count_and_make_run_spec (l run rest : list A) :
  Forall D l ->
  count_and_make_run cmp l = (run, rest) ->
  StronglySorted (fun a b => cmp a b <= 0) run /\ Forall D run /\ Forall D rest /\
  forall (P : A -> Prop) (dec : forall x, Decision (P x)),
    (forall x y, P x -> P y -> cmp x y <= 0) ->
    filter P run ++ filter P rest = filter P l.
Proof.
  intros Dl H. destruct l as [|h [|w l]]; simpl in H.
  - injection H as <- <-. repeat split; auto; constructor.
  - injection H as <- <-. repeat split; auto.
    + repeat constructor.
    + intros. rewrite filter_nil, app_nil_r. reflexivity.
  - inversion Dl as [|? ? Dh Dl1]; subst.
    inversion Dl1 as [|? ? Dw Dl2]; subst.
    destruct (run_end cmp (cmp w h <? 0) w l) as [r rs] eqn:E.
    pose proof (run_end_app _ _ _ _ _ E) as El.
    assert (Dr : Forall D r /\ Forall D rs).
    { rewrite El in Dl2. apply Forall_app in Dl2. exact Dl2. }
    destruct Dr as [Dr Drs].
    destruct (Z.ltb_spec (cmp w h) 0) as [Hlt|Hge]; injection H as <- <-.
    + (* a run that descends strictly, reversed *)
      pose proof (run_end_descending l w r rs Dw Dl2 E) as S.
      assert (S' : StronglySorted (fun a b => cmp b a < 0) (h :: w :: r)).
      { constructor; [exact S|]. constructor; [exact Hlt|].
        apply StronglySorted_inv in S as [_ Hw].
        rewrite Forall_forall in *. intros x Hx.
        apply (cmp_lt_trans x w h); auto. }
      split; [|split; [|split]].
      * apply (StronglySorted_reverse (fun a b => cmp b a <= 0)).
        clear - S'. induction S' as [|x t St IHt Hx]; constructor; auto.
        eapply Forall_impl; [exact Hx|]. simpl. intros; lia.
      * rewrite reverse_Permutation. auto.
      * exact Drs.
      * intros P dec HP. rewrite filter_reverse.
        rewrite (filter_at_most_one P (h :: w :: r)).
        -- rewrite El, <- filter_app. reflexivity.
        -- intros i j a b Ha Hb Hij [Pa Pb].
           pose proof (HP a b Pa Pb) as L1. pose proof (HP b a Pb Pa) as L2.
           pose proof (cmp_antisym a b) as L3.
           destruct (Nat.lt_total i j) as [T|[T|T]]; [|lia|].
           ++ pose proof (StronglySorted_lookup _ _ i j a b S' T Ha Hb).
              simpl in *. lia.
           ++ pose proof (StronglySorted_lookup _ _ j i b a S' T Hb Ha).
              simpl in *. lia.
    + (* a run that does not descend *)
      pose proof (run_end_ascending l w r rs Dw Dl2 E) as S.
      assert (Hhw : cmp h w <= 0) by (rewrite cmp_antisym; lia).
      split; [|split; [|split]].
      * constructor; [exact S|]. constructor; [exact Hhw|].
        apply StronglySorted_inv in S as [_ Hw].
        rewrite Forall_forall in *. intros x Hx.
        apply (cmp_trans h w x); auto.
      * auto.
      * exact Drs.
      * intros P dec HP. rewrite El, <- filter_app. reflexivity.
Qed.

(** *** The binary insertion *)

(** The search stops at a place with nothing that comes strictly after
    [pivot] on its left, and only that on its right. *)
Lemma binary_search_spec (pivot : A) (work : list A) :
  D pivot -> Forall D work -> StronglySorted (fun a b => cmp a b <= 0) work ->
  forall (steps left right : nat),
    (right - left <= steps)%nat -> (left <= right <= length work)%nat ->
    (forall i x, (i < left)%nat -> work !! i = Some x -> 0 <= cmp pivot x) ->
    (forall i x, (right <= i)%nat -> work !! i = Some x -> cmp pivot x < 0) ->
    let p := binary_search cmp steps pivot work left right in
    (p <= length work)%nat /\
    (forall i x, (i < p)%nat -> work !! i = Some x -> 0 <= cmp pivot x) /\
    (forall i x, (p <= i)%nat -> work !! i = Some x -> cmp pivot x < 0).
Proof.
  intros Dp Dw S. rewrite Forall_forall in Dw.
  assert (Dl : forall i x, work !! i = Some x -> D x).
  { intros i x Hx. eapply Dw, list_elem_of_lookup_2, Hx. }
  induction steps as [|steps IH]; intros left right Hs Hlr Hl Hr;
    cbn [binary_search]; cbv zeta.
  - assert (left = right) by lia. subst right. auto with lia.
  - destruct (Nat.ltb_spec left right) as [Hlt|Hge].
    2:{ assert (left = right) by lia. subst right. auto with lia. }
    set (mid := (left + (right - left) / 2)%nat).
    assert (Hmid : (left <= mid < right)%nat).
    { unfold mid. pose proof (Nat.div_lt (right - left) 2). lia. }
    destruct (work !! mid) as [x|] eqn:Hx;
      [|apply lookup_ge_None in Hx; lia].
    destruct (Z.ltb_spec (cmp pivot x) 0) as [Hc|Hc].
    + apply IH; [lia | lia | exact Hl |].
      intros i y Hi Hy. destruct (Nat.eq_dec i mid) as [->|Hne].
      * rewrite Hx in Hy. injection Hy as <-. exact Hc.
      * apply (cmp_lt_le_trans pivot x y); eauto.
        apply (StronglySorted_lookup _ work mid i x y S); auto. lia.
    + apply IH; [lia | lia | | exact Hr].
      intros i y Hi Hy. destruct (Nat.eq_dec i mid) as [->|Hne].
      * rewrite Hx in Hy. injection Hy as <-. exact Hc.
      * assert (L : cmp y x <= 0)
          by (apply (StronglySorted_lookup _ work i mid y x S);
              auto; lia).
        assert (L' : cmp x pivot <= 0) by (rewrite cmp_antisym; lia).
        pose proof (cmp_trans y x pivot (Dl _ _ Hy) (Dl _ _ Hx) Dp L L').
        rewrite (cmp_antisym pivot y). lia.
Qed.

(** Placing [pivot] keeps the array sorted, and [pivot] behind the
    elements that are tied with it. *)
Lemma binary_insert_spec (pivot : A) (work : list A) :
  D pivot -> Forall D work -> StronglySorted (fun a b => cmp a b <= 0) work ->
  let p := binary_search cmp (length work) pivot work 0 (length work) in
  let work' := take p work ++ pivot :: drop p work in
  StronglySorted (fun a b => cmp a b <= 0) work' /\ Forall D work' /\
  forall (P : A -> Prop) (dec : forall x, Decision (P x)),
    (forall x y, P x -> P y -> cmp x y <= 0) ->
    filter P work' = filter P (work ++ [pivot]).
Proof.
  intros Dp Dw S p work'.
  destruct (binary_search_spec pivot work Dp Dw S (length work) 0
              (length work)) as (Hp & Hl & Hr);
    [lia | lia | intros; lia | |].
  { intros i x Hi Hx. apply lookup_lt_Some in Hx. lia. }
  fold p in Hp, Hl, Hr.
  assert (Ht : forall x, x ∈ take p work -> 0 <= cmp pivot x).
  { intros x Hx. apply list_elem_of_lookup in Hx as [i Hi].
    pose proof (lookup_lt_Some _ _ _ Hi) as Hlen.
    rewrite length_take in Hlen.
    rewrite lookup_take_lt in Hi by lia. apply (Hl i x); [lia | exact Hi]. }
  assert (Hd : forall x, x ∈ drop p work -> cmp pivot x < 0).
  { intros x Hx. apply list_elem_of_lookup in Hx as [i Hi].
    rewrite lookup_drop in Hi. apply (Hr (p + i)%nat x); [lia | exact Hi]. }
  pose proof S as S0. rewrite <- (take_drop p work) in S0.
  apply StronglySorted_app in S0 as (Hcross & St & Sd).
  split; [|split].
  - unfold work'. apply StronglySorted_app. split; [|split].
    + intros a b Ha Hb. apply elem_of_cons in Hb as [->|Hb].
      * rewrite cmp_antisym. pose proof (Ht a Ha). lia.
      * apply Hcross; assumption.
    + exact St.
    + constructor; [exact Sd|]. rewrite Forall_forall. intros x Hx.
      pose proof (Hd x Hx). lia.
  - unfold work'. rewrite <- (take_drop p work) in Dw.
    apply Forall_app in Dw as [Dt Dd]. apply Forall_app. split; auto.
  - intros P dec HP. unfold work'.
    rewrite <- (take_drop p work) at 3.
    rewrite !filter_app, !filter_cons, filter_nil.
    destruct (decide (P pivot)) as [Pp|Pp].
    + assert (E : filter P (drop p work) = []).
      { destruct (filter P (drop p work)) as [|y t] eqn:F; [reflexivity|].
        exfalso. assert (Hy : y ∈ filter P (drop p work))
          by (rewrite F; left).
        apply list_elem_of_filter in Hy as [Py Hy].
        pose proof (Hd y Hy). pose proof (HP y pivot Py Pp) as L.
        rewrite cmp_antisym in L. lia. }
      rewrite E, app_nil_r. reflexivity.
    + rewrite app_nil_r. reflexivity.
Qed.

Lemma binary_insertion_spec (rest : list A) :
  forall work : list A,
    Forall D work -> Forall D rest -> StronglySorted (fun a b => cmp a b <= 0) work ->
    StronglySorted (fun a b => cmp a b <= 0) (binary_insertion cmp work rest) /\
    Forall D (binary_insertion cmp work rest) /\
    forall (P : A -> Prop) (dec : forall x, Decision (P x)),
      (forall x y, P x -> P y -> cmp x y <= 0) ->
      filter P (binary_insertion cmp work rest) = filter P (work ++ rest).
Proof.
  induction rest as [|pivot rest IH]; intros work Dw Dr S; simpl.
  - split; [exact S|]. split; [exact Dw|]. intros.
    rewrite app_nil_r. reflexivity.
  - inversion Dr as [|? ? Dp Dr']; subst.
    destruct (binary_insert_spec pivot work Dp Dw S) as (S' & Dw' & F').
    destruct (IH _ Dw' Dr' S') as (S'' & D'' & F'').
    split; [exact S''|]. split; [exact D''|].
    intros P dec HP. rewrite (F'' P dec HP), filter_app, (F' P dec HP).
    rewrite <- filter_app, <- app_assoc. reflexivity.
Qed.

(** On a consistent comparator the engine returns the sorted and stable
    order. *)
Lemma v8_sort_sorted_stable (l l' : list A) :
  Forall D l -> v8_sort cmp l = Some l' ->
  StronglySorted (fun a b => cmp a b <= 0) l' /\ Forall D l' /\ stable_for cmp l l'.
Proof.
  intros Dl H. unfold v8_sort in H.
  destruct (length l <? 64)%nat; [|discriminate].
  destruct (count_and_make_run cmp l) as [run rest] eqn:E.
  injection H as <-.
  destruct (count_and_make_run_spec l run rest Dl E) as (S & Dr & Drs & F).
  destruct (binary_insertion_spec rest run Dr Drs S) as (S' & D' & F').
  split; [exact S'|]. split; [exact D'|].
  intros P dec HP. rewrite (F' P dec HP), filter_app. apply F, HP.
Qed.

Lemma v8_sort_consistent (l : list A) :
  Forall D l -> (length l < 64)%nat -> v8_sort cmp l = Some (sort cmp l).
Proof.
  intros Dl Hlen.
  destruct (v8_sort cmp l) as [l'|] eqn:E.
  - destruct (v8_sort_sorted_stable l l' Dl E) as (S & D' & T).
    f_equal. apply (sort_unique cmp D); auto.
    + intros x Dx. rewrite (cmp_antisym x x). 
      pose proof (cmp_antisym x x). lia.
    + intros x y Dx Dy H. rewrite cmp_antisym. lia.
  - unfold v8_sort in E. destruct (Nat.ltb_spec (length l) 64); [|lia].
    destruct (count_and_make_run cmp l). discriminate.
Qed.

End EngineSortFacts.

Lemma v8_sort_sorted (field : sort_field) (o : sort_order)
  (l : list student) :
  Forall (fun s => sortable field s = true) l -> (length l < 64)%nat ->
  v8_sort (comparator field o) l = Some (sorted field o l).
Proof.
  intros HD Hlen. unfold sorted.
  apply (v8_sort_consistent (comparator field o)
           (fun s => sortable field s = true)).
  - apply comparator_antisym.
  - apply comparator_trans.
  - exact HD.
  - exact Hlen.
Qed.

(** The claim of C6 as it is written fails on the code. The text "N/A"
    coerces to NaN and compares equal to the score 9, on either side; it
    stands before that score in the input and behind it in the order that
    V8 returns for the descending sort by score. *)
Lemma tied_records_swapped :
  ~ (forall l' : list student,
       v8_sort (comparator by_sgpa desc) mixed_scores = Some l' ->
       keeps_tied_order (comparator by_sgpa desc) mixed_scores l').
Proof.
  intros H.
  assert (E : v8_sort (comparator by_sgpa desc) mixed_scores =
              Some [nine; eight; seven; unscored])
    by (vm_compute; reflexivity).
  assert (C : comparator by_sgpa desc unscored nine = 0)
    by (vm_compute; reflexivity).
  pose proof (H _ E unscored nine C) as K.
  vm_compute in K. discriminate K.
Qed.

(** C6, amended. In every sort state and for every record list on which
    the comparator is consistent (every list for the columns usn and name,
    a list whose scores all coerce to a Number for the column sgpa),
    sorting is stable: two records that compare equal are in the sorted
    output in the order they have in the input. On such a list of fewer
    than 64 records the sorted output is also the order that V8 returns. *)
Theorem sorted_stable (field : sort_field) (o : sort_order)
  (l : list student) :
  Forall (fun s => sortable field s = true) l ->
  keeps_tied_order (comparator field o) l (sorted field o l) /\
  ((length l < 64)%nat ->
   v8_sort (comparator field o) l = Some (sorted field o l)).
Proof.
  intros HD. split.
  - apply sorted_keeps_tied.
  - intros Hlen. apply v8_sort_sorted; assumption.
Qed.

(** Witness of C6: Alice and Bob share the score 9.5 and keep their input
    order, behind Cara in the input and in front of her in the output. *)
Lemma sorted_stable_witness :
  Forall (fun s => sortable by_sgpa s = true) [cara; alice; bob] /\
  comparator by_sgpa desc alice bob = 0 /\
  filter (fun s => s = alice \/ s = bob)
    (sorted by_sgpa desc [cara; alice; bob]) =
  filter (fun s => s = alice \/ s = bob) [cara; alice; bob] /\
  v8_sort (comparator by_sgpa desc) [cara; alice; bob] =
  Some (sorted by_sgpa desc [cara; alice; bob]).
Proof.
  assert (HD : Forall (fun s => sortable by_sgpa s = true) [cara; alice; bob])
    by (repeat constructor).
  assert (C : comparator by_sgpa desc alice bob = 0)
    by (vm_compute; reflexivity).
  split; [exact HD|]. split; [exact C|]. split.
  - exact (proj1 (sorted_stable by_sgpa desc [cara; alice; bob] HD)
             alice bob C).
  - apply (proj2 (sorted_stable by_sgpa desc [cara; alice; bob] HD)).
    simpl. lia.
Defined.
